(** * ArticleGenius: the article-to-Markdown serializer of [src/App.js]

    The development embeds [formatArticleAsMarkdown] and the file name
    computed by [handleDownloadArticle] as Rocq functions over the
    JavaScript values that [response.json()] can deliver, and proves the
    properties of the specification about them.

    Conventions of the embedding:
    - a character of a Rocq [string] stands for one UTF-16 code unit, so the
      strings of the model are the JavaScript strings whose code units are
      below 256;
    - a JavaScript exception is the outcome [Throw]; the program only ever
      raises [TypeError], so one constructor is enough;
    - the local variable [markdown], which the [forEach] callbacks append
      to, is threaded explicitly through the callbacks;
    - to speak of side effects the function is embedded a second time, as
      code of the component that runs in a world made of the state of the
      component and of the requests to the browser, with [markdown] a
      variable of the call; the two embeddings are proved to agree;
    - what JavaScript does with a number (its truth value, its decimal
      text, its comparison with zero, the number a string converts to) is
      a parameter of the development, the class [JsNumber]. *)

From Stdlib Require Import Bool Arith List String Ascii Lia DecimalString.
Import ListNotations.
Open Scope string_scope.
Set Warnings "-register-all".

(** ** Strings *)

Definition nl : string := String (ascii_of_nat 10) EmptyString.

(** The blank line that ends every emitted element: ["\n\n"]. *)
Definition nl2 : string := nl ++ nl.

(** [is_prefix p s]: [s] starts with [p]. *)
Fixpoint is_prefix (p s : string) : bool :=
  match p, s with
  | EmptyString, _ => true
  | String a p', String b s' => Ascii.eqb a b && is_prefix p' s'
  | String _ _, EmptyString => false
  end.

(** [occurs x s]: [x] is a substring of [s]. *)
Fixpoint occurs (x s : string) : bool :=
  is_prefix x s ||
  match s with
  | EmptyString => false
  | String _ s' => occurs x s'
  end.

(** The lines of a string, the line break being [\n]. *)
Fixpoint split_lines (s : string) : list string :=
  match s with
  | EmptyString => [EmptyString]
  | String c s' =>
      if Ascii.eqb c (ascii_of_nat 10) then EmptyString :: split_lines s'
      else match split_lines s' with
           | [] => [String c EmptyString]
           | l :: ls => String c l :: ls
           end
  end.

(** The number of lines of [out] in which [marker] occurs. *)
Definition count_lines_with (marker out : string) : nat :=
  List.length (filter (occurs marker) (split_lines out)).

Definition starts_with (p s : string) : Prop := exists rest, s = p ++ rest.
Definition ends_with (q s : string) : Prop := exists front, s = front ++ q.
Definition contains (x s : string) : Prop := exists pre post, s = pre ++ x ++ post.

(** ** Outcomes: a value or a thrown [TypeError] *)

Inductive result (A : Type) : Type :=
| Ok (a : A)
| Throw.
Arguments Ok {A} a.
Arguments Throw {A}.

Definition bind {A B : Type} (r : result A) (k : A -> result B) : result B :=
  match r with
  | Ok a => k a
  | Throw => Throw
  end.

Notation "x <- e ;; k" := (bind e (fun x => k))
  (at level 61, e at next level, right associativity).

(** ** JavaScript values *)

(** The part of the semantics of numbers that the program can observe. *)
Class JsNumber : Type := {
  number : Type;
  (** [ToBoolean]: neither zero nor NaN. *)
  num_truthy : number -> bool;
  (** [Number::toString]. *)
  num_to_string : number -> string;
  (** [0 < n]. *)
  num_pos : number -> bool;
  (** [StringToNumber]. *)
  str_to_number : string -> number
}.

Section Values.
Context `{JsNumber}.

(** What [JSON.parse] builds, and [undefined], which reading a missing
    property yields.  An object is the list of its own properties; the
    first binding of a key is the one a read sees. *)
Inductive value : Type :=
| VUndef
| VNull
| VBool (b : bool)
| VNum (n : number)
| VStr (s : string)
| VArr (elems : list value)
| VObj (props : list (string * value)).

Fixpoint lookup (k : string) (props : list (string * value)) : option value :=
  match props with
  | [] => None
  | (k', v) :: rest => if String.eqb k k' then Some v else lookup k rest
  end.

(** The induction principle of values, with the elements of an array and
    the properties of an object as premises. *)
Section ValueInduction.
Variable P : value -> Prop.
Hypothesis P_undef : P VUndef.
Hypothesis P_null : P VNull.
Hypothesis P_bool : forall b, P (VBool b).
Hypothesis P_num : forall n, P (VNum n).
Hypothesis P_str : forall s, P (VStr s).
Hypothesis P_arr : forall l, Forall P l -> P (VArr l).
Hypothesis P_obj : forall o, Forall (fun kv => P (snd kv)) o -> P (VObj o).

Fixpoint value_ind' (v : value) : P v :=
  match v with
  | VUndef => P_undef
  | VNull => P_null
  | VBool b => P_bool b
  | VNum n => P_num n
  | VStr s => P_str s
  | VArr l =>
      P_arr l ((fix all (l : list value) : Forall P l :=
                  match l with
                  | [] => Forall_nil P
                  | x :: rest => Forall_cons x (value_ind' x) (all rest)
                  end) l)
  | VObj o =>
      P_obj o ((fix all (o : list (string * value))
                  : Forall (fun kv => P (snd kv)) o :=
                  match o with
                  | [] => Forall_nil _
                  | kv :: rest => Forall_cons kv (value_ind' (snd kv)) (all rest)
                  end) o)
  end.
End ValueInduction.

(** The value of the property [k] of an object: [undefined] when the
    object has no such property. *)
Definition field (k : string) (props : list (string * value)) : value :=
  match lookup k props with
  | Some x => x
  | None => VUndef
  end.

(** [ToBoolean]. *)
Definition truthy (v : value) : bool :=
  match v with
  | VUndef | VNull => false
  | VBool b => b
  | VNum n => num_truthy n
  | VStr s => negb (String.eqb s "")
  | VArr _ | VObj _ => true
  end.

(** [a || b]. *)
Definition js_or (a b : value) : value := if truthy a then a else b.

(** [v === 'lit']. *)
Definition strict_eq (v : value) (lit : string) : bool :=
  match v with
  | VStr s => String.eqb s lit
  | _ => false
  end.

(** [v.k], for the property names the program reads other than [length]
    and [forEach]: none of them is defined on a prototype, so only an own
    property of an object is found; reading from [undefined] or [null]
    throws. *)
Definition get (v : value) (k : string) : result value :=
  match v with
  | VUndef | VNull => Throw
  | VObj props => Ok (field k props)
  | _ => Ok VUndef
  end.

(** [ToString], as a template literal applies it.  An array is joined with
    commas, [undefined] and [null] elements giving the empty string.  An
    object built by [JSON.parse] has no callable own property: with an own
    [toString] the conversion finds no method that returns a primitive and
    throws, without one it reaches [Object.prototype.toString]. *)
Fixpoint to_string (v : value) : result string :=
  match v with
  | VUndef => Ok "undefined"
  | VNull => Ok "null"
  | VBool b => Ok (if b then "true" else "false")
  | VNum n => Ok (num_to_string n)
  | VStr s => Ok s
  | VArr elems =>
      (fix join (l : list value) : result string :=
         match l with
         | [] => Ok ""
         | x :: rest =>
             s <- match x with
                  | VUndef | VNull => Ok ""
                  | _ => to_string x
                  end ;;
             match rest with
             | [] => Ok s
             | _ :: _ => r <- join rest ;; Ok (s ++ "," ++ r)
             end
         end) elems
  | VObj props =>
      match lookup "toString" props with
      | Some _ => Throw
      | None => Ok "[object Object]"
      end
  end.

(** What [Array.prototype.join] writes for one element. *)
Definition element_text (x : value) : result string :=
  match x with
  | VUndef | VNull => Ok ""
  | _ => to_string x
  end.

(** [v > 0]: [undefined] converts to NaN, [null] to zero, a boolean to 0 or
    1, and an array or an object first to its string. *)
Definition js_gt_zero (v : value) : result bool :=
  match v with
  | VUndef | VNull => Ok false
  | VBool b => Ok b
  | VNum n => Ok (num_pos n)
  | VStr s => Ok (num_pos (str_to_number s))
  | VArr _ | VObj _ => s <- to_string v ;; Ok (num_pos (str_to_number s))
  end.

(** [v.length > 0] for a [v] other than [undefined] and [null]: the number
    of elements of an array, of code units of a string, the own property
    [length] of an object, and [undefined] elsewhere. *)
Definition length_gt_zero (v : value) : result bool :=
  match v with
  | VUndef | VNull => Throw
  | VArr elems => Ok (0 <? List.length elems)%nat
  | VStr s => Ok (0 <? String.length s)%nat
  | VObj props =>
      js_gt_zero (field "length" props)
  | VBool _ | VNum _ => Ok false
  end.

(** [xs.forEach(cb)], where [cb] updates the captured variable [markdown]:
    only an array has a callable [forEach]. *)
Fixpoint for_each (l : list value) (cb : value -> string -> result string)
    (markdown : string) : result string :=
  match l with
  | [] => Ok markdown
  | x :: rest => markdown' <- cb x markdown ;; for_each rest cb markdown'
  end.

Definition forEach (xs : value) (cb : value -> string -> result string)
    (markdown : string) : result string :=
  match xs with
  | VArr elems => for_each elems cb markdown
  | _ => Throw
  end.

(** ** [formatArticleAsMarkdown] *)

(** The callback of [section.content.forEach]. *)
Definition block_step (block : value) (markdown : string) : result string :=
  type <- get block "type" ;;
  if strict_eq type "text" then
    value <- get block "value" ;;
    v <- to_string value ;;
    Ok (markdown ++ v ++ nl2)
  else if strict_eq type "image" then
    url <- get block "url" ;;
    if truthy url then
      caption <- get block "caption" ;;
      c <- to_string (js_or caption (VStr "Image")) ;;
      u <- to_string url ;;
      Ok (markdown ++ "![" ++ c ++ "](" ++ u ++ ")" ++ nl2)
    else Ok markdown
  else Ok markdown.

(** The callback of [articleData.sections.forEach]. *)
Definition section_step (section : value) (markdown : string) : result string :=
  heading <- get section "heading" ;;
  markdown <- (if truthy heading
               then h <- to_string heading ;; Ok (markdown ++ "### " ++ h ++ nl2)
               else Ok markdown) ;;
  content <- get section "content" ;;
  forEach content block_step markdown.

(** The callback of [articleData.faq_section.forEach]. *)
Definition faq_step (faq : value) (markdown : string) : result string :=
  question <- get faq "question" ;;
  q <- to_string question ;;
  let markdown := markdown ++ "* **Q:** " ++ q ++ nl in
  answer <- get faq "answer" ;;
  a <- to_string answer ;;
  Ok (markdown ++ "  **A:** " ++ a ++ nl2).

Definition formatArticleAsMarkdown (articleData : value) : result string :=
  if negb (truthy articleData) then Ok "" else
  title <- get articleData "title" ;;
  t <- to_string (js_or title (VStr "Untitled Article")) ;;
  let markdown := "# " ++ t ++ nl2 in
  subtitle <- get articleData "subtitle" ;;
  markdown <- (if truthy subtitle
               then s <- to_string subtitle ;; Ok (markdown ++ "## " ++ s ++ nl2)
               else Ok markdown) ;;
  introduction <- get articleData "introduction" ;;
  markdown <- (if truthy introduction
               then i <- to_string introduction ;; Ok (markdown ++ i ++ nl2)
               else Ok markdown) ;;
  sections <- get articleData "sections" ;;
  markdown <- forEach sections section_step markdown ;;
  faq_section <- get articleData "faq_section" ;;
  markdown <- (if truthy faq_section then
                 nonempty <- length_gt_zero faq_section ;;
                 if (nonempty : bool) then
                   forEach faq_section faq_step
                     (markdown ++ "## Frequently Asked Questions" ++ nl2)
                 else Ok markdown
               else Ok markdown) ;;
  conclusion <- get articleData "conclusion" ;;
  if truthy conclusion then
    c <- to_string conclusion ;;
    Ok ((markdown ++ "## Conclusion" ++ nl2) ++ c ++ nl2)
  else Ok markdown.

(** ** The file name of [handleDownloadArticle] *)

Fixpoint string_map (f : ascii -> ascii) (s : string) : string :=
  match s with
  | EmptyString => EmptyString
  | String c s' => String (f c) (string_map f s')
  end.

Definition is_digit (c : ascii) : bool :=
  let n := nat_of_ascii c in ((48 <=? n) && (n <=? 57))%nat.
Definition is_lower (c : ascii) : bool :=
  let n := nat_of_ascii c in ((97 <=? n) && (n <=? 122))%nat.
Definition is_upper (c : ascii) : bool :=
  let n := nat_of_ascii c in ((65 <=? n) && (n <=? 90))%nat.

(** The class [[a-z0-9]] under the flag [i]: without the flag [u] a
    character outside ASCII never folds to an ASCII one, so the class
    holds the ASCII letters of both cases and the digits. *)
Definition in_class_az09_i (c : ascii) : bool :=
  is_lower c || is_upper c || is_digit c.

(** [s.replace(/[^a-z0-9]/gi, '_')]: with the flag [g] every code unit
    outside the class is replaced. *)
Definition replace_non_alnum (s : string) : string :=
  string_map (fun c => if in_class_az09_i c then c else "_"%char) s.

(** [toLowerCase] on the code units below 256: the ASCII capitals, and the
    capitals U+00C0 to U+00DE other than the sign U+00D7, move by 32. *)
Definition lower_char (c : ascii) : ascii :=
  let n := nat_of_ascii c in
  if ((65 <=? n) && (n <=? 90))%nat then ascii_of_nat (n + 32)
  else if ((192 <=? n) && (n <=? 222) && negb (n =? 215))%nat then ascii_of_nat (n + 32)
  else c.

Definition toLowerCase (s : string) : string := string_map lower_char s.

(** The value given to [link.download]: a value without a [replace] method
    (anything but a string, here) makes the call throw. *)
Definition download_name (article : value) : result string :=
  title <- get article "title" ;;
  match js_or title (VStr "article") with
  | VStr s => Ok (toLowerCase (replace_non_alnum s) ++ ".md")
  | _ => Throw
  end.

(** The state of the component [App], and what [handleDownloadArticle] does
    to the page. *)
Record AppState : Type := {
  topic : string;
  article : value;
  loading : bool;
  error : option string;
  copySuccess : string
}.

Inductive effect : Type :=
| CreateObjectURL (content : string)
| AppendLink
| ClickLink (download : string)
| RemoveLink
| RevokeObjectURL.

Definition setError (msg : string) (st : AppState) : AppState :=
  {| topic := topic st; article := article st; loading := loading st;
     error := Some msg; copySuccess := copySuccess st |}.

(** The handler returns the next state, the effects performed so far, and
    whether it completed or threw. *)
Definition handleDownloadArticle (st : AppState)
  : AppState * list effect * result unit :=
  if negb (truthy (article st)) then
    (setError "No article to download." st, [], Ok tt)
  else
    match formatArticleAsMarkdown (article st) with
    | Throw => (st, [], Throw)
    | Ok markdownContent =>
        match download_name (article st) with
        | Throw => (st, [CreateObjectURL markdownContent], Throw)
        | Ok name =>
            (st, [CreateObjectURL markdownContent; AppendLink; ClickLink name;
                  RemoveLink; RevokeObjectURL], Ok tt)
        end
    end.

(** ** Well-formed article records

    The data model of the specification, on values: an optional field is
    absent (or [null]) or a string, [sections] is a sequence of sections,
    each with a [content] sequence of block objects. *)

Definition absent (v : value) : bool :=
  match v with
  | VUndef | VNull => true
  | _ => false
  end.

Definition is_str (v : value) : bool :=
  match v with
  | VStr _ => true
  | _ => false
  end.

Definition opt_string (v : value) : bool := absent v || is_str v.

Definition valid_block (b : value) : bool :=
  match b with
  | VObj o =>
      if strict_eq (field "type" o) "text" then is_str (field "value" o)
      else if strict_eq (field "type" o) "image"
           then opt_string (field "url" o) && opt_string (field "caption" o)
           else true
  | _ => false
  end.

Definition valid_section (s : value) : bool :=
  match s with
  | VObj o =>
      opt_string (field "heading" o) &&
      match field "content" o with
      | VArr blocks => forallb valid_block blocks
      | _ => false
      end
  | _ => false
  end.

Definition valid_faq (e : value) : bool :=
  match e with
  | VObj o => is_str (field "question" o) && is_str (field "answer" o)
  | _ => false
  end.

Definition valid_article (a : value) : bool :=
  match a with
  | VObj o =>
      opt_string (field "title" o) && opt_string (field "subtitle" o) &&
      opt_string (field "introduction" o) && opt_string (field "conclusion" o) &&
      match field "sections" o with
      | VArr sections => forallb valid_section sections
      | _ => false
      end &&
      match field "faq_section" o with
      | VUndef | VNull => true
      | VArr entries => forallb valid_faq entries
      | _ => false
      end
  | _ => false
  end.

(** The sections of an article and the blocks of a section, as lists. *)
Definition elements (v : value) : list value :=
  match v with
  | VArr l => l
  | _ => []
  end.

Definition prop (k : string) (v : value) : value :=
  match v with
  | VObj o => field k o
  | _ => VUndef
  end.

Definition sections_of (a : value) : list value := elements (prop "sections" a).
Definition blocks_of (s : value) : list value := elements (prop "content" s).
Definition faq_of (a : value) : list value := elements (prop "faq_section" a).

(** All the blocks of an article, section after section. *)
Definition all_blocks (a : value) : list value := flat_map blocks_of (sections_of a).

Definition is_text (b : value) : bool := strict_eq (prop "type" b) "text".
Definition is_image (b : value) : bool := strict_eq (prop "type" b) "image".

(** The string of a field that holds one. *)
Definition str_of (v : value) : string :=
  match v with
  | VStr s => s
  | _ => ""
  end.

(** ** The text each part of a well-formed article contributes

    [render] spells out, as a plain concatenation, the string that the
    loops of [formatArticleAsMarkdown] build for a well-formed article;
    [formatArticleAsMarkdown_valid] below proves the two equal. *)

Fixpoint cat (l : list string) : string :=
  match l with
  | [] => ""
  | s :: rest => s ++ cat rest
  end.

(** A line made of [pre] and a field, when the field is a non-empty string. *)
Definition opt_line (pre : string) (v : value) : string :=
  if truthy v then pre ++ str_of v ++ nl2 else "".

(** The caption an image is written with. *)
Definition caption_text (b : value) : string :=
  if truthy (prop "caption" b) then str_of (prop "caption" b) else "Image".

Definition image_line (b : value) : string :=
  "![" ++ caption_text b ++ "](" ++ str_of (prop "url" b) ++ ")".

Definition block_text (b : value) : string :=
  if is_text b then str_of (prop "value" b) ++ nl2
  else if is_image b && truthy (prop "url" b) then image_line b ++ nl2
  else "".

Definition section_text (s : value) : string :=
  opt_line "### " (prop "heading" s) ++ cat (map block_text (blocks_of s)).

Definition faq_entry_text (e : value) : string :=
  "* **Q:** " ++ str_of (prop "question" e) ++ nl ++
  "  **A:** " ++ str_of (prop "answer" e) ++ nl2.

Definition faq_heading : string := "## Frequently Asked Questions".

Definition faq_text (entries : list value) : string :=
  match entries with
  | [] => ""
  | _ :: _ => faq_heading ++ nl2 ++ cat (map faq_entry_text entries)
  end.

Definition conclusion_text (a : value) : string :=
  if truthy (prop "conclusion" a)
  then "## Conclusion" ++ nl2 ++ str_of (prop "conclusion" a) ++ nl2
  else "".

Definition title_text (a : value) : string :=
  if truthy (prop "title" a) then str_of (prop "title" a) else "Untitled Article".

(** Title, subtitle, introduction and sections. *)
Definition front_text (a : value) : string :=
  "# " ++ title_text a ++ nl2 ++
  opt_line "## " (prop "subtitle" a) ++
  opt_line "" (prop "introduction" a) ++
  cat (map section_text (sections_of a)).

Definition render (a : value) : string :=
  front_text a ++ faq_text (faq_of a) ++ conclusion_text a.

(** The values of the text blocks of an article, in the order of the input. *)
Definition text_value (b : value) : string := str_of (prop "value" b).

Definition text_values (a : value) : list string :=
  map text_value (filter is_text (all_blocks a)).

(** [emitted_in_order xs out]: the strings [xs], each followed by a blank
    line, occur in [out] one after the other, without overlap. *)
Fixpoint emitted_in_order (xs : list string) (out : string) : Prop :=
  match xs with
  | [] => True
  | x :: xs' =>
      exists pre rest, out = pre ++ (x ++ nl2) ++ rest /\ emitted_in_order xs' rest
  end.

(** ** Removing the blocks that emit nothing *)

(** [update k v props] sets the property [k]. *)
Fixpoint update (k : string) (v : value) (props : list (string * value))
  : list (string * value) :=
  match props with
  | [] => [(k, v)]
  | (k', v') :: rest =>
      if String.eqb k k' then (k, v) :: rest else (k', v') :: update k v rest
  end.

(** [remove k props] deletes the property [k]. *)
Fixpoint remove (k : string) (props : list (string * value))
  : list (string * value) :=
  match props with
  | [] => []
  | (k', v') :: rest =>
      if String.eqb k k' then remove k rest else (k', v') :: remove k rest
  end.

(** A block whose type is neither ["text"] nor ["image"], or an image block
    without [url]. *)
Definition inert (b : value) : bool :=
  match b with
  | VObj o =>
      negb (strict_eq (field "type" o) "text") &&
      (negb (strict_eq (field "type" o) "image") || absent (field "url" o))
  | _ => false
  end.

Definition without_inert_section (s : value) : value :=
  match s with
  | VObj o =>
      match field "content" o with
      | VArr blocks =>
          VObj (update "content" (VArr (filter (fun b => negb (inert b)) blocks)) o)
      | _ => s
      end
  | _ => s
  end.

(** The same article with the inert blocks removed from every section. *)
Definition without_inert_blocks (a : value) : value :=
  match a with
  | VObj o =>
      match field "sections" o with
      | VArr sections => VObj (update "sections" (VArr (map without_inert_section sections)) o)
      | _ => a
      end
  | _ => a
  end.

(** The same article without FAQ and conclusion. *)
Definition without_faq_and_conclusion (a : value) : value :=
  match a with
  | VObj o => VObj (remove "conclusion" (remove "faq_section" o))
  | _ => a
  end.

(** ** The same JSON value

    Two values are the same JSON value when they differ at most in how
    their objects list their properties: the order of the keys, and the
    bindings that an earlier binding of the same key hides. *)
Inductive same_json : value -> value -> Prop :=
| same_undef : same_json VUndef VUndef
| same_null : same_json VNull VNull
| same_bool b : same_json (VBool b) (VBool b)
| same_num n : same_json (VNum n) (VNum n)
| same_str s : same_json (VStr s) (VStr s)
| same_arr l1 l2 : Forall2 same_json l1 l2 -> same_json (VArr l1) (VArr l2)
| same_obj o1 o2 :
    (forall k, lookup k o1 = None <-> lookup k o2 = None) ->
    (forall k v1 v2, lookup k o1 = Some v1 -> lookup k o2 = Some v2 -> same_json v1 v2) ->
    same_json (VObj o1) (VObj o2).

(** ** The file name, in the words of the specification *)

(** One pass over the title: a digit or a small letter stays, a capital
    becomes the small letter, anything else the underscore. *)
Definition sanitize (c : ascii) : ascii :=
  if is_digit c || is_lower c then c
  else if is_upper c then ascii_of_nat (nat_of_ascii c + 32)
  else "_"%char.

(** The title with every non-alphanumeric character replaced, lower-cased
    and suffixed, the base name ["article"] standing in for a title that is
    absent. *)
Definition file_name_absent_fallback (title : value) : string :=
  string_map sanitize (if absent title then "article" else str_of title) ++ ".md".

(** The same, with the base name ["article"] standing in for a title that
    is absent or empty. *)
Definition file_name (title : value) : string :=
  string_map sanitize (if truthy title then str_of title else "article") ++ ".md".

(** Every character is a digit, a small letter or the underscore. *)
Fixpoint plain_name (s : string) : bool :=
  match s with
  | EmptyString => true
  | String c s' => (is_digit c || is_lower c || Ascii.eqb c "_") && plain_name s'
  end.

(** ** What the proofs say of the callbacks and of [markdown] *)

(** A callback appends when running it on [markdown] gives [markdown]
    followed by what it gives on the empty string. *)
Definition appends (cb : value -> string -> result string) : Prop :=
  forall x md, cb x md = (s <- cb x "" ;; Ok (md ++ s)).

(** A callback that cannot tell the same JSON values apart. *)
Definition respects (cb : value -> string -> result string) : Prop :=
  forall x y md, same_json x y -> cb x md = cb y md.

(** A string that is empty or ends with a blank line. *)
Definition blank_ended (s : string) : Prop := s = "" \/ ends_with nl2 s.

(** The shape of [markdown] at every point after its initialisation. *)
Definition shaped (md : string) : Prop := starts_with "# " md /\ ends_with nl2 md.

(** ** The exact outcome of [formatArticleAsMarkdown]

    For any value, well formed or not: [serializable] says when the
    function returns, [markdown_of] what it returns. *)

(** [ToString] does not throw. *)
Definition printable (v : value) : bool :=
  match to_string v with
  | Ok _ => true
  | Throw => false
  end.

(** The text [ToString] gives, for a printable value. *)
Definition text_of (v : value) : string :=
  match to_string v with
  | Ok s => s
  | Throw => ""
  end.

Definition exactly (ok : bool) (s : string) : result string :=
  if ok then Ok s else Throw.

Definition is_array (v : value) : bool :=
  match v with
  | VArr _ => true
  | _ => false
  end.

(** A field written as a line when it is truthy. *)
Definition line_ok (v : value) : bool := negb (truthy v) || printable v.

Definition line_of (pre : string) (v : value) : string :=
  if truthy v then pre ++ text_of v ++ nl2 else "".

Definition block_ok (b : value) : bool :=
  negb (absent b) &&
  (if is_text b then printable (prop "value" b)
   else if is_image b && truthy (prop "url" b)
        then printable (js_or (prop "caption" b) (VStr "Image")) &&
             printable (prop "url" b)
        else true).

Definition block_markdown (b : value) : string :=
  if is_text b then text_of (prop "value" b) ++ nl2
  else if is_image b && truthy (prop "url" b)
       then "![" ++ text_of (js_or (prop "caption" b) (VStr "Image")) ++ "](" ++
            text_of (prop "url" b) ++ ")" ++ nl2
       else "".

Definition section_ok (s : value) : bool :=
  negb (absent s) && line_ok (prop "heading" s) &&
  is_array (prop "content" s) && forallb block_ok (blocks_of s).

Definition section_markdown (s : value) : string :=
  line_of "### " (prop "heading" s) ++ cat (map block_markdown (blocks_of s)).

Definition faq_entry_ok (e : value) : bool :=
  negb (absent e) && printable (prop "question" e) && printable (prop "answer" e).

Definition faq_entry_markdown (e : value) : string :=
  "* **Q:** " ++ text_of (prop "question" e) ++ nl ++
  "  **A:** " ++ text_of (prop "answer" e) ++ nl2.

(** The test [faq_section && faq_section.length > 0]. *)
Definition faq_wanted (f : value) : result bool :=
  if truthy f then length_gt_zero f else Ok false.

Definition faq_ok (f : value) : bool :=
  match faq_wanted f with
  | Throw => false
  | Ok false => true
  | Ok true => is_array f && forallb faq_entry_ok (elements f)
  end.

Definition faq_markdown (f : value) : string :=
  match faq_wanted f with
  | Ok true =>
      "## Frequently Asked Questions" ++ nl2 ++
      cat (map faq_entry_markdown (elements f))
  | _ => ""
  end.

Definition conclusion_markdown (c : value) : string :=
  if truthy c then "## Conclusion" ++ nl2 ++ text_of c ++ nl2 else "".

Definition serializable (a : value) : bool :=
  printable (js_or (prop "title" a) (VStr "Untitled Article")) &&
  line_ok (prop "subtitle" a) &&
  line_ok (prop "introduction" a) &&
  is_array (prop "sections" a) && forallb section_ok (sections_of a) &&
  faq_ok (prop "faq_section" a) &&
  line_ok (prop "conclusion" a).

Definition markdown_of (a : value) : string :=
  "# " ++ text_of (js_or (prop "title" a) (VStr "Untitled Article")) ++ nl2 ++
  line_of "## " (prop "subtitle" a) ++
  line_of "" (prop "introduction" a) ++
  cat (map section_markdown (sections_of a)) ++
  faq_markdown (prop "faq_section" a) ++
  conclusion_markdown (prop "conclusion" a).


(** The properties [formatArticleAsMarkdown] reads from the article. *)
Definition article_keys : list string :=
  ["title"; "subtitle"; "introduction"; "sections"; "faq_section"; "conclusion"].

(** The sections that have a heading to write, and their heading lines. *)
Definition has_heading (s : value) : bool := truthy (prop "heading" s).

Definition heading_line (s : value) : string := "### " ++ str_of (prop "heading" s).


(** ** The other handlers of [App] *)

(** The setters of the component state. *)
Definition setLoading (b : bool) (st : AppState) : AppState :=
  {| topic := topic st; article := article st; loading := b;
     error := error st; copySuccess := copySuccess st |}.

Definition setArticle (v : value) (st : AppState) : AppState :=
  {| topic := topic st; article := v; loading := loading st;
     error := error st; copySuccess := copySuccess st |}.

Definition setCopySuccess (s : string) (st : AppState) : AppState :=
  {| topic := topic st; article := article st; loading := loading st;
     error := error st; copySuccess := s |}.

(** [setError(null)]. *)
Definition setErrorNull (st : AppState) : AppState :=
  {| topic := topic st; article := article st; loading := loading st;
     error := None; copySuccess := copySuccess st |}.

(** The white space and line terminators among the code units below 256:
    tab, line feed, vertical tab, form feed, carriage return, space and
    no-break space. *)
Definition is_space (c : ascii) : bool :=
  let n := nat_of_ascii c in
  ((n =? 9) || (n =? 10) || (n =? 11) || (n =? 12) || (n =? 13) ||
   (n =? 32) || (n =? 160))%nat.

Fixpoint trim_start (s : string) : string :=
  match s with
  | EmptyString => EmptyString
  | String c s' => if is_space c then trim_start s' else s
  end.

Fixpoint trim_end (s : string) : string :=
  match s with
  | EmptyString => EmptyString
  | String c s' =>
      match trim_end s' with
      | EmptyString => if is_space c then EmptyString else String c EmptyString
      | String d t => String c (String d t)
      end
  end.

(** [s.trim()]. *)
Definition trim (s : string) : string := trim_end (trim_start s).

(** What [fetch] and [response.json()] settle to: a rejection carries the
    [message] of its error. *)
Inductive json_outcome : Type :=
| JsonRejected (message : string)
| JsonResolved (data : value).

Inductive fetch_outcome : Type :=
| FetchRejected (message : string)
| FetchResolved (ok : bool) (status : number) (body : json_outcome).

(** The [TypeError]s that [handleGenerateArticle] can catch from its own
    expressions; the text of their [message] is the engine's. *)
Inductive type_error : Type :=
| ReadOfNullish (v : value) (k : string)
| NoPrimitive (v : value).

Inductive request_effect : Type :=
| PreventDefault
| PostTopic (topic : string)
| ConsoleLog (data : value)
| ConsoleError (message : string).

(** What the [try] block comes to: the data handed to [setArticle], or the
    [message] of the error caught. *)
Definition request_result (engine : type_error -> string) (net : fetch_outcome)
  : string + value :=
  match net with
  | FetchRejected m => inl m
  | FetchResolved ok status body =>
      if ok then
        match body with
        | JsonRejected m => inl m
        | JsonResolved data => inr data
        end
      else
        match body with
        | JsonRejected m => inl m
        | JsonResolved errorData =>
            match get errorData "error" with
            | Throw => inl (engine (ReadOfNullish errorData "error"))
            | Ok e =>
                let msg :=
                  js_or e (VStr ("HTTP error! status: " ++ num_to_string status)) in
                match to_string msg with
                | Ok m => inl m
                | Throw => inl (engine (NoPrimitive msg))
                end
            end
        end
  end.

Definition failure_text (m : string) : string :=
  "Failed to generate article: " ++ m ++
  ". Please try again or with a different topic.".

(** The handler, given what the network answers: the state while the
    request is in flight (none when no request is made), the state when
    the handler is done, and the effects. *)
Definition handleGenerateArticle (engine : type_error -> string)
    (st : AppState) (net : fetch_outcome)
  : option AppState * AppState * list request_effect :=
  if String.eqb (trim (topic st)) "" then
    (None, setError "Please enter a topic to generate an article." st,
     [PreventDefault])
  else
    let pending :=
      setCopySuccess "" (setArticle VNull (setErrorNull (setLoading true st))) in
    match request_result engine net with
    | inr data =>
        (Some pending, setLoading false (setArticle data pending),
         [PreventDefault; PostTopic (topic st); ConsoleLog data])
    | inl m =>
        (Some pending, setLoading false (setError (failure_text m) pending),
         [PreventDefault; PostTopic (topic st); ConsoleError m])
    end.

(** What [navigator.clipboard.writeText] comes to: [ClipboardMissing] is
    the page without [navigator.clipboard], where the call itself throws. *)
Inductive clipboard_outcome : Type :=
| ClipboardWritten
| ClipboardRejected
| ClipboardMissing.

Inductive copy_effect : Type :=
| WriteText (content : string)
| SetTimeout (ms : nat)
| CopyConsoleError.

Definition handleCopyArticle (st : AppState) (clip : clipboard_outcome)
  : AppState * list copy_effect * result unit :=
  if negb (truthy (article st)) then
    (setError "No article to copy." st, [], Ok tt)
  else
    match formatArticleAsMarkdown (article st) with
    | Throw => (st, [], Throw)
    | Ok markdownContent =>
        match clip with
        | ClipboardWritten =>
            (setCopySuccess "Article copied to clipboard!" st,
             [WriteText markdownContent; SetTimeout 3000], Ok tt)
        | ClipboardRejected =>
            (setCopySuccess "Failed to copy article. Please try manually." st,
             [WriteText markdownContent; CopyConsoleError], Ok tt)
        | ClipboardMissing =>
            (setCopySuccess "Failed to copy article. Please try manually." st,
             [CopyConsoleError], Ok tt)
        end
    end.

(** The callback given to [setTimeout]. *)
Definition copy_timer_fires (st : AppState) : AppState := setCopySuccess "" st.


(** A string of white space only. *)
Fixpoint blank (s : string) : bool :=
  match s with
  | EmptyString => true
  | String c s' => is_space c && blank s'
  end.


(** ** The article panel of the page

    What the JSX of [App] evaluates to for the article: the elements, the
    values put in child position and the attributes that come from the
    article.  Class names, keys and event handlers are left out. *)
Inductive node : Type :=
| Child (v : value)
| Text (s : string)
| Element (tag : string) (attrs : list (string * value)) (children : list node)
| Items (items : list node).

(** [c && n]. *)
Definition when (c : value) (n : node) : node :=
  if truthy c then n else Child c.

(** [xs.map(f)], for a callback that builds a node: only an array has a
    callable [map]. *)
Fixpoint map_nodes (f : value -> result node) (l : list value) : result (list node) :=
  match l with
  | [] => Ok []
  | x :: rest => n <- f x ;; ns <- map_nodes f rest ;; Ok (n :: ns)
  end.

Definition js_map (xs : value) (f : value -> result node) : result node :=
  match xs with
  | VArr elems => ns <- map_nodes f elems ;; Ok (Items ns)
  | _ => Throw
  end.

(** The callback of [section.content.map]. *)
Definition block_view (article section block : value) : result node :=
  type <- get block "type" ;;
  text_part <- (if strict_eq type "text"
                then value <- get block "value" ;; Ok (Element "p" [] [Child value])
                else Ok (Child (VBool false))) ;;
  image_part <-
    (if strict_eq type "image" then
       url <- get block "url" ;;
       caption <- get block "caption" ;;
       alt <- (if truthy caption then Ok caption
               else heading <- get section "heading" ;;
                    title <- get article "title" ;;
                    s <- to_string (js_or heading title) ;;
                    Ok (VStr ("Image for " ++ s))) ;;
       Ok (Element "div" []
             [Element "img" [("src", url); ("alt", alt)] [];
              when caption (Element "p" [] [Child caption])])
     else Ok (Child (VBool false))) ;;
  Ok (Element "React.Fragment" [] [text_part; image_part]).

(** The callback of [article.sections.map]. *)
Definition section_view (article section : value) : result node :=
  heading <- get section "heading" ;;
  content <- get section "content" ;;
  blocks <- js_map content (block_view article section) ;;
  Ok (Element "div" [] [when heading (Element "h3" [] [Child heading]); blocks]).

(** The callback of [article.faq_section.map]. *)
Definition faq_view (faq : value) : result node :=
  question <- get faq "question" ;;
  answer <- get faq "answer" ;;
  Ok (Element "div" []
        [Element "p" [] [Element "strong" [] [Text "Q:"]; Text " "; Child question];
         Element "p" [] [Element "strong" [] [Text "A:"]; Text " "; Child answer]]).

(** [{article && (...)}]. *)
Definition article_panel (article : value) (copySuccess : string) : result node :=
  if negb (truthy article) then Ok (Child article) else
  title <- get article "title" ;;
  subtitle <- get article "subtitle" ;;
  introduction <- get article "introduction" ;;
  sections <- get article "sections" ;;
  section_nodes <- js_map sections (section_view article) ;;
  faq_section <- get article "faq_section" ;;
  faq_part <- (if truthy faq_section then
                 nonempty <- length_gt_zero faq_section ;;
                 if (nonempty : bool) then
                   entries <- js_map faq_section faq_view ;;
                   Ok (Element "div" []
                         [Element "h3" [] [Text "Frequently Asked Questions"];
                          entries])
                 else Ok (Child (VBool false))
               else Ok (Child faq_section)) ;;
  conclusion <- get article "conclusion" ;;
  Ok (Element "div" []
        [Element "div" []
           [Element "button" [] [Text "Download Article (.md)"];
            Element "button" [] [Text "Copy Article (Markdown)"]];
         when (VStr copySuccess) (Element "p" [] [Child (VStr copySuccess)]);
         when title (Element "h2" [] [Child title]);
         when subtitle (Element "h3" [] [Child subtitle]);
         when introduction
           (Element "div" []
              [Element "h3" [] [Text "Introduction"];
               Element "p" [] [Child introduction]]);
         section_nodes;
         faq_part;
         when conclusion
           (Element "div" []
              [Element "h3" [] [Text "Conclusion"];
               Element "p" [] [Child conclusion]])]).

(** The [img] elements of a node, with their attributes. *)
Fixpoint images (n : node) : list (list (string * value)) :=
  match n with
  | Child _ | Text _ => []
  | Element tag attrs children =>
      ((if String.eqb tag "img" then [attrs] else []) ++
       (fix all (l : list node) : list (list (string * value)) :=
          match l with
          | [] => []
          | c :: rest => images c ++ all rest
          end) children)%list
  | Items items =>
      (fix all (l : list node) : list (list (string * value)) :=
         match l with
         | [] => []
         | c :: rest => (images c ++ all rest)%list
         end) items
  end.

(** The image blocks of an article, each with the [alt] text the page
    gives it: the caption, or [Image for ] with the heading of the section
    or else the title of the article. *)
Definition alt_of (article section block : value) : value :=
  if truthy (prop "caption" block) then prop "caption" block
  else VStr ("Image for " ++
             text_of (js_or (prop "heading" section) (prop "title" article))).

Definition section_images (article section : value) : list (list (string * value)) :=
  map (fun b => [("src", prop "url" b); ("alt", alt_of article section b)])
      (filter is_image (blocks_of section)).


(** ** [handleGenerateArticle] in the older file

    The older [App.js] has no copy message and guards the request with a
    test of the endpoint; the endpoint is a parameter here. *)

(** The endpoint written in both files. *)
Definition API_ENDPOINT : string :=
  "https://artgenbackend.worksbeyondworks.workers.dev/generate-article".

Definition handleGenerateArticle_old (endpoint : string)
    (engine : type_error -> string) (st : AppState) (net : fetch_outcome)
  : option AppState * AppState * list request_effect :=
  if String.eqb (trim (topic st)) "" then
    (None, setError "Please enter a topic to generate an article." st,
     [PreventDefault])
  else if occurs "YOUR_CLOUDFLARE_WORKER_URL" endpoint then
    (None,
     setError "Error: API_ENDPOINT is still a placeholder. Please update App.js with your actual Cloudflare Worker URL." st,
     [PreventDefault])
  else
    let pending := setArticle VNull (setErrorNull (setLoading true st)) in
    match request_result engine net with
    | inr data =>
        (Some pending, setLoading false (setArticle data pending),
         [PreventDefault; PostTopic (topic st); ConsoleLog data])
    | inl m =>
        (Some pending, setLoading false (setError (failure_text m) pending),
         [PreventDefault; PostTopic (topic st); ConsoleError m])
    end.


(** ** The component as the page drives it

    The events of the page and what each does to the state.  The input
    and the submit button are disabled while [loading]; the two export
    buttons are part of the article panel, which is there only when
    [article] is truthy; the continuation of a copy and the timer it sets
    run later, at any time. *)

Definition setTopic (t : string) (st : AppState) : AppState :=
  {| topic := t; article := article st; loading := loading st;
     error := error st; copySuccess := copySuccess st |}.

(** The state of [useState] at the first render. *)
Definition initial_state : AppState :=
  {| topic := ""; article := VNull; loading := false; error := None;
     copySuccess := "" |}.

(** The four setters before [try]. *)
Definition request_starts (st : AppState) : AppState :=
  setCopySuccess "" (setArticle VNull (setErrorNull (setLoading true st))).

(** The setters of [try], [catch] and [finally]. *)
Definition request_ends (engine : type_error -> string) (net : fetch_outcome)
    (st : AppState) : AppState :=
  match request_result engine net with
  | inr data => setLoading false (setArticle data st)
  | inl m => setLoading false (setError (failure_text m) st)
  end.

Inductive event : Type :=
| Typed (t : string)
| Submitted
| Settled (net : fetch_outcome)
| DownloadClicked
| CopySettled (written : bool)
| TimerFired.

Inductive step (engine : type_error -> string) : AppState -> event -> AppState -> Prop :=
| step_typed st t :
    loading st = false -> step engine st (Typed t) (setTopic t st)
| step_submit_blank st :
    loading st = false -> blank (topic st) = true ->
    step engine st Submitted
      (setError "Please enter a topic to generate an article." st)
| step_submit st :
    loading st = false -> blank (topic st) = false ->
    step engine st Submitted (request_starts st)
| step_settled st net :
    loading st = true -> step engine st (Settled net) (request_ends engine net st)
| step_download st :
    truthy (article st) = true ->
    step engine st DownloadClicked (fst (fst (handleDownloadArticle st)))
| step_copy_settled st written :
    step engine st (CopySettled written)
      (setCopySuccess
         (if written then "Article copied to clipboard!"
          else "Failed to copy article. Please try manually.") st)
| step_timer st :
    step engine st TimerFired (copy_timer_fires st).

Inductive reachable (engine : type_error -> string) : AppState -> Prop :=
| reachable_initial : reachable engine initial_state
| reachable_step st e st' :
    reachable engine st -> step engine st e st' -> reachable engine st'.



(** ** The code of [App] as it runs

    The functions of [App] are closures of the component: each of them can
    call the setters of its state and reach the browser, that is the
    document and its object URLs, the clipboard, the network, the console
    and the timers.  A piece of code is modelled here as a function of the
    state it runs in, which gives an outcome and the state it leaves; what
    was done before an exception is thrown stays done. *)

(** What the browser is asked to do, by any of the handlers. *)
Inductive io : Type :=
| Download (e : effect)
| Request (e : request_effect)
| Clipboard (e : copy_effect).

(** What code of [App] can change: the state of the component, of which
    [article] is the object handed to [formatArticleAsMarkdown], and the
    requests made to the browser so far. *)
Record world : Type := {
  component : AppState;
  performed : list io
}.

Definition code (S A : Type) : Type := S -> result A * S.

Definition ret {S A : Type} (a : A) : code S A := fun s => (Ok a, s).

Definition throw {S A : Type} : code S A := fun s => (Throw, s).

Definition and_then {S A B : Type} (c : code S A) (k : A -> code S B) : code S B :=
  fun s =>
    match c s with
    | (Ok a, s') => k a s'
    | (Throw, s') => (Throw, s')
    end.

(** An expression made of property reads, [||], [===], [ToString] and
    comparisons on values of [JSON.parse]: such a value has no getter and
    no method of its own, so evaluating the expression runs no code of the
    program. *)
Definition eval {S A : Type} (r : result A) : code S A := fun s => (r, s).

Notation "x <~ e ;; k" := (and_then e (fun x => k))
  (at level 61, e at next level, right associativity).
Notation "e ;;; k" := (and_then e (fun _ => k))
  (at level 61, right associativity).

(** A call of a setter of the component state. *)
Definition set_state (f : AppState -> AppState) : code world unit :=
  fun w => (Ok tt, {| component := f (component w); performed := performed w |}).

(** A request to the browser. *)
Definition perform (e : io) : code world unit :=
  fun w => (Ok tt, {| component := component w; performed := (performed w ++ [e])%list |}).

(** The variables of a running call of [formatArticleAsMarkdown]: its
    local [markdown], and everything outside the call. *)
Record frame : Type := {
  local_markdown : string;
  outside : world
}.

(** [let markdown = s]. *)
Definition assign_markdown (s : string) : code frame unit :=
  fun f => (Ok tt, {| local_markdown := s; outside := outside f |}).

(** [markdown += s]. *)
Definition append_markdown (s : string) : code frame unit :=
  fun f => (Ok tt, {| local_markdown := local_markdown f ++ s; outside := outside f |}).

(** The value of [markdown]. *)
Definition read_markdown : code frame string := fun f => (Ok (local_markdown f), f).

(** [xs.forEach(cb)] for a callback that is run for what it does. *)
Fixpoint for_each_code {S : Type} (l : list value) (cb : value -> code S unit)
  : code S unit :=
  match l with
  | [] => ret tt
  | x :: rest => and_then (cb x) (fun _ => for_each_code rest cb)
  end.

Definition forEach_code {S : Type} (xs : value) (cb : value -> code S unit)
  : code S unit :=
  match xs with
  | VArr elems => for_each_code elems cb
  | _ => throw
  end.

(** The callback of [section.content.forEach], lines 75 to 81. *)
Definition block_callback (block : value) : code frame unit :=
  type <~ eval (get block "type") ;;
  if strict_eq type "text" then
    value <~ eval (get block "value") ;;
    v <~ eval (to_string value) ;;
    append_markdown (v ++ nl2)
  else if strict_eq type "image" then
    url <~ eval (get block "url") ;;
    if truthy url then
      caption <~ eval (get block "caption") ;;
      c <~ eval (to_string (js_or caption (VStr "Image"))) ;;
      u <~ eval (to_string url) ;;
      append_markdown ("![" ++ c ++ "](" ++ u ++ ")" ++ nl2)
    else ret tt
  else ret tt.

(** The callback of [articleData.sections.forEach], lines 71 to 82. *)
Definition section_callback (section : value) : code frame unit :=
  heading <~ eval (get section "heading") ;;
  (if truthy heading
   then h <~ eval (to_string heading) ;; append_markdown ("### " ++ h ++ nl2)
   else ret tt) ;;;
  content <~ eval (get section "content") ;;
  forEach_code content block_callback.

(** The callback of [articleData.faq_section.forEach], lines 86 to 89. *)
Definition faq_callback (faq : value) : code frame unit :=
  question <~ eval (get faq "question") ;;
  q <~ eval (to_string question) ;;
  append_markdown ("* **Q:** " ++ q ++ nl) ;;;
  answer <~ eval (get faq "answer") ;;
  a <~ eval (to_string answer) ;;
  append_markdown ("  **A:** " ++ a ++ nl2).

(** The body of [formatArticleAsMarkdown], lines 59 to 97, statement by
    statement. *)
Definition formatArticleAsMarkdown_body (articleData : value) : code frame string :=
  if negb (truthy articleData) then ret "" else
  title <~ eval (get articleData "title") ;;
  t <~ eval (to_string (js_or title (VStr "Untitled Article"))) ;;
  assign_markdown ("# " ++ t ++ nl2) ;;;
  subtitle <~ eval (get articleData "subtitle") ;;
  (if truthy subtitle
   then s <~ eval (to_string subtitle) ;; append_markdown ("## " ++ s ++ nl2)
   else ret tt) ;;;
  introduction <~ eval (get articleData "introduction") ;;
  (if truthy introduction
   then i <~ eval (to_string introduction) ;; append_markdown (i ++ nl2)
   else ret tt) ;;;
  sections <~ eval (get articleData "sections") ;;
  forEach_code sections section_callback ;;;
  faq_section <~ eval (get articleData "faq_section") ;;
  (if truthy faq_section then
     nonempty <~ eval (length_gt_zero faq_section) ;;
     if (nonempty : bool) then
       append_markdown ("## Frequently Asked Questions" ++ nl2) ;;;
       forEach_code faq_section faq_callback
     else ret tt
   else ret tt) ;;;
  conclusion <~ eval (get articleData "conclusion") ;;
  (if truthy conclusion then
     append_markdown ("## Conclusion" ++ nl2) ;;;
     c <~ eval (to_string conclusion) ;;
     append_markdown (c ++ nl2)
   else ret tt) ;;;
  read_markdown.

(** A call of [formatArticleAsMarkdown]: the body runs with a [markdown]
    of its own, which is gone when the call is over. *)
Definition call_formatArticleAsMarkdown (articleData : value) : code world string :=
  fun w =>
    let (outcome, f) :=
      formatArticleAsMarkdown_body articleData {| local_markdown := ""; outside := w |} in
    (outcome, outside f).

(** [handleDownloadArticle], lines 103 to 118, statement by statement. *)
Definition handleDownloadArticle_code : code world unit :=
  fun w =>
    let article := article (component w) in
    (if negb (truthy article) then set_state (setError "No article to download.")
     else
       markdownContent <~ call_formatArticleAsMarkdown article ;;
       perform (Download (CreateObjectURL markdownContent)) ;;;
       name <~ eval (download_name article) ;;
       perform (Download AppendLink) ;;;
       perform (Download (ClickLink name)) ;;;
       perform (Download RemoveLink) ;;;
       perform (Download RevokeObjectURL)) w.

(** What a piece of code of the call has done to the frame [out], against
    the outcome [r] computed for [markdown] and the world [w] it started
    in: the world is as it was, and [markdown] holds [r] unless the code
    threw. *)
Definition tracks (r : result string) (w : world) (out : result unit * frame) : Prop :=
  outside (snd out) = w /\
  match r with
  | Ok md => fst out = Ok tt /\ local_markdown (snd out) = md
  | Throw => fst out = Throw
  end.

(** A callback written against the frame does what the callback that is
    handed [markdown] computes, and nothing outside the call. *)
Definition simulates (cb : value -> string -> result string)
    (cbc : value -> code frame unit) : Prop :=
  forall x f, tracks (cb x (local_markdown f)) (outside f) (cbc x f).

(** The values of the article panel that stand in child position. *)
Fixpoint child_values (n : node) : list value :=
  match n with
  | Child v => [v]
  | Text _ => []
  | Element _ _ children =>
      (fix all (l : list node) : list value :=
         match l with
         | [] => []
         | c :: rest => (child_values c ++ all rest)%list
         end) children
  | Items items =>
      (fix all (l : list node) : list value :=
         match l with
         | [] => []
         | c :: rest => (child_values c ++ all rest)%list
         end) items
  end.

(** [undefined], [null], a boolean or a string. *)
Definition plain_child (v : value) : bool :=
  match v with
  | VUndef | VNull | VBool _ | VStr _ => true
  | _ => false
  end.

End Values.

Arguments value {_}.

(** * The values of the examples *)

(** The numbers of the examples: the natural numbers and NaN ([None]); the
    only numerals read from a string are the runs of decimal digits.  No
    example contains a number: the instance only fixes the type the values
    are written in. *)

Fixpoint digits_value (s : string) (acc : nat) : option nat :=
  match s with
  | EmptyString => Some acc
  | String c s' =>
      let n := nat_of_ascii c in
      if ((48 <=? n) && (n <=? 57))%nat
      then digits_value s' (10 * acc + (n - 48))%nat
      else None
  end.

Definition ExampleNumber : JsNumber := {|
  number := option nat;
  num_truthy := fun n => match n with Some (S _) => true | _ => false end;
  num_to_string := fun n =>
    match n with
    | Some k => NilEmpty.string_of_uint (Nat.to_uint k)
    | None => "NaN"
    end;
  num_pos := fun n => match n with Some (S _) => true | _ => false end;
  str_to_number := fun s => digits_value s 0
|}.

Definition example : Type := @value ExampleNumber.

(** The example of the specification. *)
Definition mars : example :=
  VObj [("title", VStr "Mars");
        ("sections",
         VArr [VObj [("heading", VStr "Intro");
                     ("content",
                      VArr [VObj [("type", VStr "text");
                                  ("value", VStr "Mars is red.")]])]])].

(** The same article as [JSON.parse] builds it from a text that lists the
    keys in another order. *)
Definition mars_reordered : example :=
  VObj [("sections",
         VArr [VObj [("content",
                      VArr [VObj [("value", VStr "Mars is red.");
                                  ("type", VStr "text")]]);
                     ("heading", VStr "Intro")]]);
        ("title", VStr "Mars")].

(** An article without title. *)
Definition untitled : example := VObj [("sections", VArr [])].

(** An article with an empty title. *)
Definition empty_title : example := VObj [("title", VStr ""); ("sections", VArr [])].

(** An article whose only section has no [content]. *)
Definition no_content : example := VObj [("sections", VArr [VObj []])].

(** An object without [sections]. *)
Definition no_sections : example := VObj [("title", VStr "Mars")].

(** Two image blocks: one with an empty [url], one with an empty [caption]. *)
Definition empty_url_block : example :=
  VObj [("type", VStr "image"); ("url", VStr ""); ("caption", VStr "c")].
Definition empty_caption_block : example :=
  VObj [("type", VStr "image"); ("url", VStr "u"); ("caption", VStr "")].
Definition pictures : example :=
  VObj [("sections",
         VArr [VObj [("content", VArr [empty_url_block; empty_caption_block])]])].

(** An image block with [url] and [caption], one without caption, a block
    of another type and an image block without [url]. *)
Definition gallery : example :=
  VObj [("title", VStr "Mars");
        ("sections",
         VArr [VObj [("content",
                      VArr [VObj [("type", VStr "image"); ("url", VStr "u");
                                  ("caption", VStr "c")];
                            VObj [("type", VStr "video"); ("url", VStr "v")];
                            VObj [("type", VStr "image"); ("url", VStr "w")];
                            VObj [("type", VStr "image"); ("caption", VStr "d")]])]])].

(** No FAQ, and a subtitle that reads like the FAQ heading. *)
Definition fake_heading : example :=
  VObj [("subtitle", VStr "Frequently Asked Questions"); ("sections", VArr [])].

(** One FAQ entry, and a text block that reads like a question line. *)
Definition fake_question : example :=
  VObj [("sections",
         VArr [VObj [("content",
                      VArr [VObj [("type", VStr "text");
                                  ("value", VStr "* **Q:** why")]])]]);
        ("faq_section",
         VArr [VObj [("question", VStr "q"); ("answer", VStr "a")]])].

(** Two FAQ entries and a conclusion. *)
Definition with_faq : example :=
  VObj [("title", VStr "Mars");
        ("sections", VArr []);
        ("faq_section",
         VArr [VObj [("question", VStr "Red?"); ("answer", VStr "Yes.")];
               VObj [("question", VStr "Far?"); ("answer", VStr "Very.")]]);
        ("conclusion", VStr "Go.")].

(** The component showing [mars]. *)
Definition showing_mars : AppState :=
  {| topic := "Mars"; article := mars; loading := false; error := None;
     copySuccess := "" |}.

(** A text block without [value], a FAQ entry without [answer], and a
    title that is [null]. *)
Definition sloppy : example :=
  VObj [("title", VNull);
        ("sections", VArr [VObj [("content", VArr [VObj [("type", VStr "text")]])]]);
        ("faq_section", VArr [VObj [("question", VStr "Why?")]])].

(** An article with a [faq_section] that is a sentence. *)
Definition faq_as_text : list (string * example) :=
  [("sections", VArr []); ("faq_section", VStr "None")].

(** An article with every part. *)
Definition complete : example :=
  VObj [("title", VStr "Mars");
        ("subtitle", VStr "The red planet");
        ("introduction", VStr "Mars is the fourth planet.");
        ("sections",
         VArr [VObj [("heading", VStr "Colour");
                     ("content",
                      VArr [VObj [("type", VStr "text"); ("value", VStr "Red.")]])];
               VObj [("heading", VStr "Moons");
                     ("content",
                      VArr [VObj [("type", VStr "text"); ("value", VStr "Two.")]])]]);
        ("conclusion", VStr "Go.")].

(** An article whose title is [true]. *)
Definition odd_title : example := VObj [("title", VBool true); ("sections", VArr [])].

(** The component before a request, with the topic [t]. *)
Definition typing (t : string) : @AppState ExampleNumber :=
  {| topic := t; article := VNull; loading := false; error := None;
     copySuccess := "" |}.

Definition showing (a : example) : @AppState ExampleNumber :=
  {| topic := "Mars"; article := a; loading := false; error := None;
     copySuccess := "" |}.

(** The statuses of the example responses. *)
Definition status_200 : @number ExampleNumber := Some 200.
Definition status_429 : @number ExampleNumber := Some 429.

(** An engine that words every [TypeError] the same. *)
Definition plain_engine : @type_error ExampleNumber -> string :=
  fun _ => "TypeError".


(** Two worlds a call can run in: the page showing [mars] with nothing
    asked of the browser yet, and the page after a request and a copy. *)
Definition quiet : @world ExampleNumber :=
  {| component := showing mars; performed := [] |}.

Definition busy : @world ExampleNumber :=
  {| component := setCopySuccess "Article copied to clipboard!" (showing mars);
     performed := [Request PreventDefault; Request (PostTopic "Mars");
                   Clipboard (WriteText "# Mars"); Clipboard (SetTimeout 3000)] |}.

(** An article whose title is an object. *)
Definition object_title : example :=
  VObj [("title", VObj [("a", VStr "1")]); ("sections", VArr [])].

(** * Properties *)

(** ** Strings *)

Lemma append_assoc (a b c : string) : (a ++ b) ++ c = a ++ b ++ c.
Proof. induction a as [|x a IH]; simpl; [reflexivity | now rewrite IH]. Qed.

Lemma append_nil_r (s : string) : s ++ "" = s.
Proof. induction s as [|x s IH]; simpl; [reflexivity | now rewrite IH]. Qed.

Lemma append_length (a b : string) :
  String.length (a ++ b) = String.length a + String.length b.
Proof. induction a as [|x a IH]; simpl; [reflexivity | now rewrite IH]. Qed.

Lemma is_prefix_spec (p s : string) : is_prefix p s = true <-> starts_with p s.
Proof.
  unfold starts_with. revert s.
  induction p as [|a p IH]; intros s; simpl.
  - split; [intros _; now exists s | reflexivity].
  - destruct s as [|b s].
    + split; [discriminate | intros [rest E]; discriminate].
    + rewrite andb_true_iff, Ascii.eqb_eq, IH. split.
      * intros [-> [rest ->]]. now exists rest.
      * intros [rest E]. injection E as -> ->. split; [reflexivity | now exists rest].
Qed.

Lemma occurs_spec (x s : string) : occurs x s = true <-> contains x s.
Proof.
  unfold contains.
  induction s as [|c s IH]; simpl; rewrite orb_true_iff, is_prefix_spec.
  - split.
    + intros [[rest E] | F]; [| discriminate]. exists "", rest. exact E.
    + intros [pre [post E]]. left. destruct pre; [now exists post | discriminate].
  - rewrite IH. split.
    + intros [[rest E] | [pre [post E]]].
      * exists "", rest. exact E.
      * exists (String c pre), post. simpl. now rewrite E.
    + intros [pre [post E]]. destruct pre as [|d pre]; simpl in E.
      * left. now exists post.
      * right. injection E as _ E. now exists pre, post.
Qed.

Lemma cat_app (l1 l2 : list string) : cat (l1 ++ l2) = cat l1 ++ cat l2.
Proof.
  induction l1 as [|s l1 IH]; simpl; [reflexivity |].
  now rewrite IH, append_assoc.
Qed.

Lemma string_map_append (f : ascii -> ascii) (a b : string) :
  string_map f (a ++ b) = string_map f a ++ string_map f b.
Proof. induction a as [|x a IH]; simpl; [reflexivity | now rewrite IH]. Qed.

Lemma string_map_length (f : ascii -> ascii) (s : string) :
  String.length (string_map f s) = String.length s.
Proof. induction s as [|x s IH]; simpl; [reflexivity | now rewrite IH]. Qed.

Lemma string_map_map (f g : ascii -> ascii) (s : string) :
  string_map f (string_map g s) = string_map (fun c => f (g c)) s.
Proof. induction s as [|x s IH]; simpl; [reflexivity | now rewrite IH]. Qed.

Lemma string_map_ext (f g : ascii -> ascii) (s : string) :
  (forall c, f c = g c) -> string_map f s = string_map g s.
Proof. intros E. induction s as [|x s IH]; simpl; [reflexivity | now rewrite E, IH]. Qed.

Section Properties.
Context `{JsNumber}.

(** ** The callbacks only append *)


Lemma for_each_appends (cb : value -> string -> result string) :
  appends cb -> forall l md, for_each l cb md = (s <- for_each l cb "" ;; Ok (md ++ s)).
Proof.
  intros Hcb l. induction l as [|x l IH]; intros md; simpl.
  - now rewrite append_nil_r.
  - rewrite (Hcb x md). destruct (cb x "") as [s|]; simpl; [| reflexivity].
    rewrite (IH (md ++ s)), (IH s).
    destruct (for_each l cb "") as [r|]; simpl; [| reflexivity].
    now rewrite append_assoc.
Qed.

Lemma forEach_appends (cb : value -> string -> result string) :
  appends cb -> forall xs md, forEach xs cb md = (s <- forEach xs cb "" ;; Ok (md ++ s)).
Proof.
  intros Hcb xs md. destruct xs; simpl; try reflexivity.
  now apply for_each_appends.
Qed.

Lemma block_step_appends : appends block_step.
Proof.
  intros b md. unfold block_step.
  destruct (get b "type") as [type|]; cbn [bind]; [| reflexivity].
  destruct (strict_eq type "text").
  - destruct (get b "value") as [v|]; cbn [bind]; [| reflexivity].
    destruct (to_string v); reflexivity.
  - destruct (strict_eq type "image"); [| cbn [bind]; now rewrite append_nil_r].
    destruct (get b "url") as [url|]; cbn [bind]; [| reflexivity].
    destruct (truthy url); [| cbn [bind]; now rewrite append_nil_r].
    destruct (get b "caption") as [caption|]; cbn [bind]; [| reflexivity].
    destruct (to_string (js_or caption (VStr "Image"))); cbn [bind]; [| reflexivity].
    destruct (to_string url); reflexivity.
Qed.

Lemma section_step_appends : appends section_step.
Proof.
  intros s md. unfold section_step.
  destruct (get s "heading") as [heading|]; cbn [bind]; [| reflexivity].
  destruct (truthy heading).
  - destruct (to_string heading) as [h|]; cbn [bind]; [| reflexivity].
    destruct (get s "content") as [content|]; cbn [bind]; [| reflexivity].
    rewrite (forEach_appends _ block_step_appends content (md ++ "### " ++ h ++ nl2)).
    rewrite (forEach_appends _ block_step_appends content ("" ++ "### " ++ h ++ nl2)).
    destruct (forEach content block_step "") as [r|]; cbn [bind]; [| reflexivity].
    now rewrite append_assoc.
  - cbn [bind]. destruct (get s "content") as [content|]; cbn [bind]; [| reflexivity].
    apply (forEach_appends _ block_step_appends).
Qed.

Lemma faq_step_appends : appends faq_step.
Proof.
  intros e md. unfold faq_step.
  destruct (get e "question") as [q|]; cbn [bind]; [| reflexivity].
  destruct (to_string q) as [qs|]; cbn [bind]; [| reflexivity].
  destruct (get e "answer") as [a|]; cbn [bind]; [| reflexivity].
  destruct (to_string a) as [ans|]; cbn [bind]; [| reflexivity].
  now rewrite !append_assoc.
Qed.

(** ** On a well-formed article the loops build [render] *)

Lemma opt_field_line (pre md : string) (v : value) :
  opt_string v = true ->
  (if truthy v then s <- to_string v ;; Ok (md ++ pre ++ s ++ nl2) else Ok md)
  = Ok (md ++ opt_line pre v).
Proof.
  unfold opt_line. destruct v; try discriminate; intros _; cbn [truthy].
  - now rewrite append_nil_r.
  - now rewrite append_nil_r.
  - destruct (negb (s =? "")); [reflexivity | now rewrite append_nil_r].
Qed.

Lemma or_default_text (v : value) (d : string) :
  opt_string v = true ->
  to_string (js_or v (VStr d)) = Ok (if truthy v then str_of v else d).
Proof.
  unfold js_or. destruct v; try discriminate; intros _; cbn [truthy]; try reflexivity.
  destruct (negb (s =? "")); reflexivity.
Qed.

Lemma for_each_valid (cb : value -> string -> result string)
    (f : value -> string) (ok : value -> bool) :
  (forall x md, ok x = true -> cb x md = Ok (md ++ f x)) ->
  forall l md, forallb ok l = true -> for_each l cb md = Ok (md ++ cat (map f l)).
Proof.
  intros Hcb l. induction l as [|x l IH]; intros md Hl; simpl in *.
  - now rewrite append_nil_r.
  - apply andb_true_iff in Hl as [Hx Hl].
    rewrite (Hcb x md Hx). cbn [bind]. rewrite (IH _ Hl).
    now rewrite append_assoc.
Qed.

Lemma block_step_valid (b : value) (md : string) :
  valid_block b = true -> block_step b md = Ok (md ++ block_text b).
Proof.
  destruct b as [| | | | |l|o]; try discriminate.
  unfold valid_block, block_step, block_text, image_line, caption_text,
    is_text, is_image, prop, get.
  cbn [bind].
  destruct (strict_eq (field "type" o) "text").
  - destruct (field "value" o); try discriminate. reflexivity.
  - destruct (strict_eq (field "type" o) "image"); cbn [andb].
    + rewrite andb_true_iff. intros [Hu Hc].
      destruct (truthy (field "url" o)) eqn:Tu.
      * rewrite (or_default_text _ "Image" Hc). cbn [bind].
        destruct (field "url" o); try discriminate; cbn [to_string bind str_of].
        now rewrite !append_assoc.
      * now rewrite append_nil_r.
    + intros _. now rewrite append_nil_r.
Qed.

Lemma section_step_valid (s : value) (md : string) :
  valid_section s = true -> section_step s md = Ok (md ++ section_text s).
Proof.
  destruct s as [| | | | |l|o]; try discriminate.
  unfold valid_section, section_step, section_text, blocks_of, prop, get.
  cbn [bind]. rewrite andb_true_iff. intros [Hh Hc].
  rewrite (opt_field_line "### " md _ Hh). cbn [bind].
  destruct (field "content" o) as [| | | | |blocks|]; try discriminate.
  cbn [forEach elements].
  rewrite (for_each_valid block_step block_text valid_block
             (fun b m => block_step_valid b m) blocks _ Hc).
  now rewrite append_assoc.
Qed.

Lemma faq_step_valid (e : value) (md : string) :
  valid_faq e = true -> faq_step e md = Ok (md ++ faq_entry_text e).
Proof.
  destruct e as [| | | | |l|o]; try discriminate.
  unfold valid_faq, faq_step, faq_entry_text, prop, get.
  cbn [bind]. rewrite andb_true_iff. intros [Hq Ha].
  destruct (field "question" o) as [| | | |q| |]; try discriminate.
  destruct (field "answer" o) as [| | | |a| |]; try discriminate.
  cbn [to_string bind str_of]. now rewrite !append_assoc.
Qed.

(** The FAQ part of the run, on a well-formed [faq_section]. *)
Lemma faq_part_valid (fs : value) (md : string) :
  match fs with
  | VUndef | VNull => True
  | VArr entries => forallb valid_faq entries = true
  | _ => False
  end ->
  (if truthy fs then
     nonempty <- length_gt_zero fs ;;
     if (nonempty : bool)
     then forEach fs faq_step (md ++ "## Frequently Asked Questions" ++ nl2)
     else Ok md
   else Ok md)
  = Ok (md ++ faq_text (elements fs)).
Proof.
  destruct fs as [| | | | |entries|]; try contradiction; intros Hv;
    cbn [truthy elements faq_text].
  - now rewrite append_nil_r.
  - now rewrite append_nil_r.
  - cbn [length_gt_zero bind forEach].
    destruct entries as [|e entries]; [cbn; now rewrite append_nil_r |].
    cbn [List.length Nat.ltb Nat.leb].
    rewrite (for_each_valid faq_step faq_entry_text valid_faq
               (fun x m => faq_step_valid x m) _ _ Hv).
    unfold faq_heading. now rewrite !append_assoc.
Qed.

Lemma formatArticleAsMarkdown_valid (a : value) :
  valid_article a = true -> formatArticleAsMarkdown a = Ok (render a).
Proof.
  destruct a as [| | | | |l|o]; try discriminate.
  unfold valid_article. rewrite !andb_true_iff.
  intros [[[[[Ht Hs] Hi] Hc] Hsec] Hfaq].
  unfold formatArticleAsMarkdown, render, front_text, title_text,
    conclusion_text, sections_of, faq_of, prop, get.
  cbn [truthy negb bind].
  rewrite (or_default_text _ "Untitled Article" Ht). cbn [bind].
  rewrite (opt_field_line "## " _ _ Hs). cbn [bind].
  rewrite (opt_field_line "" _ _ Hi). cbn [bind].
  destruct (field "sections" o) as [| | | | |sections|]; try discriminate.
  cbn [forEach elements].
  rewrite (for_each_valid section_step section_text valid_section
             (fun x m => section_step_valid x m) _ _ Hsec).
  cbn [bind].
  rewrite faq_part_valid.
  2:{ destruct (field "faq_section" o); try discriminate; auto. }
  cbn [bind].
  destruct (field "conclusion" o) as [| | | |c| |]; try discriminate;
    cbn [truthy to_string bind str_of].
  - now rewrite append_nil_r, !append_assoc.
  - now rewrite append_nil_r, !append_assoc.
  - destruct (negb (c =? "")); cbn [bind].
    + now rewrite !append_assoc.
    + now rewrite append_nil_r, !append_assoc.
Qed.

(** ** Reading a property *)

Lemma get_prop (a : value) (k : string) :
  absent a = false -> get a k = Ok (prop k a).
Proof. destruct a; try discriminate; reflexivity. Qed.

Lemma truthy_not_absent (a : value) : truthy a = true -> absent a = false.
Proof. destruct a; try discriminate; reflexivity. Qed.

Lemma valid_article_truthy (a : value) : valid_article a = true -> truthy a = true.
Proof. destruct a; try discriminate; reflexivity. Qed.

(** ** Every emitted element ends with a blank line *)


Lemma blank_ended_nil : blank_ended "".
Proof. now left. Qed.

Lemma blank_ended_line (s : string) : blank_ended (s ++ nl2).
Proof. right. now exists s. Qed.

Lemma blank_ended_app (a b : string) :
  blank_ended a -> blank_ended b -> blank_ended (a ++ b).
Proof.
  intros Ha [-> | [f ->]].
  - now rewrite append_nil_r.
  - right. exists (a ++ f). now rewrite append_assoc.
Qed.

Lemma shaped_app (md s : string) : shaped md -> blank_ended s -> shaped (md ++ s).
Proof.
  intros [[r ->] He] Hs. split.
  - exists (r ++ s). now rewrite append_assoc.
  - destruct Hs as [-> | [f ->]].
    + now rewrite append_nil_r.
    + exists (("# " ++ r) ++ f). now rewrite !append_assoc.
Qed.

Lemma shaped_nonempty (md : string) : shaped md -> md <> "".
Proof. intros [[r ->] _]. discriminate. Qed.

Lemma block_step_blank (b : value) (s : string) :
  block_step b "" = Ok s -> blank_ended s.
Proof.
  unfold block_step.
  destruct (get b "type") as [type|]; cbn [bind]; [| discriminate].
  destruct (strict_eq type "text").
  - destruct (get b "value") as [v|]; cbn [bind]; [| discriminate].
    destruct (to_string v); cbn [bind]; [| discriminate].
    intros [= <-]. apply blank_ended_line.
  - destruct (strict_eq type "image"); [| intros [= <-]; apply blank_ended_nil].
    destruct (get b "url") as [url|]; cbn [bind]; [| discriminate].
    destruct (truthy url); [| intros [= <-]; apply blank_ended_nil].
    destruct (get b "caption") as [caption|]; cbn [bind]; [| discriminate].
    destruct (to_string (js_or caption (VStr "Image"))) as [c|]; cbn [bind]; [| discriminate].
    destruct (to_string url) as [u|]; cbn [bind]; [| discriminate].
    intros [= <-]. right. exists ("![" ++ c ++ "](" ++ u ++ ")").
    now rewrite !append_assoc.
Qed.

Lemma for_each_blank (cb : value -> string -> result string) :
  appends cb ->
  (forall x s, cb x "" = Ok s -> blank_ended s) ->
  forall l s, for_each l cb "" = Ok s -> blank_ended s.
Proof.
  intros Hcb Hb l. induction l as [|x l IH]; intros s; cbn [for_each].
  - intros [= <-]. apply blank_ended_nil.
  - destruct (cb x "") as [s1|] eqn:E1; cbn [bind]; [| discriminate].
    rewrite (for_each_appends cb Hcb l s1).
    destruct (for_each l cb "") as [s2|] eqn:E2; cbn [bind]; [| discriminate].
    intros [= <-]. apply blank_ended_app; [now apply (Hb x) | now apply IH].
Qed.

Lemma forEach_blank (cb : value -> string -> result string) :
  appends cb ->
  (forall x s, cb x "" = Ok s -> blank_ended s) ->
  forall xs s, forEach xs cb "" = Ok s -> blank_ended s.
Proof.
  intros Hcb Hb xs s. destruct xs; try discriminate.
  now apply for_each_blank.
Qed.

Lemma section_step_blank (x : value) (s : string) :
  section_step x "" = Ok s -> blank_ended s.
Proof.
  unfold section_step.
  destruct (get x "heading") as [heading|]; cbn [bind]; [| discriminate].
  destruct (truthy heading).
  - destruct (to_string heading) as [h|]; cbn [bind]; [| discriminate].
    destruct (get x "content") as [content|]; cbn [bind]; [| discriminate].
    rewrite (forEach_appends _ block_step_appends).
    destruct (forEach content block_step "") as [r|] eqn:E; cbn [bind]; [| discriminate].
    intros [= <-]. apply (blank_ended_app ("### " ++ h ++ nl2) r).
    + apply (blank_ended_line ("### " ++ h)).
    + apply (forEach_blank _ block_step_appends block_step_blank _ _ E).
  - cbn [bind]. destruct (get x "content") as [content|]; cbn [bind]; [| discriminate].
    apply (forEach_blank _ block_step_appends block_step_blank).
Qed.

Lemma faq_step_blank (x : value) (s : string) :
  faq_step x "" = Ok s -> blank_ended s.
Proof.
  unfold faq_step.
  destruct (get x "question") as [q|]; cbn [bind]; [| discriminate].
  destruct (to_string q) as [qs|]; cbn [bind]; [| discriminate].
  destruct (get x "answer") as [a|]; cbn [bind]; [| discriminate].
  destruct (to_string a) as [ans|]; cbn [bind]; [| discriminate].
  intros [= <-]. right. exists ("* **Q:** " ++ qs ++ nl ++ "  **A:** " ++ ans).
  now rewrite !append_assoc.
Qed.

(** An optional line keeps the shape. *)
Lemma opt_stage_shaped (pre md md' : string) (v : value) :
  shaped md ->
  (if truthy v then s <- to_string v ;; Ok (md ++ pre ++ s ++ nl2) else Ok md) = Ok md' ->
  shaped md'.
Proof.
  intros Hmd. destruct (truthy v).
  - destruct (to_string v) as [s|]; cbn [bind]; [| discriminate].
    intros [= <-]. apply shaped_app; [assumption |].
    apply (blank_ended_line (pre ++ s)) || (rewrite <- append_assoc; apply blank_ended_line).
  - now intros [= <-].
Qed.

Lemma forEach_stage_shaped (cb : value -> string -> result string) :
  appends cb ->
  (forall x s, cb x "" = Ok s -> blank_ended s) ->
  forall xs md md', shaped md -> forEach xs cb md = Ok md' -> shaped md'.
Proof.
  intros Hcb Hb xs md md' Hmd. rewrite (forEach_appends cb Hcb).
  destruct (forEach xs cb "") as [s|] eqn:E; cbn [bind]; [| discriminate].
  intros [= <-]. apply shaped_app; [assumption |].
  now apply (forEach_blank cb Hcb Hb xs).
Qed.

(** Whenever a truthy input makes [formatArticleAsMarkdown] return, the
    string starts with the title mark and ends with a blank line. *)
Lemma formatArticleAsMarkdown_shaped (a : value) (out : string) :
  truthy a = true -> formatArticleAsMarkdown a = Ok out -> shaped out.
Proof.
  intros Ht. unfold formatArticleAsMarkdown. rewrite Ht. cbn [negb].
  destruct (get a "title") as [title|]; cbn [bind]; [| discriminate].
  destruct (to_string (js_or title (VStr "Untitled Article"))) as [t|];
    cbn [bind]; [| discriminate].
  assert (S0 : shaped ("# " ++ t ++ nl2)).
  { split; [now exists (t ++ nl2) | exists ("# " ++ t); now rewrite append_assoc]. }
  destruct (get a "subtitle") as [subtitle|]; cbn [bind]; [| discriminate].
  match goal with |- bind ?stage _ = _ -> _ => destruct stage as [md1|] eqn:E1 end;
    cbn [bind]; [| discriminate].
  apply (opt_stage_shaped "## ") in E1; [| exact S0].
  destruct (get a "introduction") as [introduction|]; cbn [bind]; [| discriminate].
  match goal with |- bind ?stage _ = _ -> _ => destruct stage as [md2|] eqn:E2 end;
    cbn [bind]; [| discriminate].
  apply (opt_stage_shaped "") in E2; [| exact E1].
  destruct (get a "sections") as [sections|]; cbn [bind]; [| discriminate].
  destruct (forEach sections section_step md2) as [md3|] eqn:E3; cbn [bind]; [| discriminate].
  apply (forEach_stage_shaped _ section_step_appends section_step_blank) in E3; [| exact E2].
  destruct (get a "faq_section") as [faq_section|]; cbn [bind]; [| discriminate].
  match goal with |- bind ?stage _ = _ -> _ => destruct stage as [md4|] eqn:E4 end;
    cbn [bind]; [| discriminate].
  assert (S4 : shaped md4).
  { destruct (truthy faq_section); [| now injection E4 as <-].
    destruct (length_gt_zero faq_section) as [[|]|]; cbn [bind] in E4;
      [| now injection E4 as <- | discriminate].
    apply (forEach_stage_shaped _ faq_step_appends faq_step_blank) in E4; [exact E4 |].
    apply shaped_app; [exact E3 | apply (blank_ended_line "## Frequently Asked Questions")]. }
  destruct (get a "conclusion") as [conclusion|]; cbn [bind]; [| discriminate].
  destruct (truthy conclusion); [| now intros [= <-]].
  destruct (to_string conclusion) as [c|]; cbn [bind]; [| discriminate].
  intros [= <-]. apply shaped_app; [| apply blank_ended_line].
  apply shaped_app; [exact S4 | apply (blank_ended_line "## Conclusion")].
Qed.

(** ** The guard, the faults and the shape of the output *)

(** C1 (amended).  For a null article input, as for every other falsy
    input, [formatArticleAsMarkdown] returns the empty string: the guard
    [if (!articleData) return ''] returns normally and no fault is raised. *)
Theorem formatArticleAsMarkdown_falsy (a : value) :
  truthy a = false -> formatArticleAsMarkdown a = Ok "".
Proof. intros Ha. unfold formatArticleAsMarkdown. now rewrite Ha. Qed.

(** C2 (amended).  For every truthy input (every object, in particular)
    whose [sections] is absent, [formatArticleAsMarkdown] throws; for every
    well-formed article record (optional fields absent or strings,
    [sections] a sequence of section objects each with a [content] sequence
    of block objects, [faq_section] absent or a sequence of entries) it
    returns a string. *)
Theorem formatArticleAsMarkdown_faults_or_returns (a : value) :
  (truthy a = true -> absent (prop "sections" a) = true ->
   formatArticleAsMarkdown a = Throw) /\
  (valid_article a = true -> exists out, formatArticleAsMarkdown a = Ok out).
Proof.
  split.
  - intros Ht Hs. unfold formatArticleAsMarkdown. rewrite Ht. cbn [negb].
    rewrite !(get_prop a _ (truthy_not_absent a Ht)). cbn [bind].
    destruct (to_string (js_or (prop "title" a) (VStr "Untitled Article")));
      cbn [bind]; [| reflexivity].
    match goal with |- bind ?stage _ = _ => destruct stage end;
      cbn [bind]; [| reflexivity].
    match goal with |- bind ?stage _ = _ => destruct stage end;
      cbn [bind]; [| reflexivity].
    destruct (prop "sections" a); try discriminate Hs; reflexivity.
  - intros Hv. exists (render a). now apply formatArticleAsMarkdown_valid.
Qed.

(** C3.  For every well-formed article whose [title] is absent or the empty
    string, the output begins with the line [# Untitled Article] followed
    by a blank line; when the title is a non-empty string [t], it begins
    with [# t] followed by a blank line. *)
Theorem title_line (a : value) :
  valid_article a = true ->
  exists out, formatArticleAsMarkdown a = Ok out /\
    (absent (prop "title" a) = true \/ prop "title" a = VStr "" ->
     starts_with ("# Untitled Article" ++ nl2) out) /\
    (forall t, prop "title" a = VStr t -> t <> "" ->
     starts_with ("# " ++ t ++ nl2) out).
Proof.
  intros Hv. exists (render a). split; [now apply formatArticleAsMarkdown_valid |].
  unfold render, front_text, title_text. split.
  - intros Ht.
    assert (E : truthy (prop "title" a) = false).
    { destruct Ht as [Ht | ->]; [| reflexivity].
      destruct (prop "title" a); try discriminate; reflexivity. }
    rewrite E. eexists. rewrite !append_assoc. reflexivity.
  - intros t Et Hne. rewrite Et. cbn [truthy str_of].
    destruct (String.eqb_spec t ""); [contradiction |]. cbn [negb].
    eexists. rewrite !append_assoc. reflexivity.
Qed.

(** C10.  For every input that has a [sections] sequence, the output of
    [formatArticleAsMarkdown] is non-empty, begins with the two characters
    [# ] and ends with the blank line [\n\n]; a well-formed article always
    has an output. *)
Theorem output_shape (a : value) :
  (valid_article a = true -> exists out, formatArticleAsMarkdown a = Ok out) /\
  (forall sections out,
     prop "sections" a = VArr sections ->
     formatArticleAsMarkdown a = Ok out ->
     out <> "" /\ starts_with "# " out /\ ends_with nl2 out).
Proof.
  split.
  - intros Hv. exists (render a). now apply formatArticleAsMarkdown_valid.
  - intros sections out Hs Hout.
    assert (Ht : truthy a = true) by (destruct a; try discriminate; reflexivity).
    pose proof (formatArticleAsMarkdown_shaped a out Ht Hout) as Hshape.
    split; [now apply shaped_nonempty | exact Hshape].
Qed.

(** ** Where a block lands in the output *)

Lemma opt_line_blank (pre : string) (v : value) : blank_ended (opt_line pre v).
Proof.
  unfold opt_line. destruct (truthy v); [| apply blank_ended_nil].
  rewrite <- append_assoc. apply blank_ended_line.
Qed.

Lemma block_text_blank (b : value) : blank_ended (block_text b).
Proof.
  unfold block_text. destruct (is_text b); [apply blank_ended_line |].
  destruct (is_image b && truthy (prop "url" b));
    [apply blank_ended_line | apply blank_ended_nil].
Qed.

Lemma cat_map_blank (f : value -> string) (l : list value) :
  (forall x, blank_ended (f x)) -> blank_ended (cat (map f l)).
Proof.
  intros Hf. induction l as [|x l IH]; cbn [map cat].
  - apply blank_ended_nil.
  - now apply blank_ended_app.
Qed.

Lemma section_text_blank (x : value) : blank_ended (section_text x).
Proof.
  unfold section_text. apply blank_ended_app.
  - apply opt_line_blank.
  - apply cat_map_blank, block_text_blank.
Qed.

Lemma cat_map_split (f : value -> string) (l1 l2 : list value) (x : value) :
  cat (map f (l1 ++ x :: l2)) = cat (map f l1) ++ f x ++ cat (map f l2).
Proof. now rewrite map_app, cat_app. Qed.

(** The text of a block of the article sits in the rendering, after a
    prefix that starts with the title mark and ends with a blank line. *)
Lemma render_split (a b : value) :
  In b (all_blocks a) ->
  exists pre post, render a = pre ++ block_text b ++ post /\ shaped pre.
Proof.
  unfold all_blocks. rewrite in_flat_map. intros [x [Hx Hb]].
  apply in_split in Hx as [ss1 [ss2 Hss]].
  apply in_split in Hb as [bs1 [bs2 Hbs]].
  exists ((("# " ++ title_text a ++ nl2) ++
           opt_line "## " (prop "subtitle" a) ++
           opt_line "" (prop "introduction" a) ++
           cat (map section_text ss1)) ++
          opt_line "### " (prop "heading" x) ++ cat (map block_text bs1)).
  exists (cat (map block_text bs2) ++ cat (map section_text ss2) ++
          faq_text (faq_of a) ++ conclusion_text a).
  split.
  - unfold render, front_text. rewrite Hss, cat_map_split.
    unfold section_text at 2. rewrite Hbs, cat_map_split.
    now rewrite !append_assoc.
  - apply shaped_app; [apply shaped_app |].
    + split; [now exists (title_text a ++ nl2) |].
      exists ("# " ++ title_text a). now rewrite append_assoc.
    + repeat apply blank_ended_app; try apply opt_line_blank.
      apply cat_map_blank, section_text_blank.
    + apply blank_ended_app; [apply opt_line_blank |].
      apply cat_map_blank, block_text_blank.
Qed.

(** A line emitted after a shaped prefix is a line of the output. *)
Lemma line_after_shaped (pre line post : string) :
  shaped pre -> contains (nl ++ line ++ nl) (pre ++ (line ++ nl2) ++ post).
Proof.
  intros [_ [f ->]]. exists (f ++ nl), (nl ++ post).
  unfold nl2. now rewrite !append_assoc.
Qed.

(** ** Text blocks, in order *)

Lemma emitted_in_order_pre (xs : list string) (p s : string) :
  emitted_in_order xs s -> emitted_in_order xs (p ++ s).
Proof.
  destruct xs as [|x xs]; [trivial |].
  intros [pre [rest [-> Hr]]]. exists (p ++ pre), rest.
  split; [symmetry; apply append_assoc | exact Hr].
Qed.

Lemma emitted_in_order_app (xs ys : list string) (s1 s2 : string) :
  emitted_in_order xs s1 -> emitted_in_order ys s2 ->
  emitted_in_order (xs ++ ys) (s1 ++ s2).
Proof.
  revert s1. induction xs as [|x xs IH]; intros s1 H1 H2; cbn [app].
  - now apply emitted_in_order_pre.
  - destruct H1 as [pre [rest [-> Hr]]]. exists pre, (rest ++ s2).
    split; [now rewrite (append_assoc pre), (append_assoc (x ++ nl2)) | now apply IH].
Qed.

Lemma emitted_in_order_post (xs : list string) (s q : string) :
  emitted_in_order xs s -> emitted_in_order xs (s ++ q).
Proof.
  intros Hs. rewrite <- (app_nil_r xs).
  now apply emitted_in_order_app.
Qed.

Lemma emitted_in_order_contains (xs : list string) (out x : string) :
  emitted_in_order xs out -> In x xs -> contains (x ++ nl2) out.
Proof.
  revert out. induction xs as [|y xs IH]; intros out Ho Hx; [contradiction |].
  destruct Ho as [pre [rest [-> Hr]]]. destruct Hx as [-> | Hx].
  - now exists pre, rest.
  - destruct (IH rest Hr Hx) as [p [q ->]].
    exists (pre ++ (y ++ nl2) ++ p), q. now rewrite !append_assoc.
Qed.

Lemma blocks_emitted (blocks : list value) :
  emitted_in_order (map text_value (filter is_text blocks))
    (cat (map block_text blocks)).
Proof.
  induction blocks as [|b blocks IH]; cbn [filter map cat]; [exact I |].
  unfold block_text at 1. destruct (is_text b); cbn [map].
  - exists "", (cat (map block_text blocks)). split; [reflexivity | exact IH].
  - now apply emitted_in_order_pre.
Qed.

Lemma sections_emitted (sections : list value) :
  emitted_in_order (map text_value (filter is_text (flat_map blocks_of sections)))
    (cat (map section_text sections)).
Proof.
  induction sections as [|x sections IH]; cbn [flat_map map cat]; [exact I |].
  rewrite filter_app, map_app. apply emitted_in_order_app; [| exact IH].
  unfold section_text. apply emitted_in_order_pre, blocks_emitted.
Qed.

(** C4.  For every well-formed article the values of its text blocks, each
    followed by a blank line, occur in the output in the order of the
    sections and, within a section, of the blocks; in particular the exact
    value of every text block is in the output, followed by a blank line. *)
Theorem text_blocks_in_order (a : value) :
  valid_article a = true ->
  exists out, formatArticleAsMarkdown a = Ok out /\
    emitted_in_order (text_values a) out /\
    (forall b v, In b (all_blocks a) -> is_text b = true ->
       prop "value" b = VStr v -> contains (v ++ nl2) out).
Proof.
  intros Hv. exists (render a). split; [now apply formatArticleAsMarkdown_valid |].
  assert (Ho : emitted_in_order (text_values a) (render a)).
  { unfold render, front_text, text_values, all_blocks.
    apply emitted_in_order_post.
    do 5 apply emitted_in_order_pre.
    apply sections_emitted. }
  split; [exact Ho |].
  intros b v Hb Ht Ev. apply (emitted_in_order_contains _ _ _ Ho).
  unfold text_values. apply in_map_iff. exists b. unfold text_value. rewrite Ev.
  split; [reflexivity |].
  apply filter_In. now split.
Qed.

(** C5 (amended).  For every well-formed article and every image block
    whose [url] is a non-empty string, the output contains the line
    [![caption](url)], where the caption is the block's [caption] when
    that is a non-empty string, and the word [Image] when the caption is
    absent or empty. *)
Theorem image_blocks_emitted (a : value) :
  valid_article a = true ->
  exists out, formatArticleAsMarkdown a = Ok out /\
    forall b u, In b (all_blocks a) -> is_image b = true ->
      prop "url" b = VStr u -> u <> "" ->
      (forall c, prop "caption" b = VStr c -> c <> "" ->
         contains (nl ++ ("![" ++ c ++ "](" ++ u ++ ")") ++ nl) out) /\
      (absent (prop "caption" b) = true \/ prop "caption" b = VStr "" ->
         contains (nl ++ ("![Image](" ++ u ++ ")") ++ nl) out).
Proof.
  intros Hv. exists (render a). split; [now apply formatArticleAsMarkdown_valid |].
  intros b u Hb Hi Eu Hu.
  destruct (render_split a b Hb) as [pre [post [-> Hpre]]].
  assert (Et : is_text b = false).
  { unfold is_image, is_text in *. destruct (prop "type" b); try discriminate.
    cbn [strict_eq] in *. apply String.eqb_eq in Hi as ->. reflexivity. }
  assert (Tu : truthy (prop "url" b) = true).
  { rewrite Eu. cbn [truthy]. now destruct (String.eqb_spec u ""). }
  unfold block_text. rewrite Et, Hi, Tu. cbn [andb].
  unfold image_line, caption_text. rewrite Eu. cbn [str_of]. split.
  - intros c Ec Hc. rewrite Ec. cbn [truthy str_of].
    destruct (String.eqb_spec c ""); [contradiction |]. cbn [negb].
    now apply line_after_shaped.
  - intros Hc.
    assert (Tc : truthy (prop "caption" b) = false).
    { destruct Hc as [Hc | ->]; [| reflexivity].
      destruct (prop "caption" b); try discriminate; reflexivity. }
    rewrite Tc. now apply line_after_shaped.
Qed.

(** ** Blocks that emit nothing *)

Lemma lookup_update_same (k : string) (v : value) (o : list (string * value)) :
  lookup k (update k v o) = Some v.
Proof.
  induction o as [|[k0 v0] o IH]; cbn [update lookup].
  - now rewrite String.eqb_refl.
  - destruct (String.eqb k k0) eqn:E; cbn [lookup].
    + now rewrite String.eqb_refl.
    + now rewrite E.
Qed.

Lemma lookup_update_other (k k' : string) (v : value) (o : list (string * value)) :
  String.eqb k' k = false -> lookup k' (update k v o) = lookup k' o.
Proof.
  intros Hk. induction o as [|[k0 v0] o IH]; cbn [update lookup].
  - now rewrite Hk.
  - destruct (String.eqb k k0) eqn:E; cbn [lookup].
    + apply String.eqb_eq in E as <-. now rewrite Hk.
    + now rewrite IH.
Qed.

Lemma field_update_same (k : string) (v : value) (o : list (string * value)) :
  field k (update k v o) = v.
Proof. unfold field. now rewrite lookup_update_same. Qed.

Lemma field_update_other (k k' : string) (v : value) (o : list (string * value)) :
  String.eqb k' k = false -> field k' (update k v o) = field k' o.
Proof. intros Hk. unfold field. now rewrite lookup_update_other. Qed.

Lemma inert_step (b : value) (md : string) :
  inert b = true -> block_step b md = Ok md.
Proof.
  destruct b as [| | | | |l|o]; try discriminate.
  unfold inert, block_step, get. cbn [bind].
  destruct (strict_eq (field "type" o) "text"); [discriminate |].
  destruct (strict_eq (field "type" o) "image"); [| reflexivity].
  cbn [negb andb orb]. intros Hu.
  destruct (field "url" o); try discriminate; reflexivity.
Qed.

Lemma for_each_without_inert (blocks : list value) (md : string) :
  for_each (filter (fun b => negb (inert b)) blocks) block_step md
  = for_each blocks block_step md.
Proof.
  revert md. induction blocks as [|b blocks IH]; intros md; cbn [filter for_each].
  - reflexivity.
  - destruct (inert b) eqn:E; cbn [negb for_each].
    + rewrite (inert_step b md E). cbn [bind]. apply IH.
    + destruct (block_step b md); cbn [bind]; [apply IH | reflexivity].
Qed.

Lemma section_step_without_inert (x : value) (md : string) :
  section_step (without_inert_section x) md = section_step x md.
Proof.
  destruct x as [| | | | |l|o]; try reflexivity.
  unfold without_inert_section.
  destruct (field "content" o) as [| | | | |blocks|] eqn:Ec; try reflexivity.
  unfold section_step, get.
  rewrite field_update_other by reflexivity.
  rewrite field_update_same, Ec. cbn [bind].
  destruct (if truthy (field "heading" o) then _ else _); cbn [bind forEach];
    [apply for_each_without_inert | reflexivity].
Qed.

Lemma for_each_map (cb : value -> string -> result string) (f : value -> value) :
  (forall x md, cb (f x) md = cb x md) ->
  forall l md, for_each (map f l) cb md = for_each l cb md.
Proof.
  intros Hf l. induction l as [|x l IH]; intros md; cbn [map for_each].
  - reflexivity.
  - rewrite Hf. destruct (cb x md); cbn [bind]; [apply IH | reflexivity].
Qed.

Lemma blocks_of_without_inert (x : value) :
  blocks_of (without_inert_section x) = filter (fun b => negb (inert b)) (blocks_of x).
Proof.
  destruct x as [| | | | |l|o]; try reflexivity.
  unfold without_inert_section, blocks_of, prop.
  destruct (field "content" o) as [| | | | |blocks|] eqn:Ec; rewrite ?Ec; try reflexivity.
  now rewrite field_update_same.
Qed.

Lemma all_blocks_without_inert (a : value) :
  all_blocks (without_inert_blocks a) = filter (fun b => negb (inert b)) (all_blocks a).
Proof.
  destruct a as [| | | | |l|o]; try reflexivity.
  unfold without_inert_blocks, all_blocks, sections_of, prop.
  destruct (field "sections" o) as [| | | | |sections|] eqn:Es; rewrite ?Es; try reflexivity.
  rewrite field_update_same. cbn [elements]. clear Es.
  induction sections as [|x sections IH]; cbn [map flat_map]; [reflexivity |].
  now rewrite filter_app, IH, blocks_of_without_inert.
Qed.

(** C6.  Blocks whose type is neither ["text"] nor ["image"], and image
    blocks without [url], contribute nothing: removing them from every
    section leaves exactly the other blocks, in order, and the outcome of
    [formatArticleAsMarkdown] is the same, for every input. *)
Theorem inert_blocks_contribute_nothing (a : value) :
  all_blocks (without_inert_blocks a)
  = filter (fun b => negb (inert b)) (all_blocks a) /\
  formatArticleAsMarkdown (without_inert_blocks a) = formatArticleAsMarkdown a.
Proof.
  split; [apply all_blocks_without_inert |].
  destruct a as [| | | | |l|o]; try reflexivity.
  unfold without_inert_blocks.
  destruct (field "sections" o) as [| | | | |sections|] eqn:Es; try reflexivity.
  unfold formatArticleAsMarkdown, get. cbn [truthy negb].
  rewrite !(field_update_other "sections" "title"),
          !(field_update_other "sections" "subtitle"),
          !(field_update_other "sections" "introduction"),
          !(field_update_other "sections" "faq_section"),
          !(field_update_other "sections" "conclusion") by reflexivity.
  rewrite field_update_same, Es. cbn [bind].
  destruct (to_string _); cbn [bind]; [| reflexivity].
  do 2 (match goal with |- bind ?stage _ = bind ?stage _ => destruct stage end;
        cbn [bind]; [| reflexivity]).
  cbn [forEach].
  now rewrite (for_each_map section_step without_inert_section
                 section_step_without_inert).
Qed.

(** ** The FAQ part *)

Lemma lookup_remove_same (k : string) (o : list (string * value)) :
  lookup k (remove k o) = None.
Proof.
  induction o as [|[k0 v0] o IH]; cbn [remove lookup]; [reflexivity |].
  destruct (String.eqb k k0) eqn:E; cbn [lookup]; [exact IH | now rewrite E].
Qed.

Lemma lookup_remove_other (k k' : string) (o : list (string * value)) :
  String.eqb k' k = false -> lookup k' (remove k o) = lookup k' o.
Proof.
  intros Hk. induction o as [|[k0 v0] o IH]; cbn [remove lookup]; [reflexivity |].
  destruct (String.eqb k k0) eqn:E; cbn [lookup].
  - apply String.eqb_eq in E as <-. now rewrite Hk.
  - now rewrite IH.
Qed.

Lemma field_remove_same (k : string) (o : list (string * value)) :
  field k (remove k o) = VUndef.
Proof. unfold field. now rewrite lookup_remove_same. Qed.

Lemma field_remove_other (k k' : string) (o : list (string * value)) :
  String.eqb k' k = false -> field k' (remove k o) = field k' o.
Proof. intros Hk. unfold field. now rewrite lookup_remove_other. Qed.

Lemma without_faq_and_conclusion_valid (a : value) :
  valid_article a = true ->
  valid_article (without_faq_and_conclusion a) = true /\
  render (without_faq_and_conclusion a) = front_text a.
Proof.
  destruct a as [| | | | |l|o]; try discriminate.
  unfold valid_article, without_faq_and_conclusion. rewrite !andb_true_iff.
  intros [[[[[Ht Hs] Hi] Hc] Hsec] Hfaq].
  unfold render, front_text, title_text, conclusion_text, faq_of, sections_of, prop.
  rewrite field_remove_same.
  rewrite !(field_remove_other "conclusion") by reflexivity.
  rewrite field_remove_same.
  rewrite !(field_remove_other "faq_section") by reflexivity.
  rewrite Ht, Hs, Hi, Hsec. cbn [truthy elements faq_text opt_string absent andb orb].
  split; [repeat split | cbn [append]; now rewrite append_nil_r].
Qed.

(** C7 (amended).  For every well-formed article the output is the output
    of the same article without [faq_section] and [conclusion], followed by
    the FAQ part and then by the conclusion part.  When [faq_section] is
    absent or empty the FAQ part is empty: the function emits no FAQ
    heading.  When it has N entries the FAQ part is the heading
    [## Frequently Asked Questions] and a blank line, once, followed by
    the N entries in the order of the input, each as the line
    [* **Q:** question], the line [  **A:** answer] and a blank line. *)
Theorem faq_section_emitted (a : value) :
  valid_article a = true ->
  exists front,
    formatArticleAsMarkdown (without_faq_and_conclusion a) = Ok front /\
    (faq_of a = [] ->
     formatArticleAsMarkdown a = Ok (front ++ conclusion_text a)) /\
    (faq_of a <> [] ->
     formatArticleAsMarkdown a
     = Ok (front ++
           ("## Frequently Asked Questions" ++ nl2 ++
            cat (map (fun e => "* **Q:** " ++ str_of (prop "question" e) ++ nl ++
                               "  **A:** " ++ str_of (prop "answer" e) ++ nl2)
                     (faq_of a))) ++
           conclusion_text a)).
Proof.
  intros Hv. exists (front_text a).
  destruct (without_faq_and_conclusion_valid a Hv) as [Hv' Hr'].
  rewrite (formatArticleAsMarkdown_valid _ Hv'), Hr'.
  rewrite (formatArticleAsMarkdown_valid _ Hv). unfold render.
  split; [reflexivity |]. split.
  - intros ->. reflexivity.
  - intros Hne. destruct (faq_of a) as [|e es]; [contradiction |]. reflexivity.
Qed.

(** ** The same JSON value gives the same outcome *)


Lemma lookup_In (k : string) (o : list (string * value)) (v : value) :
  lookup k o = Some v -> In (k, v) o.
Proof.
  induction o as [|[k0 v0] o IH]; cbn [lookup]; [discriminate |].
  destruct (String.eqb_spec k k0) as [-> | _].
  - intros [= ->]. now left.
  - intros E. right. now apply IH.
Qed.

Lemma same_json_refl (v : value) : same_json v v.
Proof.
  induction v as [| | | | |l IH|o IH] using value_ind'; try constructor.
  - induction IH; constructor; assumption.
  - intros k. reflexivity.
  - intros k v1 v2 E1 E2. rewrite E1 in E2. injection E2 as <-.
    rewrite Forall_forall in IH. apply (IH (k, v1)). now apply lookup_In.
Qed.

Lemma same_json_sym (a : value) : forall b, same_json a b -> same_json b a.
Proof.
  induction a as [| | | | |l IH|o IH] using value_ind';
    intros v Hab; inversion Hab as [| | | | |l1 l2 HF|o1 o2 Hn Hs]; subst;
    try constructor.
  - clear Hab. induction HF as [|x y l l' Hxy HF IHF]; constructor.
    + inversion IH; subst. auto.
    + inversion IH; subst. auto.
  - intros k. symmetry. apply Hn.
  - intros k v2 v1 E2 E1. rewrite Forall_forall in IH.
    apply (IH (k, v1) (lookup_In _ _ _ E1)). now apply (Hs k).
Qed.

Lemma same_json_trans (a : value) :
  forall b c, same_json a b -> same_json b c -> same_json a c.
Proof.
  induction a as [| | | | |l IH|o IH] using value_ind';
    intros v w Hab Hbc; inversion Hab as [| | | | |l1 l2 HF|o1 o2 Hn Hs]; subst;
    inversion Hbc as [| | | | |l2' l3 HF'|o2' o3 Hn' Hs']; subst;
    try constructor.
  - clear Hab Hbc. revert l3 HF'.
    induction HF as [|x y l l' Hxy HF IHF]; intros l3 HF';
      inversion HF'; subst; constructor.
    + inversion IH; subst. eauto.
    + inversion IH; subst. eauto.
  - intros k. rewrite (Hn k). apply Hn'.
  - intros k v1 v3 E1 E3. rewrite Forall_forall in IH.
    destruct (lookup k o2) as [v2|] eqn:E2.
    + apply (IH (k, v1) (lookup_In _ _ _ E1) v2 v3).
      * now apply (Hs k).
      * now apply (Hs' k).
    + apply (Hn k) in E2. rewrite E2 in E1. discriminate E1.
Qed.

Lemma to_string_cons (x : value) (rest : list value) :
  to_string (VArr (x :: rest))
  = (s <- element_text x ;;
     match rest with
     | [] => Ok s
     | _ :: _ => r <- to_string (VArr rest) ;; Ok (s ++ "," ++ r)
     end).
Proof. destruct x; reflexivity. Qed.

Lemma same_json_to_string (a : value) :
  forall a', same_json a a' -> to_string a = to_string a'.
Proof.
  induction a as [| | | | |l IH|o IH] using value_ind';
    intros a' Hab; inversion Hab; subst; try reflexivity.
  - match goal with F : Forall2 same_json _ _ |- _ => rename F into HF end.
    clear Hab. induction HF as [|x y l l' Hxy HF IHF]; [reflexivity |].
    inversion IH as [|? ? Px Pl]; subst.
    rewrite !to_string_cons.
    assert (Ex : element_text x = element_text y).
    { inversion Hxy; subst; try reflexivity; cbn [element_text]; now apply Px. }
    rewrite Ex. destruct (element_text y); cbn [bind]; [| reflexivity].
    destruct HF; [reflexivity |].
    rewrite IHF; [reflexivity | assumption].
  - cbn [to_string].
    match goal with N : forall k, lookup k o = None <-> _ |- _ =>
      pose proof (N "toString") as Hn end.
    destruct (lookup "toString" o), (lookup "toString" o2); try reflexivity.
    + destruct Hn as [_ Hn]. discriminate (Hn eq_refl).
    + destruct Hn as [Hn _]. discriminate (Hn eq_refl).
Qed.

Lemma same_json_truthy (a b : value) : same_json a b -> truthy a = truthy b.
Proof. intros Hab. inversion Hab; reflexivity. Qed.

Lemma same_json_absent (a b : value) : same_json a b -> absent a = absent b.
Proof. intros Hab. inversion Hab; reflexivity. Qed.

Lemma same_json_strict_eq (a b : value) (lit : string) :
  same_json a b -> strict_eq a lit = strict_eq b lit.
Proof. intros Hab. inversion Hab; reflexivity. Qed.

Lemma same_json_prop (k : string) (a b : value) :
  same_json a b -> same_json (prop k a) (prop k b).
Proof.
  intros Hab. inversion Hab as [| | | | | |o1 o2 Hn Hs]; subst;
    cbn [prop]; try constructor.
  unfold field. specialize (Hn k). specialize (Hs k).
  destruct (lookup k o1), (lookup k o2).
  - now apply Hs.
  - destruct Hn as [_ Hn]. discriminate (Hn eq_refl).
  - destruct Hn as [Hn _]. discriminate (Hn eq_refl).
  - constructor.
Qed.

Lemma same_json_js_or (a b d : value) :
  same_json a b -> same_json (js_or a d) (js_or b d).
Proof.
  intros Hab. unfold js_or. rewrite (same_json_truthy a b Hab).
  destruct (truthy b); [assumption | apply same_json_refl].
Qed.

Lemma get_cases (a : value) (k : string) :
  get a k = if absent a then Throw else Ok (prop k a).
Proof. destruct a; reflexivity. Qed.

Lemma same_json_js_gt_zero (a b : value) :
  same_json a b -> js_gt_zero a = js_gt_zero b.
Proof.
  intros Hab. pose proof (same_json_to_string a b Hab) as Es.
  inversion Hab; subst; try reflexivity; unfold js_gt_zero; now rewrite Es.
Qed.

Lemma same_json_length_gt_zero (a b : value) :
  same_json a b -> length_gt_zero a = length_gt_zero b.
Proof.
  intros Hab. inversion Hab as [| | | | |l1 l2 HF|o1 o2 Hn Hs]; subst; try reflexivity.
  - cbn [length_gt_zero]. now rewrite (Forall2_length HF).
  - apply (same_json_js_gt_zero (prop "length" (VObj o1)) (prop "length" (VObj o2))).
    now apply same_json_prop.
Qed.


Lemma same_json_forEach (cb : value -> string -> result string) :
  respects cb ->
  forall xs ys md, same_json xs ys -> forEach xs cb md = forEach ys cb md.
Proof.
  intros Hcb xs ys md Hxy. inversion Hxy as [| | | | |l1 l2 HF|]; subst; try reflexivity.
  cbn [forEach]. clear Hxy. revert md.
  induction HF as [|x y l l' Hx HF IH]; intros md; cbn [for_each]; [reflexivity |].
  rewrite (Hcb x y md Hx). destruct (cb y md); cbn [bind]; [apply IH | reflexivity].
Qed.

Lemma block_step_respects : respects block_step.
Proof.
  intros x y md Hxy. unfold block_step. rewrite !get_cases.
  rewrite (same_json_absent x y Hxy). destruct (absent y); [reflexivity |].
  cbn [bind].
  rewrite !(same_json_strict_eq _ _ _ (same_json_prop "type" x y Hxy)).
  rewrite (same_json_to_string _ _ (same_json_prop "value" x y Hxy)).
  rewrite (same_json_truthy _ _ (same_json_prop "url" x y Hxy)).
  rewrite (same_json_to_string _ _ (same_json_prop "url" x y Hxy)).
  rewrite (same_json_to_string _ _
             (same_json_js_or _ _ (VStr "Image") (same_json_prop "caption" x y Hxy))).
  reflexivity.
Qed.

Lemma section_step_respects : respects section_step.
Proof.
  intros x y md Hxy. unfold section_step. rewrite !get_cases.
  rewrite (same_json_absent x y Hxy). destruct (absent y); [reflexivity |].
  cbn [bind].
  rewrite (same_json_truthy _ _ (same_json_prop "heading" x y Hxy)).
  rewrite (same_json_to_string _ _ (same_json_prop "heading" x y Hxy)).
  match goal with |- bind ?stage _ = bind ?stage _ => destruct stage end;
    cbn [bind]; [| reflexivity].
  apply (same_json_forEach _ block_step_respects), same_json_prop, Hxy.
Qed.

Lemma faq_step_respects : respects faq_step.
Proof.
  intros x y md Hxy. unfold faq_step. rewrite !get_cases.
  rewrite (same_json_absent x y Hxy). destruct (absent y); [reflexivity |].
  cbn [bind].
  rewrite (same_json_to_string _ _ (same_json_prop "question" x y Hxy)).
  rewrite (same_json_to_string _ _ (same_json_prop "answer" x y Hxy)).
  reflexivity.
Qed.

(** Two calls on the same JSON value, even when the two objects list their
    properties in a different order, have the same outcome, the same
    string or the same fault. *)
Lemma same_json_same_outcome (a1 a2 : value) :
  same_json a1 a2 -> formatArticleAsMarkdown a1 = formatArticleAsMarkdown a2.
Proof.
  intros Hab. unfold formatArticleAsMarkdown. rewrite !get_cases.
  rewrite (same_json_truthy a1 a2 Hab), (same_json_absent a1 a2 Hab).
  destruct (truthy a2); [| reflexivity]. cbn [negb].
  destruct (absent a2); [reflexivity |]. cbn [bind].
  rewrite (same_json_to_string _ _
             (same_json_js_or _ _ (VStr "Untitled Article")
                (same_json_prop "title" a1 a2 Hab))).
  destruct (to_string _); cbn [bind]; [| reflexivity].
  rewrite (same_json_truthy _ _ (same_json_prop "subtitle" a1 a2 Hab)).
  rewrite (same_json_to_string _ _ (same_json_prop "subtitle" a1 a2 Hab)).
  match goal with |- bind ?stage _ = bind ?stage _ => destruct stage end;
    cbn [bind]; [| reflexivity].
  rewrite (same_json_truthy _ _ (same_json_prop "introduction" a1 a2 Hab)).
  rewrite (same_json_to_string _ _ (same_json_prop "introduction" a1 a2 Hab)).
  match goal with |- bind ?stage _ = bind ?stage _ => destruct stage end;
    cbn [bind]; [| reflexivity].
  rewrite (same_json_forEach _ section_step_respects _ _ _
             (same_json_prop "sections" a1 a2 Hab)).
  destruct (forEach _ section_step _) as [md3|]; cbn [bind]; [| reflexivity].
  rewrite (same_json_truthy _ _ (same_json_prop "faq_section" a1 a2 Hab)).
  rewrite (same_json_length_gt_zero _ _ (same_json_prop "faq_section" a1 a2 Hab)).
  rewrite (same_json_truthy _ _ (same_json_prop "conclusion" a1 a2 Hab)).
  rewrite (same_json_to_string _ _ (same_json_prop "conclusion" a1 a2 Hab)).
  destruct (truthy (prop "faq_section" a2)); [| reflexivity].
  destruct (length_gt_zero (prop "faq_section" a2)) as [[|]|];
    cbn [bind]; try reflexivity.
  now rewrite (same_json_forEach _ faq_step_respects _ _ _
                 (same_json_prop "faq_section" a1 a2 Hab)).
Qed.

(** ** The call changes nothing outside itself *)

Lemma and_then_eval {S A B : Type} (r : result A) (k : A -> code S B) (s : S) :
  and_then (eval r) k s
  = match r with
    | Ok a => k a s
    | Throw => (Throw, s)
    end.
Proof. unfold and_then, eval. now destruct r. Qed.

Lemma tracks_ret (f : frame) : tracks (Ok (local_markdown f)) (outside f) (ret tt f).
Proof. now split. Qed.

Lemma tracks_append (x : string) (f : frame) :
  tracks (Ok (local_markdown f ++ x)) (outside f) (append_markdown x f).
Proof. now split. Qed.

Lemma tracks_throw (f : frame) : tracks Throw (outside f) (Throw, f).
Proof. now split. Qed.

(** A line written when a value is truthy. *)
Lemma tracks_line (pre : string) (v : value) (f : frame) :
  tracks (if truthy v
          then s <- to_string v ;; Ok (local_markdown f ++ pre ++ s ++ nl2)
          else Ok (local_markdown f))
         (outside f)
         ((if truthy v
           then and_then (eval (to_string v)) (fun s => append_markdown (pre ++ s ++ nl2))
           else ret tt) f).
Proof.
  destruct (truthy v); [| apply tracks_ret].
  rewrite and_then_eval. destruct (to_string v) as [s|]; cbn [bind].
  - apply tracks_append.
  - apply tracks_throw.
Qed.

(** Code that tracks [r], followed by code that tracks what comes next. *)
Lemma tracks_and_then (r : result string) (k' : string -> result string)
    (c : code frame unit) (k : unit -> code frame unit) (f : frame) (w : world) :
  tracks r w (c f) ->
  (forall f', outside f' = w -> tracks (k' (local_markdown f')) w (k tt f')) ->
  tracks (bind r k') w (and_then c k f).
Proof.
  unfold and_then. intros [Hw Hr] Hk.
  destruct (c f) as [[[]|] f'] eqn:E; cbn [fst snd] in *.
  - destruct r as [md|]; [| discriminate Hr]. destruct Hr as [_ <-]. cbn [bind].
    now apply Hk.
  - destruct r as [md|]; [destruct Hr as [Hr _]; discriminate Hr |].
    now split.
Qed.

(** The same, when what comes next returns a string. *)
Lemma tracks_and_return (r : result string) (k' : string -> result string)
    (c : code frame unit) (k : unit -> code frame string) (f : frame) (w : world) :
  tracks r w (c f) ->
  (forall f', outside f' = w ->
     fst (k tt f') = k' (local_markdown f') /\ outside (snd (k tt f')) = w) ->
  fst (and_then c k f) = bind r k' /\ outside (snd (and_then c k f)) = w.
Proof.
  unfold and_then. intros [Hw Hr] Hk.
  destruct (c f) as [[[]|] f'] eqn:E; cbn [fst snd] in *.
  - destruct r as [md|]; [| discriminate Hr]. destruct Hr as [_ <-]. cbn [bind].
    now apply Hk.
  - destruct r as [md|]; [destruct Hr as [Hr _]; discriminate Hr |].
    now split.
Qed.

Lemma for_each_tracks (cb : value -> string -> result string)
    (cbc : value -> code frame unit) :
  simulates cb cbc ->
  forall l f,
    tracks (for_each l cb (local_markdown f)) (outside f) (for_each_code l cbc f).
Proof.
  intros Hs. induction l as [|x l IH]; intros f; cbn [for_each for_each_code].
  - apply tracks_ret.
  - apply (tracks_and_then (cb x (local_markdown f)) (for_each l cb)).
    + apply Hs.
    + intros f' <-. apply IH.
Qed.

Lemma forEach_tracks (cb : value -> string -> result string)
    (cbc : value -> code frame unit) :
  simulates cb cbc ->
  forall xs f,
    tracks (forEach xs cb (local_markdown f)) (outside f) (forEach_code xs cbc f).
Proof.
  intros Hs xs f. destruct xs; try apply tracks_throw.
  now apply for_each_tracks.
Qed.

Lemma block_callback_simulates : simulates block_step block_callback.
Proof.
  intros b f. unfold block_step, block_callback.
  rewrite and_then_eval. destruct (get b "type") as [ty|]; cbn [bind];
    [| apply tracks_throw].
  destruct (strict_eq ty "text").
  { rewrite and_then_eval. destruct (get b "value") as [v|]; cbn [bind];
      [| apply tracks_throw].
    rewrite and_then_eval. destruct (to_string v) as [s|]; cbn [bind];
      [apply tracks_append | apply tracks_throw]. }
  destruct (strict_eq ty "image"); [| apply tracks_ret].
  rewrite and_then_eval. destruct (get b "url") as [url|]; cbn [bind];
    [| apply tracks_throw].
  destruct (truthy url); [| apply tracks_ret].
  rewrite and_then_eval. destruct (get b "caption") as [caption|]; cbn [bind];
    [| apply tracks_throw].
  rewrite and_then_eval. destruct (to_string (js_or caption (VStr "Image"))) as [c|];
    cbn [bind]; [| apply tracks_throw].
  rewrite and_then_eval. destruct (to_string url) as [u|]; cbn [bind];
    [apply tracks_append | apply tracks_throw].
Qed.

Lemma section_callback_simulates : simulates section_step section_callback.
Proof.
  intros s f. unfold section_step, section_callback.
  rewrite and_then_eval. destruct (get s "heading") as [heading|]; cbn [bind];
    [| apply tracks_throw].
  apply (tracks_and_then _ (fun markdown => content <- get s "content" ;;
                                            forEach content block_step markdown)).
  - apply (tracks_line "### ").
  - intros f' <-. rewrite and_then_eval.
    destruct (get s "content") as [content|]; cbn [bind]; [| apply tracks_throw].
    apply (forEach_tracks _ _ block_callback_simulates).
Qed.

Lemma faq_callback_simulates : simulates faq_step faq_callback.
Proof.
  intros e f. unfold faq_step, faq_callback.
  rewrite and_then_eval. destruct (get e "question") as [question|]; cbn [bind];
    [| apply tracks_throw].
  rewrite and_then_eval. destruct (to_string question) as [q|]; cbn [bind];
    [| apply tracks_throw].
  cbv zeta.
  apply (tracks_and_then (Ok (local_markdown f ++ "* **Q:** " ++ q ++ nl))
           (fun markdown => answer <- get e "answer" ;;
                            a <- to_string answer ;;
                            Ok (markdown ++ "  **A:** " ++ a ++ nl2))).
  - apply tracks_append.
  - intros f' <-. rewrite and_then_eval.
    destruct (get e "answer") as [answer|]; cbn [bind]; [| apply tracks_throw].
    rewrite and_then_eval. destruct (to_string answer) as [a|]; cbn [bind];
      [apply tracks_append | apply tracks_throw].
Qed.


Lemma and_then_assign {B : Type} (x : string) (k : unit -> code frame B) (f : frame) :
  and_then (assign_markdown x) k f
  = k tt {| local_markdown := x; outside := outside f |}.
Proof. reflexivity. Qed.

(** The body computes what [formatArticleAsMarkdown] gives and leaves
    everything outside the call as it was, also when it throws. *)
Lemma formatArticleAsMarkdown_body_runs (a : value) (f : frame) :
  fst (formatArticleAsMarkdown_body a f) = formatArticleAsMarkdown a /\
  outside (snd (formatArticleAsMarkdown_body a f)) = outside f.
Proof.
  unfold formatArticleAsMarkdown_body, formatArticleAsMarkdown.
  destruct (truthy a); cbn [negb]; [| now split].
  rewrite and_then_eval. destruct (get a "title") as [title|]; cbn [bind];
    [| now split].
  rewrite and_then_eval.
  destruct (to_string (js_or title (VStr "Untitled Article"))) as [t|]; cbn [bind];
    [| now split].
  cbv zeta. rewrite and_then_assign.
  generalize (outside f). intros w.
  rewrite and_then_eval. destruct (get a "subtitle") as [subtitle|]; cbn [bind];
    [| now split].
  apply tracks_and_return.
  { apply (tracks_line "## " subtitle {| local_markdown := "# " ++ t ++ nl2; outside := w |}). }
  intros f1 <-.
  rewrite and_then_eval. destruct (get a "introduction") as [introduction|]; cbn [bind];
    [| now split].
  apply tracks_and_return; [apply (tracks_line "" introduction f1) |].
  intros f2 <-.
  rewrite and_then_eval. destruct (get a "sections") as [sections|]; cbn [bind];
    [| now split].
  apply tracks_and_return;
    [apply (forEach_tracks _ _ section_callback_simulates sections f2) |].
  intros f3 <-.
  rewrite and_then_eval. destruct (get a "faq_section") as [faq_section|]; cbn [bind];
    [| now split].
  apply tracks_and_return.
  { destruct (truthy faq_section); [| apply tracks_ret].
    rewrite and_then_eval.
    destruct (length_gt_zero faq_section) as [[|]|]; cbn [bind];
      [| apply tracks_ret | apply tracks_throw].
    apply (tracks_and_then
             (Ok (local_markdown f3 ++ "## Frequently Asked Questions" ++ nl2))
             (forEach faq_section faq_step)).
    - apply tracks_append.
    - intros f' <-. apply (forEach_tracks _ _ faq_callback_simulates). }
  intros f4 <-.
  rewrite and_then_eval. destruct (get a "conclusion") as [conclusion|]; cbn [bind];
    [| now split].
  destruct (truthy conclusion); [| now split].
  unfold and_then, append_markdown, eval, read_markdown.
  destruct (to_string conclusion) as [c|]; cbn [bind]; now split.
Qed.

Lemma call_formatArticleAsMarkdown_runs (a : value) (w : world) :
  call_formatArticleAsMarkdown a w = (formatArticleAsMarkdown a, w).
Proof.
  unfold call_formatArticleAsMarkdown.
  pose proof (formatArticleAsMarkdown_body_runs a
                {| local_markdown := ""; outside := w |}) as [Ho Hw].
  destruct (formatArticleAsMarkdown_body a _) as [outcome f'].
  cbn [fst snd outside] in *. now rewrite Ho, Hw.
Qed.

(** [handleDownloadArticle], written statement by statement against the
    component and the browser, does what the handler of the claims does:
    the call of the serializer adds nothing to what the handler itself
    asks of the browser. *)
Lemma handleDownloadArticle_code_agrees (w : world) :
  handleDownloadArticle_code w
  = let '(st, effects, outcome) := handleDownloadArticle (component w) in
    (outcome,
     {| component := st; performed := (performed w ++ map Download effects)%list |}).
Proof.
  unfold handleDownloadArticle_code, handleDownloadArticle.
  destruct (truthy (article (component w))); cbn [negb].
  - unfold and_then at 1. rewrite call_formatArticleAsMarkdown_runs.
    destruct (formatArticleAsMarkdown (article (component w))) as [md|].
    + unfold and_then, perform, eval. cbn [component performed].
      destruct (download_name (article (component w))) as [name|];
        cbn [map]; rewrite <- ?app_assoc; reflexivity.
    + destruct w. cbn [map component performed]. now rewrite app_nil_r.
  - unfold set_state. cbn [map]. now rewrite app_nil_r.
Qed.

(** C8.  [formatArticleAsMarkdown] is pure and deterministic.  Run as code
    of the component, where it could call the setters of the state and
    reach the browser, a call on any value [a] in any world gives the
    outcome [formatArticleAsMarkdown a], a string or a fault, the function
    of the argument that the other properties are about, and leaves
    the world exactly as it was: the state of the component, the article
    it holds and the requests made to the browser are unchanged, also when
    the call throws.  So two calls on the same input give the same
    outcome, whatever the world each of them runs in and whatever ran in
    between; and the outcome is the same again on an input that is the same
    JSON value with the properties of its objects listed in another
    order. *)
Theorem formatArticleAsMarkdown_pure (a : value) (w1 w2 : world) :
  exists outcome : result string,
    outcome = formatArticleAsMarkdown a /\
    call_formatArticleAsMarkdown a w1 = (outcome, w1) /\
    call_formatArticleAsMarkdown a w2 = (outcome, w2) /\
    (forall a', same_json a a' -> call_formatArticleAsMarkdown a' w2 = (outcome, w2)).
Proof.
  exists (formatArticleAsMarkdown a). split; [reflexivity |].
  split; [apply call_formatArticleAsMarkdown_runs |].
  split; [apply call_formatArticleAsMarkdown_runs |].
  intros a' Ha. rewrite call_formatArticleAsMarkdown_runs.
  now rewrite (same_json_same_outcome a a' Ha).
Qed.


(** ** The file name of the download *)

(** Replacing, then lower-casing, is one pass of [sanitize]. *)
Lemma replace_then_lower (c : ascii) :
  lower_char (if in_class_az09_i c then c else "_"%char) = sanitize c.
Proof. destruct c as [[] [] [] [] [] [] [] []]; reflexivity. Qed.

Lemma sanitize_plain (c : ascii) :
  is_digit (sanitize c) || is_lower (sanitize c) || Ascii.eqb (sanitize c) "_" = true.
Proof. destruct c as [[] [] [] [] [] [] [] []]; reflexivity. Qed.

Lemma sanitized_plain_name (s : string) : plain_name (string_map sanitize s) = true.
Proof.
  induction s as [|c s IH]; cbn [string_map plain_name]; [reflexivity |].
  now rewrite sanitize_plain, IH.
Qed.

Lemma toLowerCase_replace (s : string) :
  toLowerCase (replace_non_alnum s) = string_map sanitize s.
Proof.
  unfold toLowerCase, replace_non_alnum. rewrite string_map_map.
  apply string_map_ext, replace_then_lower.
Qed.

Lemma download_name_valid (a : value) :
  truthy a = true -> opt_string (prop "title" a) = true ->
  download_name a = Ok (file_name (prop "title" a)).
Proof.
  intros Ta Ht. unfold download_name, file_name, js_or.
  rewrite (get_prop a "title" (truthy_not_absent a Ta)). cbn [bind].
  destruct (prop "title" a) as [| | | |t| |]; try discriminate; cbn [truthy str_of].
  - now rewrite toLowerCase_replace.
  - now rewrite toLowerCase_replace.
  - destruct (negb (t =? "")); now rewrite toLowerCase_replace.
Qed.

Lemma valid_article_title (a : value) :
  valid_article a = true -> opt_string (prop "title" a) = true.
Proof.
  destruct a as [| | | | |l|o]; try discriminate.
  unfold valid_article. rewrite !andb_true_iff. cbn [prop]. tauto.
Qed.

(** C9 (amended).  For every well-formed article, [handleDownloadArticle]
    offers the Markdown text for download under the name made of the title,
    or of the base name [article] when the title is absent or empty, with
    every character that is not an ASCII letter or digit replaced by an
    underscore and the letters lower-cased, followed by [.md]: the base
    name has the length of the title and consists of digits, small letters
    and underscores. *)
Theorem download_file_name (st : AppState) :
  valid_article (article st) = true ->
  exists markdownContent base,
    formatArticleAsMarkdown (article st) = Ok markdownContent /\
    handleDownloadArticle st
    = (st,
       [CreateObjectURL markdownContent; AppendLink; ClickLink (base ++ ".md");
        RemoveLink; RevokeObjectURL],
       Ok tt) /\
    base ++ ".md" = file_name (prop "title" (article st)) /\
    plain_name base = true /\
    (absent (prop "title" (article st)) = true \/ prop "title" (article st) = VStr "" ->
     base = "article") /\
    (forall t, prop "title" (article st) = VStr t -> t <> "" ->
     base = string_map sanitize t /\ String.length base = String.length t).
Proof.
  intros Hv.
  pose proof (valid_article_truthy _ Hv) as Ta.
  pose proof (valid_article_title _ Hv) as Ht.
  exists (render (article st)).
  exists (string_map sanitize
            (if truthy (prop "title" (article st))
             then str_of (prop "title" (article st)) else "article")).
  split; [now apply formatArticleAsMarkdown_valid |]. split.
  - unfold handleDownloadArticle. rewrite Ta. cbn [negb].
    rewrite (formatArticleAsMarkdown_valid _ Hv).
    now rewrite (download_name_valid _ Ta Ht).
  - split; [reflexivity |]. split; [apply sanitized_plain_name |]. split.
    + intros Habs.
      assert (E : truthy (prop "title" (article st)) = false).
      { destruct Habs as [Habs | ->]; [| reflexivity].
        destruct (prop "title" (article st)); try discriminate; reflexivity. }
      now rewrite E.
    + intros t Et Hne. rewrite Et. cbn [truthy str_of].
      destruct (String.eqb_spec t ""); [contradiction |]. cbn [negb].
      split; [reflexivity | apply string_map_length].
Qed.

(** * Beyond the claims *)

(** ** The exact outcome of [formatArticleAsMarkdown] *)

Lemma to_string_text (v : value) :
  to_string v = exactly (printable v) (text_of v).
Proof. unfold printable, text_of. now destruct (to_string v). Qed.

Lemma line_stage_exact (pre md : string) (v : value) :
  (if truthy v then s <- to_string v ;; Ok (md ++ pre ++ s ++ nl2) else Ok md)
  = exactly (line_ok v) (md ++ line_of pre v).
Proof.
  unfold line_ok, line_of, printable, text_of. destruct (truthy v); cbn [negb orb].
  - now destruct (to_string v).
  - cbn [exactly]. now rewrite append_nil_r.
Qed.

Lemma block_step_exact (b : value) (md : string) :
  block_step b md = exactly (block_ok b) (md ++ block_markdown b).
Proof.
  unfold block_step, block_ok, block_markdown. rewrite !get_cases.
  destruct (absent b) eqn:Eb; [reflexivity |]. cbn [negb andb bind].
  fold (is_text b) (is_image b).
  destruct (is_text b).
  - unfold printable, text_of. now destruct (to_string (prop "value" b)).
  - destruct (is_image b); cbn [andb].
    + destruct (truthy (prop "url" b)).
      * unfold printable, text_of.
        destruct (to_string (js_or (prop "caption" b) (VStr "Image")));
          cbn [bind andb exactly]; [| reflexivity].
        destruct (to_string (prop "url" b)); reflexivity.
      * cbn [exactly]. now rewrite append_nil_r.
    + cbn [exactly]. now rewrite append_nil_r.
Qed.

Lemma for_each_exact (cb : value -> string -> result string)
    (ok : value -> bool) (f : value -> string) :
  (forall x md, cb x md = exactly (ok x) (md ++ f x)) ->
  forall l md, for_each l cb md = exactly (forallb ok l) (md ++ cat (map f l)).
Proof.
  intros Hcb l. induction l as [|x l IH]; intros md; cbn [for_each forallb map cat].
  - cbn [exactly]. now rewrite append_nil_r.
  - rewrite Hcb. destruct (ok x); cbn [exactly bind andb]; [| reflexivity].
    rewrite IH. now rewrite append_assoc.
Qed.

Lemma forEach_exact (cb : value -> string -> result string)
    (ok : value -> bool) (f : value -> string) :
  (forall x md, cb x md = exactly (ok x) (md ++ f x)) ->
  forall xs md,
    forEach xs cb md
    = exactly (is_array xs && forallb ok (elements xs))
        (md ++ cat (map f (elements xs))).
Proof.
  intros Hcb xs md. destruct xs; try reflexivity.
  cbn [forEach is_array elements andb]. now apply for_each_exact.
Qed.

Lemma section_step_exact (x : value) (md : string) :
  section_step x md = exactly (section_ok x) (md ++ section_markdown x).
Proof.
  unfold section_step, section_ok, section_markdown, blocks_of. rewrite !get_cases.
  destruct (absent x); [reflexivity |]. cbn [negb andb bind].
  rewrite (line_stage_exact "### ").
  destruct (line_ok (prop "heading" x)); cbn [exactly bind andb]; [| reflexivity].
  rewrite (forEach_exact block_step block_ok block_markdown block_step_exact).
  now rewrite append_assoc.
Qed.

Lemma faq_step_exact (x : value) (md : string) :
  faq_step x md = exactly (faq_entry_ok x) (md ++ faq_entry_markdown x).
Proof.
  unfold faq_step, faq_entry_ok, faq_entry_markdown, printable, text_of.
  rewrite !get_cases.
  destruct (absent x); [reflexivity |]. cbn [negb andb bind].
  destruct (to_string (prop "question" x)); cbn [bind andb exactly]; [| reflexivity].
  destruct (to_string (prop "answer" x)); cbn [bind andb exactly]; [| reflexivity].
  now rewrite !append_assoc.
Qed.

Lemma faq_stage_exact (f : value) (md : string) :
  (if truthy f then
     nonempty <- length_gt_zero f ;;
     if (nonempty : bool)
     then forEach f faq_step (md ++ "## Frequently Asked Questions" ++ nl2)
     else Ok md
   else Ok md)
  = exactly (faq_ok f) (md ++ faq_markdown f).
Proof.
  unfold faq_ok, faq_markdown, faq_wanted.
  destruct (truthy f); [| cbn [exactly]; now rewrite append_nil_r].
  destruct (length_gt_zero f) as [[|]|]; cbn [bind exactly];
    [| now rewrite append_nil_r | reflexivity].
  rewrite (forEach_exact faq_step faq_entry_ok faq_entry_markdown faq_step_exact).
  now rewrite !append_assoc.
Qed.

Lemma formatArticleAsMarkdown_exact (a : value) :
  truthy a = true ->
  formatArticleAsMarkdown a = exactly (serializable a) (markdown_of a).
Proof.
  intros Ht. unfold formatArticleAsMarkdown, serializable, markdown_of,
    conclusion_markdown, sections_of.
  rewrite Ht. cbn [negb].
  rewrite !(get_prop a _ (truthy_not_absent a Ht)). cbn [bind].
  rewrite to_string_text.
  destruct (printable (js_or (prop "title" a) (VStr "Untitled Article")));
    cbn [exactly bind andb]; [| reflexivity].
  rewrite (line_stage_exact "## ").
  destruct (line_ok (prop "subtitle" a)); cbn [exactly bind andb]; [| reflexivity].
  rewrite (line_stage_exact "").
  destruct (line_ok (prop "introduction" a)); cbn [exactly bind andb]; [| reflexivity].
  rewrite (forEach_exact section_step section_ok section_markdown section_step_exact).
  destruct (is_array (prop "sections" a) &&
            forallb section_ok (elements (prop "sections" a))) eqn:Es.
  - cbn [exactly bind andb].
    rewrite faq_stage_exact.
    destruct (faq_ok (prop "faq_section" a)); cbn [exactly bind andb]; [| reflexivity].
    unfold line_ok, printable, text_of.
    destruct (truthy (prop "conclusion" a)); cbn [negb orb].
    + destruct (to_string (prop "conclusion" a)); cbn [bind exactly]; [| reflexivity].
      now rewrite !append_assoc.
    + cbn [exactly]. now rewrite append_nil_r, !append_assoc.
  - reflexivity.
Qed.

(** X1.  [formatArticleAsMarkdown] returns on a truthy input exactly when
    the input is [serializable]: the title, and every truthy subtitle,
    introduction, heading and conclusion, converts to a string; [sections]
    is an array of values other than [undefined] and [null] whose
    [content] is an array of such values, with convertible text values and
    image captions and urls; and [faq_section], when it is truthy with a
    positive [length], is an array of such values with convertible
    questions and answers.  The string returned is then [markdown_of]. *)
Theorem formatArticleAsMarkdown_returns_iff (a : value) :
  truthy a = true ->
  ((exists out, formatArticleAsMarkdown a = Ok out) <-> serializable a = true) /\
  (formatArticleAsMarkdown a = Throw <-> serializable a = false) /\
  (forall out, formatArticleAsMarkdown a = Ok out -> out = markdown_of a).
Proof.
  intros Ht. rewrite (formatArticleAsMarkdown_exact a Ht).
  destruct (serializable a); cbn [exactly].
  - split; [split; [reflexivity | intros _; now eexists] |].
    split; [split; discriminate |].
    intros out [= <-]. reflexivity.
  - split; [split; [intros [out E]; discriminate E | discriminate] |].
    split; [split; reflexivity |].
    intros out E. discriminate E.
Qed.


(** ** Faults of structure *)

Lemma forallb_false_In (ok : value -> bool) (l : list value) (x : value) :
  In x l -> ok x = false -> forallb ok l = false.
Proof.
  intros Hx Hok. destruct (forallb ok l) eqn:E; [| reflexivity].
  rewrite forallb_forall in E. now rewrite (E x Hx) in Hok.
Qed.

Lemma not_serializable_throws (a : value) :
  truthy a = true -> serializable a = false -> formatArticleAsMarkdown a = Throw.
Proof. intros Ht Hs. now rewrite (formatArticleAsMarkdown_exact a Ht), Hs. Qed.

Lemma section_not_ok_throws (a s : value) :
  truthy a = true -> In s (sections_of a) -> section_ok s = false ->
  formatArticleAsMarkdown a = Throw.
Proof.
  intros Ht Hs Hok. apply (not_serializable_throws a Ht). unfold serializable.
  rewrite (forallb_false_In section_ok _ s Hs Hok).
  now rewrite !andb_false_r.
Qed.

(** X2.  On a truthy input [formatArticleAsMarkdown] throws whenever
    [sections] is not an array, or one of the sections is [undefined] or
    [null], or has a [content] that is not an array, or has a block that
    is [undefined] or [null], whatever the rest of the article holds. *)
Theorem faults_of_structure (a : value) :
  truthy a = true ->
  is_array (prop "sections" a) = false \/
  (exists s, In s (sections_of a) /\
     (absent s = true \/
      is_array (prop "content" s) = false \/
      exists b, In b (blocks_of s) /\ absent b = true)) ->
  formatArticleAsMarkdown a = Throw.
Proof.
  intros Ht [Hs | [s [Hs Hbad]]].
  - apply (not_serializable_throws a Ht). unfold serializable.
    now rewrite Hs, !andb_false_r.
  - apply (section_not_ok_throws a s Ht Hs). unfold section_ok.
    destruct Hbad as [Hn | [Hc | [b [Hb Hn]]]].
    + now rewrite Hn.
    + now rewrite Hc, !andb_false_r.
    + rewrite (forallb_false_In block_ok _ b Hb); [now rewrite !andb_false_r |].
      unfold block_ok. now rewrite Hn.
Qed.

(** ** A [faq_section] that is not a sequence of entries *)

Lemma markdown_without_faq (o : list (string * value)) :
  faq_wanted (field "faq_section" o) = Ok false ->
  serializable (VObj (remove "faq_section" o)) = serializable (VObj o) /\
  markdown_of (VObj (remove "faq_section" o)) = markdown_of (VObj o).
Proof.
  intros Hf. unfold serializable, markdown_of, sections_of, faq_ok, faq_markdown, prop.
  rewrite field_remove_same.
  rewrite !(field_remove_other "faq_section") by reflexivity.
  rewrite Hf. cbn [faq_wanted truthy]. split; reflexivity.
Qed.

(** X3.  A [faq_section] that is a non-empty string makes
    [formatArticleAsMarkdown] throw: it has a positive [length] and no
    [forEach].  A [faq_section] for which the test
    [faq_section && faq_section.length > 0] is false (the empty array, the
    empty string, [null], a boolean, an object without positive [length])
    is passed over: the outcome is that of the article without the
    property. *)
Theorem odd_faq_section (o : list (string * value)) :
  (forall s, field "faq_section" o = VStr s -> s <> "" ->
     formatArticleAsMarkdown (VObj o) = Throw) /\
  (faq_wanted (field "faq_section" o) = Ok false ->
     formatArticleAsMarkdown (VObj (remove "faq_section" o))
     = formatArticleAsMarkdown (VObj o)).
Proof.
  split.
  - intros s Es Hne. apply not_serializable_throws; [reflexivity |].
    unfold serializable, faq_ok, faq_wanted. cbn [prop]. rewrite Es.
    cbn [truthy length_gt_zero is_array andb].
    destruct (String.eqb_spec s ""); [contradiction |]. cbn [negb].
    destruct s; [contradiction |]. cbn [String.length Nat.ltb Nat.leb].
    now rewrite !andb_false_r.
  - intros Hf. rewrite !formatArticleAsMarkdown_exact by reflexivity.
    destruct (markdown_without_faq o Hf) as [-> ->]. reflexivity.
Qed.

(** ** Properties the function does not read *)

Lemma not_article_key (k k' : string) :
  ~ In k article_keys -> In k' article_keys -> String.eqb k' k = false.
Proof.
  intros Hk Hk'. apply String.eqb_neq. intros ->. contradiction.
Qed.

(** X5.  [formatArticleAsMarkdown] reads the six properties [title],
    [subtitle], [introduction], [sections], [faq_section] and
    [conclusion] of the article and no other: setting any other property
    of the article, to any value, leaves the outcome as it is. *)
Theorem other_properties_ignored (o : list (string * value)) (k : string) (v : value) :
  ~ In k article_keys ->
  formatArticleAsMarkdown (VObj (update k v o)) = formatArticleAsMarkdown (VObj o).
Proof.
  intros Hk. rewrite !formatArticleAsMarkdown_exact by reflexivity.
  unfold serializable, markdown_of, sections_of, prop.
  rewrite !(field_update_other k "title"), !(field_update_other k "subtitle"),
          !(field_update_other k "introduction"), !(field_update_other k "sections"),
          !(field_update_other k "faq_section"), !(field_update_other k "conclusion");
    try reflexivity;
    apply (not_article_key k _ Hk); cbn; tauto.
Qed.


(** ** Missing values are written out *)

Lemma line_of_blank (pre : string) (v : value) : blank_ended (line_of pre v).
Proof.
  unfold line_of. destruct (truthy v); [| apply blank_ended_nil].
  rewrite <- append_assoc. apply blank_ended_line.
Qed.

Lemma block_markdown_blank (b : value) : blank_ended (block_markdown b).
Proof.
  unfold block_markdown. destruct (is_text b); [apply blank_ended_line |].
  destruct (is_image b && truthy (prop "url" b)); [| apply blank_ended_nil].
  right. exists ("![" ++ text_of (js_or (prop "caption" b) (VStr "Image")) ++ "](" ++
                 text_of (prop "url" b) ++ ")").
  now rewrite !append_assoc.
Qed.

Lemma section_markdown_blank (x : value) : blank_ended (section_markdown x).
Proof.
  unfold section_markdown. apply blank_ended_app.
  - apply line_of_blank.
  - apply cat_map_blank, block_markdown_blank.
Qed.

Lemma first_line_shaped (t : string) : shaped ("# " ++ t ++ nl2).
Proof.
  split; [now exists (t ++ nl2) |]. exists ("# " ++ t). now rewrite append_assoc.
Qed.

(** The text of a block sits in [markdown_of], after a shaped prefix. *)
Lemma markdown_split_block (a b : value) :
  In b (all_blocks a) ->
  exists pre post, markdown_of a = pre ++ block_markdown b ++ post /\ shaped pre.
Proof.
  unfold all_blocks. rewrite in_flat_map. intros [x [Hx Hb]].
  apply in_split in Hx as [ss1 [ss2 Hss]].
  apply in_split in Hb as [bs1 [bs2 Hbs]].
  exists ((("# " ++ text_of (js_or (prop "title" a) (VStr "Untitled Article")) ++ nl2) ++
           line_of "## " (prop "subtitle" a) ++
           line_of "" (prop "introduction" a) ++
           cat (map section_markdown ss1)) ++
          line_of "### " (prop "heading" x) ++ cat (map block_markdown bs1)).
  exists (cat (map block_markdown bs2) ++ cat (map section_markdown ss2) ++
          faq_markdown (prop "faq_section" a) ++
          conclusion_markdown (prop "conclusion" a)).
  split.
  - unfold markdown_of. rewrite Hss, cat_map_split.
    unfold section_markdown at 2. rewrite Hbs, cat_map_split.
    now rewrite !append_assoc.
  - apply shaped_app; [apply shaped_app |].
    + apply first_line_shaped.
    + repeat apply blank_ended_app; try apply line_of_blank.
      apply cat_map_blank, section_markdown_blank.
    + apply blank_ended_app; [apply line_of_blank |].
      apply cat_map_blank, block_markdown_blank.
Qed.

(** The text of a FAQ entry sits in [markdown_of]. *)
Lemma markdown_split_faq (a e : value) :
  In e (faq_of a) ->
  exists pre post, markdown_of a = pre ++ faq_entry_markdown e ++ post.
Proof.
  unfold faq_of. intros He.
  assert (Hw : faq_wanted (prop "faq_section" a) = Ok true).
  { destruct (prop "faq_section" a) as [| | | | |l|]; try contradiction.
    destruct l; [contradiction | reflexivity]. }
  apply in_split in He as [es1 [es2 Hes]].
  exists ("# " ++ text_of (js_or (prop "title" a) (VStr "Untitled Article")) ++ nl2 ++
          line_of "## " (prop "subtitle" a) ++
          line_of "" (prop "introduction" a) ++
          cat (map section_markdown (sections_of a)) ++
          "## Frequently Asked Questions" ++ nl2 ++ cat (map faq_entry_markdown es1)).
  exists (cat (map faq_entry_markdown es2) ++ conclusion_markdown (prop "conclusion" a)).
  unfold markdown_of, faq_markdown. rewrite Hw, Hes, cat_map_split.
  now rewrite !append_assoc.
Qed.

Lemma paragraph_after_shaped (pre line post : string) :
  shaped pre -> contains (nl ++ line ++ nl2) (pre ++ (line ++ nl2) ++ post).
Proof.
  intros [_ [f ->]]. exists (f ++ nl), post.
  unfold nl2. now rewrite !append_assoc.
Qed.

(** X4.  A text block without [value], and a FAQ entry without [question]
    or [answer], are not skipped: whenever [formatArticleAsMarkdown]
    returns, the output holds the word [undefined] in their place (and the
    word [null] for a text value that is [null]). *)
Theorem missing_values_written_out (a : value) (out : string) :
  truthy a = true -> formatArticleAsMarkdown a = Ok out ->
  (forall b, In b (all_blocks a) -> is_text b = true ->
     (prop "value" b = VUndef -> contains (nl ++ "undefined" ++ nl2) out) /\
     (prop "value" b = VNull -> contains (nl ++ "null" ++ nl2) out)) /\
  (forall e, In e (faq_of a) ->
     (prop "question" e = VUndef -> contains ("* **Q:** undefined" ++ nl) out) /\
     (prop "answer" e = VUndef -> contains ("  **A:** undefined" ++ nl2) out)).
Proof.
  intros Ht Hout.
  rewrite (formatArticleAsMarkdown_exact a Ht) in Hout.
  destruct (serializable a); [| discriminate Hout].
  injection Hout as <-. split.
  - intros b Hb Hbt.
    destruct (markdown_split_block a b Hb) as [pre [post [-> Hpre]]].
    unfold block_markdown. rewrite Hbt. split; intros ->.
    + apply (paragraph_after_shaped pre "undefined" post Hpre).
    + apply (paragraph_after_shaped pre "null" post Hpre).
  - intros e He.
    destruct (markdown_split_faq a e He) as [pre [post ->]].
    unfold faq_entry_markdown. split; intros E; rewrite E; cbn [text_of to_string].
    + exists pre, ("  **A:** " ++ text_of (prop "answer" e) ++ nl2 ++ post).
      now rewrite !append_assoc.
    + exists (pre ++ "* **Q:** " ++ text_of (prop "question" e) ++ nl), post.
      now rewrite !append_assoc.
Qed.

(** ** Headings, subtitle and conclusion *)

Lemma valid_markdown_of (a : value) :
  valid_article a = true -> markdown_of a = render a /\ serializable a = true.
Proof.
  intros Hv.
  pose proof (formatArticleAsMarkdown_valid a Hv) as E.
  rewrite (formatArticleAsMarkdown_exact a (valid_article_truthy a Hv)) in E.
  destruct (serializable a); cbn [exactly] in E; [| discriminate E].
  split; [congruence | reflexivity].
Qed.

Lemma headings_emitted (sections : list value) :
  emitted_in_order (map heading_line (filter has_heading sections))
    (cat (map section_text sections)).
Proof.
  induction sections as [|x sections IH]; cbn [filter map cat]; [exact I |].
  unfold section_text at 1, opt_line, has_heading.
  destruct (truthy (prop "heading" x)); cbn [map].
  - exists "", (cat (map block_text (blocks_of x)) ++ cat (map section_text sections)).
    split.
    + unfold heading_line. now rewrite !append_assoc.
    + apply emitted_in_order_pre. exact IH.
  - apply emitted_in_order_pre. exact IH.
Qed.

Lemma render_split_section (a x : value) :
  In x (sections_of a) ->
  exists pre post, render a = pre ++ section_text x ++ post /\ shaped pre.
Proof.
  intros Hx. apply in_split in Hx as [ss1 [ss2 Hss]].
  exists (("# " ++ title_text a ++ nl2) ++
          opt_line "## " (prop "subtitle" a) ++
          opt_line "" (prop "introduction" a) ++
          cat (map section_text ss1)).
  exists (cat (map section_text ss2) ++ faq_text (faq_of a) ++ conclusion_text a).
  split.
  - unfold render, front_text. rewrite Hss, cat_map_split.
    now rewrite !append_assoc.
  - apply shaped_app; [apply first_line_shaped |].
    repeat apply blank_ended_app; try apply opt_line_blank.
    apply cat_map_blank, section_text_blank.
Qed.

(** X6.  For every well-formed article the headings of the sections that
    have one, each as the line [### heading] followed by a blank line,
    occur in the output in the order of the sections, and each heading
    line is followed at once by the text of the blocks of its own
    section. *)
Theorem headings_in_order (a : value) :
  valid_article a = true ->
  exists out, formatArticleAsMarkdown a = Ok out /\
    emitted_in_order (map heading_line (filter has_heading (sections_of a))) out /\
    (forall x h, In x (sections_of a) -> prop "heading" x = VStr h -> h <> "" ->
       contains (nl ++ ("### " ++ h) ++ nl2 ++ cat (map block_text (blocks_of x))) out).
Proof.
  intros Hv. exists (render a). split; [now apply formatArticleAsMarkdown_valid |].
  split.
  - unfold render, front_text. apply emitted_in_order_post.
    do 5 apply emitted_in_order_pre. apply headings_emitted.
  - intros x h Hx Eh Hne.
    destruct (render_split_section a x Hx) as [pre [post [-> [_ [f ->]]]]].
    unfold section_text, opt_line. rewrite Eh. cbn [truthy str_of].
    destruct (String.eqb_spec h ""); [contradiction |]. cbn [negb].
    exists (f ++ nl), post. unfold nl2. now rewrite !append_assoc.
Qed.

Lemma opt_line_str (pre s : string) :
  s <> "" -> opt_line pre (VStr s) = pre ++ s ++ nl2.
Proof.
  intros Hne. unfold opt_line. cbn [truthy str_of].
  now destruct (String.eqb_spec s "").
Qed.

(** X7.  For every well-formed article: a non-empty subtitle is written
    as the line [## subtitle] right after the title line; a non-empty
    introduction comes right after the title and subtitle lines; and a
    non-empty conclusion closes the output, as the heading
    [## Conclusion], a blank line, the conclusion and a blank line. *)
Theorem subtitle_introduction_conclusion (a : value) :
  valid_article a = true ->
  exists out, formatArticleAsMarkdown a = Ok out /\
    (forall s, prop "subtitle" a = VStr s -> s <> "" ->
       starts_with ("# " ++ title_text a ++ nl2 ++ "## " ++ s ++ nl2) out) /\
    (forall i, prop "introduction" a = VStr i -> i <> "" ->
       starts_with ("# " ++ title_text a ++ nl2 ++
                    opt_line "## " (prop "subtitle" a) ++ i ++ nl2) out) /\
    (forall c, prop "conclusion" a = VStr c -> c <> "" ->
       ends_with ("## Conclusion" ++ nl2 ++ c ++ nl2) out).
Proof.
  intros Hv. exists (render a). split; [now apply formatArticleAsMarkdown_valid |].
  unfold render, front_text. split; [| split].
  - intros s Es Hne. rewrite Es, (opt_line_str "## " s Hne).
    exists (opt_line "" (prop "introduction" a) ++
            cat (map section_text (sections_of a)) ++
            faq_text (faq_of a) ++ conclusion_text a).
    now rewrite !append_assoc.
  - intros i Ei Hne. rewrite Ei, (opt_line_str "" i Hne).
    exists (cat (map section_text (sections_of a)) ++
            faq_text (faq_of a) ++ conclusion_text a).
    now rewrite !append_assoc.
  - intros c Ec Hne. unfold conclusion_text. rewrite Ec. cbn [truthy str_of].
    destruct (String.eqb_spec c ""); [contradiction |]. cbn [negb].
    exists (("# " ++ title_text a ++ nl2 ++
             opt_line "## " (prop "subtitle" a) ++
             opt_line "" (prop "introduction" a) ++
             cat (map section_text (sections_of a))) ++ faq_text (faq_of a)).
    now rewrite !append_assoc.
Qed.


(** ** [handleGenerateArticle] *)

Lemma trim_end_blank (s : string) : trim_end s = "" <-> blank s = true.
Proof.
  induction s as [|c s IH]; cbn [trim_end blank]; [tauto |].
  destruct (trim_end s) as [|d t].
  - destruct (is_space c); cbn [andb].
    + split; [intros _; now apply IH | reflexivity].
    + split; discriminate.
  - split; [discriminate |]. rewrite andb_true_iff. intros [_ Hb].
    apply IH in Hb. discriminate Hb.
Qed.

Lemma trim_start_blank (s : string) : blank (trim_start s) = blank s.
Proof.
  induction s as [|c s IH]; cbn [trim_start blank]; [reflexivity |].
  destruct (is_space c) eqn:E; cbn [andb blank]; [exact IH |].
  now rewrite E.
Qed.

Lemma trim_empty (s : string) : String.eqb (trim s) "" = blank s.
Proof.
  unfold trim. rewrite <- (trim_start_blank s).
  destruct (String.eqb_spec (trim_end (trim_start s)) "") as [E | E].
  - symmetry. now apply trim_end_blank.
  - destruct (blank (trim_start s)) eqn:B; [| reflexivity].
    apply trim_end_blank in B. contradiction.
Qed.

(** X8.  A topic made of white space only (the empty topic included) is
    refused: no request is made, the message asking for a topic is set,
    and the article on the page stays.  Any other topic is posted, as it
    was typed: the text sent is not trimmed. *)
Theorem blank_topic_refused (engine : type_error -> string)
    (st : AppState) (net : fetch_outcome) :
  (blank (topic st) = true ->
   handleGenerateArticle engine st net
   = (None, setError "Please enter a topic to generate an article." st,
      [PreventDefault])) /\
  (blank (topic st) = false ->
   exists pending final rest,
     handleGenerateArticle engine st net
     = (Some pending, final, PreventDefault :: PostTopic (topic st) :: rest)).
Proof.
  unfold handleGenerateArticle. rewrite trim_empty. split; intros ->.
  - reflexivity.
  - destruct (request_result engine net); now eexists _, _, _.
Qed.


(** X10.  What the user reads after a response that is not [ok].  When
    the body is an object with a non-empty string [error], that string is
    the message; when [error] is missing or falsy, the message is
    [HTTP error! status: ] with the status; when the body does not parse,
    the message is that of the parse error; when [error] is itself an
    object without a property [toString] of its own, as in
    [{error: {message: ...}}], the message is [[object Object]]; and when the body is [null], the message is the
    engine's text for the [TypeError] of reading [error] from it. *)
Theorem http_error_message (engine : type_error -> string)
    (st : AppState) (status : number) (body : json_outcome) :
  blank (topic st) = false ->
  (forall o e, body = JsonResolved (VObj o) -> field "error" o = VStr e -> e <> "" ->
     error (snd (fst (handleGenerateArticle engine st (FetchResolved false status body))))
     = Some (failure_text e)) /\
  (forall o, body = JsonResolved (VObj o) -> truthy (field "error" o) = false ->
     error (snd (fst (handleGenerateArticle engine st (FetchResolved false status body))))
     = Some (failure_text ("HTTP error! status: " ++ num_to_string status))) /\
  (forall m, body = JsonRejected m ->
     error (snd (fst (handleGenerateArticle engine st (FetchResolved false status body))))
     = Some (failure_text m)) /\
  (forall o e, body = JsonResolved (VObj o) -> field "error" o = VObj e ->
     lookup "toString" e = None ->
     error (snd (fst (handleGenerateArticle engine st (FetchResolved false status body))))
     = Some (failure_text "[object Object]")) /\
  (body = JsonResolved VNull ->
     error (snd (fst (handleGenerateArticle engine st (FetchResolved false status body))))
     = Some (failure_text (engine (ReadOfNullish VNull "error")))).
Proof.
  intros Hb. unfold handleGenerateArticle. rewrite trim_empty, Hb.
  split; [| split; [| split; [| split]]].
  - intros o e -> Ee Hne. cbn [request_result get]. rewrite Ee.
    unfold js_or. cbn [truthy]. destruct (String.eqb_spec e ""); [contradiction |].
    reflexivity.
  - intros o -> Hf. cbn [request_result get]. unfold js_or. rewrite Hf. reflexivity.
  - intros m ->. reflexivity.
  - intros o e -> Ee He. cbn [request_result get]. rewrite Ee.
    unfold js_or. cbn [truthy to_string]. rewrite He. reflexivity.
  - intros ->. reflexivity.
Qed.


(** ** [handleDownloadArticle] and [handleCopyArticle] *)

Lemma download_name_cases (a : value) :
  truthy a = true ->
  download_name a
  = if negb (truthy (prop "title" a)) || is_str (prop "title" a)
    then Ok (file_name (prop "title" a))
    else Throw.
Proof.
  intros Ta. unfold download_name, file_name, js_or.
  rewrite (get_prop a "title" (truthy_not_absent a Ta)). cbn [bind].
  destruct (prop "title" a) as [| |b|n|t|l|o]; cbn [truthy negb orb is_str str_of];
    try reflexivity; try (now rewrite toLowerCase_replace).
  - destruct b; cbn [negb orb]; [reflexivity | now rewrite toLowerCase_replace].
  - destruct (num_truthy n); cbn [negb orb]; [reflexivity | now rewrite toLowerCase_replace].
  - rewrite orb_true_r. destruct (negb (t =? "")); now rewrite toLowerCase_replace.
Qed.

(** X11.  The two export handlers leave the article, the topic and the
    loading flag as they are.  Without an article they perform no effect
    and only set their message; with an article [handleDownloadArticle]
    changes no state at all, and [handleCopyArticle] changes at most the
    copy message. *)
Theorem export_handlers_frame (st : AppState) (clip : clipboard_outcome) :
  let down := handleDownloadArticle st in
  let copy := handleCopyArticle st clip in
  (article (fst (fst down)) = article st /\ topic (fst (fst down)) = topic st /\
   loading (fst (fst down)) = loading st /\
   copySuccess (fst (fst down)) = copySuccess st) /\
  (article (fst (fst copy)) = article st /\ topic (fst (fst copy)) = topic st /\
   loading (fst (fst copy)) = loading st) /\
  (truthy (article st) = false ->
   down = (setError "No article to download." st, [], Ok tt) /\
   copy = (setError "No article to copy." st, [], Ok tt)) /\
  (truthy (article st) = true ->
   fst (fst down) = st /\ error (fst (fst copy)) = error st).
Proof.
  cbv zeta. unfold handleDownloadArticle, handleCopyArticle.
  destruct (truthy (article st)); cbn [negb].
  - destruct (formatArticleAsMarkdown (article st)) as [md|].
    + destruct (download_name (article st)); destruct clip;
        repeat split; try reflexivity; discriminate.
    + repeat split; try reflexivity; discriminate.
  - repeat split; try reflexivity; discriminate.
Qed.

(** X12.  Copying and downloading hand out the same text: the text that
    [handleDownloadArticle] makes an object URL of is the text that
    [handleCopyArticle] writes to the clipboard, and it is the string
    [formatArticleAsMarkdown] returns for the article of the page. *)
Theorem copy_and_download_same_text (st : AppState) (md : string) :
  (In (CreateObjectURL md) (snd (fst (handleDownloadArticle st))) <->
   truthy (article st) = true /\ formatArticleAsMarkdown (article st) = Ok md) /\
  (In (WriteText md) (snd (fst (handleCopyArticle st ClipboardWritten))) <->
   truthy (article st) = true /\ formatArticleAsMarkdown (article st) = Ok md).
Proof.
  unfold handleDownloadArticle, handleCopyArticle.
  destruct (truthy (article st)); cbn [negb].
  - destruct (formatArticleAsMarkdown (article st)) as [md'|].
    + split.
      * destruct (download_name (article st)); cbn [fst snd In]; split.
        -- intros [[= ->] | H0]; [now split |].
           repeat (destruct H0 as [H0 | H0]; [discriminate H0 |]). contradiction.
        -- intros [_ [= ->]]. now left.
        -- intros [[= ->] | []]. now split.
        -- intros [_ [= ->]]. now left.
      * cbn [fst snd In]. split.
        -- intros [[= ->] | [H0 | []]]; [now split | discriminate H0].
        -- intros [_ [= ->]]. now left.
    + split; cbn [fst snd In]; split; try contradiction; intros [_ E]; discriminate E.
  - split; cbn [fst snd In]; split; try contradiction; intros [E _]; discriminate E.
Qed.

(** X13.  With an article that [formatArticleAsMarkdown] turns into the
    text [md]: when the title is falsy or a string, the handler creates
    the object URL, clicks the link named after the title and revokes the
    URL; when the title is truthy and not a string (a boolean, a number,
    an array, an object), [replace] is not a function: the handler throws
    after creating the object URL, which is never revoked, and offers
    nothing.  When [formatArticleAsMarkdown] throws, nothing is done. *)
Theorem download_completes_or_leaks (st : AppState) :
  truthy (article st) = true ->
  (formatArticleAsMarkdown (article st) = Throw ->
   handleDownloadArticle st = (st, [], Throw)) /\
  (forall md, formatArticleAsMarkdown (article st) = Ok md ->
     (truthy (prop "title" (article st)) = false \/
      is_str (prop "title" (article st)) = true ->
      handleDownloadArticle st
      = (st,
         [CreateObjectURL md; AppendLink;
          ClickLink (file_name (prop "title" (article st)));
          RemoveLink; RevokeObjectURL],
         Ok tt)) /\
     (truthy (prop "title" (article st)) = true ->
      is_str (prop "title" (article st)) = false ->
      handleDownloadArticle st = (st, [CreateObjectURL md], Throw))).
Proof.
  intros Ta. unfold handleDownloadArticle. rewrite Ta. cbn [negb].
  split; [intros ->; reflexivity |].
  intros md ->. rewrite (download_name_cases _ Ta). split.
  - intros [-> | ->]; [reflexivity | now rewrite orb_true_r].
  - intros -> ->. reflexivity.
Qed.

(** X14.  From the request to the export: after a response that is [ok]
    with a well-formed article as its body, downloading offers the
    Markdown of that article under the file name of its title, and copying
    writes the same Markdown to the clipboard. *)
Theorem generated_article_exports (engine : type_error -> string)
    (st : AppState) (status : number) (data : value) :
  blank (topic st) = false ->
  valid_article data = true ->
  exists pending final effects,
    handleGenerateArticle engine st (FetchResolved true status (JsonResolved data))
    = (Some pending, final, effects) /\
    handleDownloadArticle final
    = (final,
       [CreateObjectURL (render data); AppendLink;
        ClickLink (file_name (prop "title" data)); RemoveLink; RevokeObjectURL],
       Ok tt) /\
    handleCopyArticle final ClipboardWritten
    = (setCopySuccess "Article copied to clipboard!" final,
       [WriteText (render data); SetTimeout 3000], Ok tt).
Proof.
  intros Hb Hv. unfold handleGenerateArticle. rewrite trim_empty, Hb.
  cbn [request_result]. eexists _, _, _. split; [reflexivity |].
  pose proof (valid_article_truthy _ Hv) as Ta.
  unfold handleDownloadArticle, handleCopyArticle. cbn [article setLoading setArticle].
  rewrite Ta, (formatArticleAsMarkdown_valid _ Hv). cbn [negb].
  rewrite (download_name_valid _ Ta (valid_article_title _ Hv)).
  split; reflexivity.
Qed.


(** ** The article panel *)

Lemma map_nodes_throws (f : value -> result node) (l : list value) (x : value) :
  In x l -> f x = Throw -> map_nodes f l = Throw.
Proof.
  intros Hx Hf. induction l as [|y l IH]; [contradiction |].
  cbn [map_nodes]. destruct Hx as [-> | Hx].
  - now rewrite Hf.
  - destruct (f y); cbn [bind]; [| reflexivity]. now rewrite (IH Hx).
Qed.

Lemma map_nodes_returns (f : value -> result node) (l : list value) :
  (forall x, In x l -> exists n, f x = Ok n) -> exists ns, map_nodes f l = Ok ns.
Proof.
  induction l as [|y l IH]; intros Hf; cbn [map_nodes]; [now eexists |].
  destruct (Hf y (or_introl eq_refl)) as [n ->].
  destruct IH as [ns ->]; [intros x Hx; apply Hf; now right |].
  now eexists.
Qed.

Lemma falsy_printable (v : value) : truthy v = false -> printable v = true.
Proof. destruct v; try discriminate; reflexivity. Qed.

Lemma block_view_throws (a s b : value) :
  absent b = true -> block_view a s b = Throw.
Proof. intros Hb. unfold block_view. rewrite get_cases, Hb. reflexivity. Qed.

Lemma section_view_throws (a s : value) :
  absent s = true \/ is_array (prop "content" s) = false \/
  (exists b, In b (blocks_of s) /\ absent b = true) ->
  section_view a s = Throw.
Proof.
  intros Hbad. unfold section_view. rewrite !get_cases.
  destruct (absent s) eqn:Es; [reflexivity |]. cbn [bind].
  destruct Hbad as [Hn | [Hc | [b [Hb Hn]]]]; [discriminate Hn | |].
  - destruct (prop "content" s); try discriminate Hc; reflexivity.
  - unfold blocks_of in Hb.
    destruct (prop "content" s) as [| | | | |l|]; try contradiction.
    cbn [js_map elements] in *.
    now rewrite (map_nodes_throws _ l b Hb (block_view_throws a s b Hn)).
Qed.

(** X15.  The faults of structure that break the export break the page
    as well: building the panel of a truthy article throws whenever
    [sections] is not an array, or one of the sections is [undefined] or
    [null], or has a [content] that is not an array, or has a block that
    is [undefined] or [null]. *)
Theorem page_breaks_with_the_export (a : value) (copySuccess : string) :
  truthy a = true ->
  is_array (prop "sections" a) = false \/
  (exists s, In s (sections_of a) /\
     (absent s = true \/
      is_array (prop "content" s) = false \/
      exists b, In b (blocks_of s) /\ absent b = true)) ->
  article_panel a copySuccess = Throw.
Proof.
  intros Ht Hbad. unfold article_panel. rewrite Ht. cbn [negb].
  rewrite !(get_prop a _ (truthy_not_absent a Ht)). cbn [bind].
  destruct Hbad as [Hs | [s [Hs Hbad]]].
  - destruct (prop "sections" a); try discriminate Hs; reflexivity.
  - unfold sections_of in Hs.
    destruct (prop "sections" a) as [| | | | |l|]; try contradiction.
    cbn [js_map elements] in *.
    now rewrite (map_nodes_throws _ l s Hs (section_view_throws a s Hbad)).
Qed.

Lemma block_view_returns (a s b : value) :
  printable (js_or (prop "heading" s) (prop "title" a)) = true ->
  absent s = false -> absent a = false -> absent b = false ->
  exists n, block_view a s b = Ok n.
Proof.
  intros Hp Hs Ha Hb. unfold block_view. rewrite !get_cases, Hs, Ha, Hb. cbn [bind].
  destruct (strict_eq (prop "type" b) "text"); cbn [bind];
    (destruct (strict_eq (prop "type" b) "image"); cbn [bind]; [| now eexists];
     destruct (truthy (prop "caption" b)); cbn [bind]; [now eexists |];
     unfold printable in Hp;
     destruct (to_string (js_or (prop "heading" s) (prop "title" a)));
       [cbn [bind]; now eexists | discriminate Hp]).
Qed.

Lemma heading_or_title_printable (a s : value) :
  printable (js_or (prop "title" a) (VStr "Untitled Article")) = true ->
  line_ok (prop "heading" s) = true ->
  printable (js_or (prop "heading" s) (prop "title" a)) = true.
Proof.
  unfold js_or, line_ok. intros Ht Hh.
  destruct (truthy (prop "heading" s)); [exact Hh |].
  destruct (truthy (prop "title" a)) eqn:Tt; [exact Ht |].
  now apply falsy_printable.
Qed.

Lemma section_view_returns (a s : value) :
  printable (js_or (prop "title" a) (VStr "Untitled Article")) = true ->
  absent a = false -> section_ok s = true ->
  exists n, section_view a s = Ok n.
Proof.
  intros Ht Ha. unfold section_ok. rewrite !andb_true_iff.
  intros [[[Hs Hh] Hc] Hb]. apply negb_true_iff in Hs.
  unfold section_view. rewrite !get_cases, Hs. cbn [bind].
  unfold blocks_of in Hb.
  destruct (prop "content" s) as [| | | | |l|]; try discriminate Hc.
  cbn [js_map elements] in *.
  destruct (map_nodes_returns (block_view a s) l) as [ns ->]; [| now eexists].
  intros b Hbl. rewrite forallb_forall in Hb. specialize (Hb b Hbl).
  unfold block_ok in Hb. apply andb_true_iff in Hb as [Hb _].
  apply negb_true_iff in Hb.
  apply block_view_returns; try assumption.
  now apply heading_or_title_printable.
Qed.

Lemma faq_view_returns (e : value) :
  faq_entry_ok e = true -> exists n, faq_view e = Ok n.
Proof.
  unfold faq_entry_ok. rewrite !andb_true_iff. intros [[He _] _].
  apply negb_true_iff in He. unfold faq_view. rewrite !get_cases, He.
  now eexists.
Qed.

Lemma child_values_items (l : list node) :
  child_values (Items l) = flat_map child_values l.
Proof. reflexivity. Qed.

Lemma child_values_element (tag : string) (attrs : list (string * value))
    (l : list node) :
  child_values (Element tag attrs l) = flat_map child_values l.
Proof. reflexivity. Qed.

Lemma opt_string_plain (v : value) : opt_string v = true -> plain_child v = true.
Proof. destruct v; try discriminate; reflexivity. Qed.

Lemma is_str_plain (v : value) : is_str v = true -> plain_child v = true.
Proof. destruct v; try discriminate; reflexivity. Qed.

Lemma when_plain (v : value) (n : node) :
  plain_child v = true ->
  forallb plain_child (child_values n) = true ->
  forallb plain_child (child_values (when v n)) = true.
Proof.
  intros Hv Hn. unfold when. destruct (truthy v); [exact Hn |].
  cbn [child_values forallb]. now rewrite Hv.
Qed.

Lemma map_nodes_plain (f : value -> result node) (l : list value) :
  (forall x n, In x l -> f x = Ok n -> forallb plain_child (child_values n) = true) ->
  forall ns, map_nodes f l = Ok ns ->
             forallb plain_child (flat_map child_values ns) = true.
Proof.
  induction l as [|x l IH]; intros Hf ns; cbn [map_nodes].
  - intros [= <-]. reflexivity.
  - destruct (f x) as [n|] eqn:En; cbn [bind]; [| discriminate].
    destruct (map_nodes f l) as [ns'|] eqn:El; cbn [bind]; [| discriminate].
    intros [= <-]. cbn [flat_map]. rewrite forallb_app.
    rewrite (Hf x n (or_introl eq_refl) En).
    now rewrite (IH (fun y m Hy => Hf y m (or_intror Hy)) ns' eq_refl).
Qed.

Lemma block_view_plain (a s b : value) (n : node) :
  valid_block b = true -> block_view a s b = Ok n ->
  forallb plain_child (child_values n) = true.
Proof.
  destruct b as [| | | | | |o]; try discriminate. cbn [valid_block].
  unfold block_view. cbn [get bind].
  destruct (strict_eq (field "type" o) "text") eqn:Et; cbn [bind].
  - intros Hv. destruct (strict_eq (field "type" o) "image") eqn:Ei.
    { destruct (field "type" o); try discriminate Et. cbn [strict_eq] in Et, Ei.
      apply String.eqb_eq in Et. subst. discriminate Ei. }
    cbn [bind]. intros [= <-]. cbn [child_values forallb app].
    now rewrite (is_str_plain _ Hv).
  - destruct (strict_eq (field "type" o) "image"); cbn [bind].
    + rewrite andb_true_iff. intros [_ Hc].
      destruct (truthy (field "caption" o)) eqn:Tc; cbn [bind].
      * intros [= <-]. rewrite !child_values_element. cbn [flat_map].
        rewrite !child_values_element. cbn [flat_map child_values app].
        unfold when. rewrite Tc. cbn [child_values forallb app].
        now rewrite (opt_string_plain _ Hc).
      * destruct (get s "heading"); cbn [bind]; [| discriminate].
        destruct (get a "title"); cbn [bind]; [| discriminate].
        destruct (to_string _); cbn [bind]; [| discriminate].
        intros [= <-]. rewrite !child_values_element. cbn [flat_map].
        rewrite !child_values_element. cbn [flat_map child_values app].
        unfold when. rewrite Tc. cbn [child_values forallb app].
        now rewrite (opt_string_plain _ Hc).
    + intros _ [= <-]. reflexivity.
Qed.

Lemma section_view_plain (a s : value) (n : node) :
  valid_section s = true -> section_view a s = Ok n ->
  forallb plain_child (child_values n) = true.
Proof.
  destruct s as [| | | | | |o]; try discriminate. cbn [valid_section].
  rewrite andb_true_iff. intros [Hh Hc]. unfold section_view. cbn [get bind].
  destruct (field "content" o) as [| | | | |l|]; try discriminate Hc.
  cbn [js_map].
  destruct (map_nodes (block_view a (VObj o)) l) as [ns|] eqn:El; cbn [bind];
    [| discriminate].
  intros [= <-]. rewrite child_values_element. cbn [flat_map].
  rewrite app_nil_r, forallb_app, child_values_items.
  rewrite (when_plain _ _ (opt_string_plain _ Hh)).
  - apply (map_nodes_plain (block_view a (VObj o)) l); [| exact El].
    intros b m Hb. rewrite forallb_forall in Hc.
    apply block_view_plain. now apply Hc.
  - cbn [child_values forallb app]. now rewrite (opt_string_plain _ Hh).
Qed.

Lemma faq_view_plain (e : value) (n : node) :
  valid_faq e = true -> faq_view e = Ok n ->
  forallb plain_child (child_values n) = true.
Proof.
  destruct e as [| | | | | |o]; try discriminate. cbn [valid_faq].
  rewrite andb_true_iff. intros [Hq Ha]. unfold faq_view. cbn [get bind].
  intros [= <-]. cbn [child_values forallb app].
  now rewrite (is_str_plain _ Hq), (is_str_plain _ Ha).
Qed.

Lemma article_panel_plain (a : value) (copySuccess : string) (n : node) :
  valid_article a = true -> article_panel a copySuccess = Ok n ->
  forallb plain_child (child_values n) = true.
Proof.
  destruct a as [| | | | | |o]; try discriminate. cbn [valid_article].
  rewrite !andb_true_iff. intros [[[[[Ht Hs] Hi] Hc] Hss] Hf].
  unfold article_panel. cbn [truthy negb get bind].
  destruct (field "sections" o) as [| | | | |l|]; try discriminate Hss.
  cbn [js_map].
  destruct (map_nodes (section_view (VObj o)) l) as [ns|] eqn:El; cbn [bind];
    [| discriminate].
  match goal with |- bind ?stage _ = _ -> _ => destruct stage as [fp|] eqn:Ef end;
    cbn [bind]; [| discriminate].
  assert (Hfp : forallb plain_child (child_values fp) = true).
  { destruct (field "faq_section" o) as [| | | | |es|]; try discriminate Hf;
      cbn [truthy] in Ef; try (now injection Ef as <-).
    cbn [length_gt_zero bind] in Ef.
    destruct (0 <? List.length es)%nat; [| now injection Ef as <-].
    cbn [js_map] in Ef.
    destruct (map_nodes faq_view es) as [fs|] eqn:Es; cbn [bind] in Ef;
      [| discriminate Ef].
    injection Ef as <-. rewrite child_values_element. cbn [flat_map].
    rewrite app_nil_r, child_values_items.
    change (child_values (Element "h3" [] [Text "Frequently Asked Questions"])) with (@nil value).
    cbn [app].
    apply (map_nodes_plain faq_view es); [| exact Es].
    intros e m He. rewrite forallb_forall in Hf.
    apply faq_view_plain. now apply Hf. }
  intros [= <-]. rewrite child_values_element. cbn [flat_map].
  rewrite !forallb_app, Hfp, child_values_items.
  rewrite (map_nodes_plain (section_view (VObj o)) l
             (fun s m Hsl => section_view_plain (VObj o) s m
                               (proj1 (forallb_forall _ _) Hss s Hsl)) ns El).
  rewrite !when_plain; try reflexivity;
    try (apply opt_string_plain; assumption);
    cbn [child_values forallb app]; rewrite opt_string_plain by assumption;
    reflexivity.
Qed.

Lemma article_panel_title (a : value) (copySuccess : string) (n : node)
    (o : list (string * value)) :
  truthy a = true -> prop "title" a = VObj o ->
  article_panel a copySuccess = Ok n -> In (VObj o) (child_values n).
Proof.
  intros Ht Ho. unfold article_panel. rewrite Ht. cbn [negb].
  rewrite !(get_prop a _ (truthy_not_absent a Ht)). cbn [bind]. rewrite Ho.
  destruct (js_map (prop "sections" a) (section_view a)) as [ns|]; cbn [bind];
    [| discriminate].
  match goal with |- bind ?stage _ = _ -> _ => destruct stage as [fp|] end;
    cbn [bind]; [| discriminate].
  intros [= <-]. rewrite child_values_element. cbn [flat_map].
  rewrite !in_app_iff. right. right. left. now left.
Qed.

(** X16.  Whenever the export returns, the JSX of the article panel
    evaluates: [App] returns an element tree rather than throwing.  The
    theorem is about that tree, not about what React then does with it.
    For a well-formed article every value the tree holds in child position
    is a string, [undefined], [null] or a boolean.  An article outside the
    data model can be exported and still hand an object to the page: when
    the title of an exported article is an object, that object is among
    the values in child position. *)
Theorem exported_article_builds_a_panel (a : value) (copySuccess : string) :
  truthy a = true ->
  (exists out, formatArticleAsMarkdown a = Ok out) ->
  exists n,
    article_panel a copySuccess = Ok n /\
    (valid_article a = true -> forallb plain_child (child_values n) = true) /\
    (forall o, prop "title" a = VObj o -> In (VObj o) (child_values n)).
Proof.
  intros Ht [out Hout].
  assert (Hn : exists n, article_panel a copySuccess = Ok n).
  { rewrite (formatArticleAsMarkdown_exact a Ht) in Hout.
    destruct (serializable a) eqn:Hs; [| discriminate Hout]. clear Hout.
    unfold serializable in Hs. rewrite !andb_true_iff in Hs.
    destruct Hs as [[[[[[Hp _] _] Ha] Hss] Hf] _].
    pose proof (truthy_not_absent a Ht) as Hna.
    unfold article_panel. rewrite Ht. cbn [negb].
    rewrite !(get_prop a _ Hna). cbn [bind].
    unfold sections_of in Hss.
    destruct (prop "sections" a) as [| | | | |l|]; try discriminate Ha.
    cbn [js_map elements] in *.
    destruct (map_nodes_returns (section_view a) l) as [ns ->].
    { intros s Hsl. rewrite forallb_forall in Hss.
      apply (section_view_returns a s Hp Hna (Hss s Hsl)). }
    cbn [bind]. unfold faq_ok, faq_wanted in Hf.
    destruct (truthy (prop "faq_section" a)); [| now eexists].
    destruct (length_gt_zero (prop "faq_section" a)) as [[|]|];
      [| now eexists | discriminate Hf].
    cbn [bind]. apply andb_true_iff in Hf as [Hfa Hfe].
    destruct (prop "faq_section" a) as [| | | | |es|]; try discriminate Hfa.
    cbn [js_map elements] in *.
    destruct (map_nodes_returns faq_view es) as [fs ->]; [| now eexists].
    intros e He. rewrite forallb_forall in Hfe. now apply faq_view_returns, Hfe. }
  destruct Hn as [n Hn]. exists n. split; [exact Hn |]. split.
  - intros Hv. exact (article_panel_plain a copySuccess n Hv Hn).
  - intros o Ho. exact (article_panel_title a copySuccess n o Ht Ho Hn).
Qed.


Lemma images_items (l : list node) : images (Items l) = flat_map images l.
Proof. reflexivity. Qed.

Lemma images_element (tag : string) (attrs : list (string * value)) (l : list node) :
  images (Element tag attrs l)
  = ((if String.eqb tag "img" then [attrs] else []) ++ flat_map images l)%list.
Proof. reflexivity. Qed.

Lemma images_when (c v : value) (tag : string) :
  String.eqb tag "img" = false ->
  images (when c (Element tag [] [Child v])) = [].
Proof.
  intros Ht. unfold when. destruct (truthy c); [| reflexivity].
  rewrite images_element, Ht. reflexivity.
Qed.

Lemma block_view_images (a s b : value) (n : node) :
  block_view a s b = Ok n ->
  images n
  = if is_image b then [[("src", prop "url" b); ("alt", alt_of a s b)]] else [].
Proof.
  unfold block_view, is_image, alt_of, text_of. rewrite !get_cases.
  destruct (absent b); [discriminate |]. cbn [bind].
  destruct (strict_eq (prop "type" b) "text"); cbn [bind];
    (destruct (strict_eq (prop "type" b) "image"); cbn [bind];
     [| intros [= <-]; rewrite images_element; reflexivity];
     destruct (truthy (prop "caption" b)) eqn:Tc; cbn [bind];
     [ intros [= <-]; rewrite images_element; cbn [String.eqb flat_map Ascii.eqb];
       rewrite !images_element; cbn [flat_map];
       unfold when; rewrite Tc; rewrite !images_element; reflexivity
     | destruct (absent s); [discriminate |]; cbn [bind];
       destruct (absent a); [discriminate |]; cbn [bind];
       destruct (to_string (js_or (prop "heading" s) (prop "title" a)));
         cbn [bind]; [| discriminate];
       intros [= <-]; rewrite images_element; cbn [flat_map];
       rewrite !images_element; cbn [flat_map];
       unfold when; rewrite Tc; reflexivity ]).
Qed.

Lemma map_nodes_images (f : value -> result node)
    (g : value -> list (list (string * value))) (l : list value) :
  (forall x n, In x l -> f x = Ok n -> images n = g x) ->
  forall ns, map_nodes f l = Ok ns -> flat_map images ns = flat_map g l.
Proof.
  induction l as [|x l IH]; intros Hf ns; cbn [map_nodes].
  - intros [= <-]. reflexivity.
  - destruct (f x) as [n|] eqn:En; cbn [bind]; [| discriminate].
    destruct (map_nodes f l) as [ns'|] eqn:El; cbn [bind]; [| discriminate].
    intros [= <-]. cbn [flat_map].
    rewrite (Hf x n (or_introl eq_refl) En).
    rewrite (IH (fun y m Hy => Hf y m (or_intror Hy)) ns' eq_refl). reflexivity.
Qed.

Lemma flat_map_filter_map (x : value -> list (string * value)) (l : list value) :
  flat_map (fun b => if is_image b then [x b] else []) l
  = map x (filter is_image l).
Proof.
  induction l as [|b l IH]; [reflexivity |]. cbn [flat_map filter].
  destruct (is_image b); cbn [map app]; now rewrite IH.
Qed.

Lemma section_view_images (a s : value) (n : node) :
  section_view a s = Ok n -> images n = section_images a s.
Proof.
  unfold section_view, section_images, blocks_of. rewrite !get_cases.
  destruct (absent s); [discriminate |]. cbn [bind].
  destruct (prop "content" s) as [| | | | |l|]; try discriminate.
  cbn [js_map elements].
  destruct (map_nodes (block_view a s) l) as [ns|] eqn:El; cbn [bind]; [| discriminate].
  intros [= <-]. rewrite images_element. cbn [String.eqb Ascii.eqb app flat_map].
  rewrite images_when by reflexivity. rewrite images_items, app_nil_r.
  cbn [app].
  rewrite (map_nodes_images (block_view a s)
             (fun b => if is_image b
                       then [[("src", prop "url" b); ("alt", alt_of a s b)]] else [])
             l (fun b m _ E => block_view_images a s b m E) ns El).
  apply (flat_map_filter_map
           (fun b => [("src", prop "url" b); ("alt", alt_of a s b)])).
Qed.

Lemma faq_view_images (e : value) (n : node) :
  faq_view e = Ok n -> images n = [].
Proof.
  unfold faq_view. rewrite !get_cases. destruct (absent e); [discriminate |].
  intros [= <-]. reflexivity.
Qed.

Lemma flat_map_nil_images (l : list value) :
  flat_map (fun _ : value => @nil (list (string * value))) l = [].
Proof. induction l; [reflexivity | assumption]. Qed.

Lemma length_flat_map_images (a : value) (l : list value) :
  List.length (flat_map (section_images a) l)
  = List.length (filter is_image (flat_map blocks_of l)).
Proof.
  induction l as [|s l IH]; [reflexivity |]. cbn [flat_map].
  rewrite filter_app, !length_app, IH. unfold section_images.
  now rewrite length_map.
Qed.

(** X17.  Every image block is shown, with or without [url]: the [img]
    elements of the panel are, in the order of the article, one for each
    block of type [image], with the block's [url] as [src], whatever it
    is, and with the caption as [alt], or else [Image for ] followed by
    the heading of the section or, without heading, the title
    ([Image for undefined] when both are missing). *)
Theorem every_image_block_is_shown (a : value) (copySuccess : string) (n : node) :
  truthy a = true ->
  article_panel a copySuccess = Ok n ->
  images n = flat_map (section_images a) (sections_of a) /\
  List.length (images n) = List.length (filter is_image (all_blocks a)).
Proof.
  intros Ht Hn.
  assert (E : images n = flat_map (section_images a) (sections_of a)).
  { revert Hn. unfold article_panel, sections_of. rewrite Ht. cbn [negb].
    rewrite !(get_prop a _ (truthy_not_absent a Ht)). cbn [bind].
    destruct (prop "sections" a) as [| | | | |l|]; try discriminate.
    cbn [js_map elements].
    destruct (map_nodes (section_view a) l) as [ns|] eqn:El; cbn [bind]; [| discriminate].
    match goal with |- bind ?stage _ = _ -> _ => destruct stage as [fp|] eqn:Ef end;
      cbn [bind]; [| discriminate].
    assert (Hfp : images fp = []).
    { destruct (truthy (prop "faq_section" a)); [| now injection Ef as <-].
      destruct (length_gt_zero (prop "faq_section" a)) as [[|]|]; cbn [bind] in Ef;
        [| now injection Ef as <- | discriminate Ef].
      destruct (prop "faq_section" a) as [| | | | |es|]; try discriminate Ef.
      cbn [js_map] in Ef.
      destruct (map_nodes faq_view es) as [fs|] eqn:Es; cbn [bind] in Ef;
        [| discriminate Ef].
      injection Ef as <-. rewrite images_element. cbn [String.eqb Ascii.eqb app flat_map].
      rewrite images_items, app_nil_r.
      rewrite (map_nodes_images faq_view (fun _ => []) es
                 (fun x m _ Ex => faq_view_images x m Ex) fs Es).
      apply flat_map_nil_images. }
    intros [= <-]. rewrite images_element. cbn [String.eqb Ascii.eqb app flat_map].
    rewrite !images_when by reflexivity. rewrite Hfp, images_items.
    unfold when.
    destruct (truthy (prop "introduction" a)), (truthy (prop "conclusion" a));
      cbn [images app]; rewrite ?app_nil_r;
      apply (map_nodes_images (section_view a) (section_images a) l
               (fun s m _ Es => section_view_images a s m Es) ns El). }
  split; [exact E |]. rewrite E. apply length_flat_map_images.
Qed.


(** ** The older [handleGenerateArticle] *)

(** X18.  With an endpoint that does not hold the placeholder
    [YOUR_CLOUDFLARE_WORKER_URL], as the endpoint of the file, the older
    handler makes the requests and the effects of the newer one, and its
    states are those of the newer one but for the copy message, which the
    newer one clears when it makes a request.  With an endpoint that holds
    the placeholder, no request is ever made. *)
Theorem older_handler_agrees (endpoint : string) (engine : type_error -> string)
    (st : AppState) (net : fetch_outcome) :
  let old := handleGenerateArticle_old endpoint engine st net in
  let new := handleGenerateArticle engine st net in
  (occurs "YOUR_CLOUDFLARE_WORKER_URL" endpoint = false ->
   snd old = snd new /\
   fst (fst new) = option_map (setCopySuccess "") (fst (fst old)) /\
   snd (fst new)
   = (if blank (topic st) then snd (fst old)
      else setCopySuccess "" (snd (fst old)))) /\
  (occurs "YOUR_CLOUDFLARE_WORKER_URL" endpoint = true ->
   fst (fst old) = None /\ snd old = [PreventDefault]) /\
  occurs "YOUR_CLOUDFLARE_WORKER_URL" API_ENDPOINT = false.
Proof.
  cbv zeta. unfold handleGenerateArticle_old, handleGenerateArticle.
  rewrite trim_empty. split; [| split].
  - intros ->. destruct (blank (topic st)); [now repeat split |].
    destruct (request_result engine net); now repeat split.
  - intros ->. destruct (blank (topic st)); now split.
  - reflexivity.
Qed.

(** ** The base name of the file *)

Lemma sanitize_fixed (c : ascii) :
  is_digit c || is_lower c || Ascii.eqb c "_" = true -> sanitize c = c.
Proof. destruct c as [[] [] [] [] [] [] [] []]; cbn; intros E; try reflexivity; discriminate E. Qed.

Lemma plain_name_fixed (s : string) :
  plain_name s = true -> string_map sanitize s = s.
Proof.
  induction s as [|c s IH]; cbn [plain_name string_map]; [reflexivity |].
  rewrite andb_true_iff. intros [Hc Hs]. now rewrite (sanitize_fixed c Hc), IH.
Qed.

(** X19.  The base name of the download is a fixed point of the naming: a
    title made of digits, small letters and underscores is its own base
    name, and naming a file after the base name of another gives that base
    name again. *)
Theorem base_name_fixed_point (a : value) (t : string) :
  truthy a = true -> prop "title" a = VStr t -> t <> "" ->
  exists base,
    download_name a = Ok (base ++ ".md") /\
    (plain_name t = true -> base = t) /\
    toLowerCase (replace_non_alnum base) = base /\
    forall a', truthy a' = true -> prop "title" a' = VStr base ->
               download_name a' = Ok (base ++ ".md").
Proof.
  intros Ta Et Hne. exists (string_map sanitize t).
  assert (Hfix : string_map sanitize (string_map sanitize t) = string_map sanitize t)
    by apply plain_name_fixed, sanitized_plain_name.
  assert (Hbase : string_map sanitize t <> "") by (destruct t; [contradiction | discriminate]).
  split; [| split; [| split]].
  - rewrite (download_name_cases a Ta), Et. cbn [truthy is_str negb orb].
    rewrite orb_true_r. unfold file_name. cbn [truthy str_of].
    now destruct (String.eqb_spec t "").
  - apply plain_name_fixed.
  - now rewrite toLowerCase_replace.
  - intros a' Ta' Et'. rewrite (download_name_cases a' Ta'), Et'.
    cbn [truthy is_str negb orb]. rewrite orb_true_r. unfold file_name.
    cbn [truthy str_of].
    destruct (String.eqb_spec (string_map sanitize t) ""); [contradiction |].
    cbn [negb]. now rewrite Hfix.
Qed.


(** ** The states the page can reach *)

(** The handler, as the two steps of the page. *)
Lemma handleGenerateArticle_in_steps (engine : type_error -> string)
    (st : AppState) (net : fetch_outcome) :
  blank (topic st) = false ->
  fst (handleGenerateArticle engine st net)
  = (Some (request_starts st), request_ends engine net (request_starts st)).
Proof.
  intros Hb. unfold handleGenerateArticle, request_ends. rewrite trim_empty, Hb.
  now destruct (request_result engine net).
Qed.

Lemma download_keeps_state (st : AppState) :
  truthy (article st) = true -> fst (fst (handleDownloadArticle st)) = st.
Proof.
  intros Ta. unfold handleDownloadArticle. rewrite Ta. cbn [negb].
  destruct (formatArticleAsMarkdown (article st)); [| reflexivity].
  now destruct (download_name (article st)).
Qed.

Lemma failure_text_not_no_article (m s : string) :
  String.get 0 s = Some "N"%char -> Some (failure_text m) <> Some s.
Proof.
  intros Hs E. injection E as E. rewrite <- E in Hs. discriminate Hs.
Qed.

(** X20.  In every state the page can reach from its first render: while
    a request is in flight there is no article and no error on the page;
    and the messages [No article to download.] and [No article to copy.]
    are never shown, the export buttons being there only with an
    article. *)
Theorem page_invariants (engine : type_error -> string) (st : AppState) :
  reachable engine st ->
  (loading st = true -> article st = VNull /\ error st = None) /\
  error st <> Some "No article to download." /\
  error st <> Some "No article to copy.".
Proof.
  induction 1 as [|st e st' Hr [IHl [IHd IHc]] Hstep].
  - repeat split; discriminate.
  - destruct Hstep as [st t Hl | st Hl Hb | st Hl Hb | st net Hl | st Ta
                      | st written | st].
    + cbn. split; [exact IHl | split; assumption].
    + cbn. split; [| split; discriminate].
      intros E. rewrite Hl in E. discriminate E.
    + cbn. split; [now split | split; discriminate].
    + unfold request_ends. destruct (request_result engine net) as [m | data]; cbn.
      * split; [discriminate |].
        split; now apply failure_text_not_no_article.
      * split; [discriminate | split; assumption].
    + rewrite (download_keeps_state st Ta). split; [exact IHl | split; assumption].
    + cbn. split; [exact IHl | split; assumption].
    + cbn. split; [exact IHl | split; assumption].
Qed.


End Properties.


(** * Examples *)

#[export] Existing Instance ExampleNumber.

Example mars_markdown :
  formatArticleAsMarkdown mars
  = Ok ("# Mars" ++ nl2 ++ "### Intro" ++ nl2 ++ "Mars is red." ++ nl2).
Proof. reflexivity. Qed.

Example gallery_markdown :
  formatArticleAsMarkdown gallery
  = Ok ("# Mars" ++ nl2 ++ "![c](u)" ++ nl2 ++ "![Image](w)" ++ nl2).
Proof. reflexivity. Qed.

Example gallery_without_inert_blocks :
  all_blocks (without_inert_blocks gallery)
  = [VObj [("type", VStr "image"); ("url", VStr "u"); ("caption", VStr "c")];
     VObj [("type", VStr "image"); ("url", VStr "w")]].
Proof. reflexivity. Qed.

Example file_name_of_a_title :
  download_name (VObj [("title", VStr "Hello, World! 42")])
  = Ok "hello__world__42.md".
Proof. reflexivity. Qed.

(** ** C1 *)

(** The claim C1 fails: on [null] the function returns, and returns the
    empty string. *)
Lemma null_input_does_not_fault :
  formatArticleAsMarkdown VNull = Ok "" /\ formatArticleAsMarkdown VNull <> Throw.
Proof. split; [reflexivity | discriminate]. Qed.

Lemma formatArticleAsMarkdown_falsy_witness :
  truthy VNull = false /\ formatArticleAsMarkdown VNull = Ok "".
Proof.
  split; [reflexivity | apply (formatArticleAsMarkdown_falsy VNull); reflexivity].
Defined.

(** ** C2 *)

(** The claim C2 fails: [no_content] is not null and has a [sections]
    sequence, and the function throws on it; [false] is not null and has
    no [sections], and the guard returns the empty string for it. *)
Lemma sections_sequence_does_not_suffice :
  (no_content <> VNull /\
   prop "sections" no_content = VArr [VObj []] /\
   formatArticleAsMarkdown no_content = Throw /\
   ~ (exists out, formatArticleAsMarkdown no_content = Ok out)) /\
  (VBool false <> VNull /\
   prop "sections" (VBool false) = VUndef /\
   formatArticleAsMarkdown (VBool false) = Ok "" /\
   formatArticleAsMarkdown (VBool false) <> Throw).
Proof.
  split.
  - repeat split; try discriminate.
    intros [out E]. discriminate E.
  - repeat split; discriminate.
Qed.

Lemma formatArticleAsMarkdown_faults_or_returns_witness :
  (truthy no_sections = true /\ absent (prop "sections" no_sections) = true /\
   formatArticleAsMarkdown no_sections = Throw) /\
  (valid_article mars = true /\ exists out, formatArticleAsMarkdown mars = Ok out).
Proof.
  split.
  - split; [reflexivity | split; [reflexivity |]].
    apply (proj1 (formatArticleAsMarkdown_faults_or_returns no_sections)); reflexivity.
  - split; [reflexivity |].
    apply (proj2 (formatArticleAsMarkdown_faults_or_returns mars)); reflexivity.
Defined.

(** ** C3 *)

Lemma title_line_witness :
  valid_article untitled = true /\
  exists out, formatArticleAsMarkdown untitled = Ok out /\
    (absent (prop "title" untitled) = true \/ prop "title" untitled = VStr "" ->
     starts_with ("# Untitled Article" ++ nl2) out) /\
    (forall t, prop "title" untitled = VStr t -> t <> "" ->
     starts_with ("# " ++ t ++ nl2) out).
Proof. split; [reflexivity | apply (title_line untitled); reflexivity]. Defined.

(** ** C4 *)

Lemma text_blocks_in_order_witness :
  valid_article mars = true /\
  exists out, formatArticleAsMarkdown mars = Ok out /\
    emitted_in_order (text_values mars) out /\
    (forall b v, In b (all_blocks mars) -> is_text b = true ->
       prop "value" b = VStr v -> contains (v ++ nl2) out).
Proof. split; [reflexivity | apply (text_blocks_in_order mars); reflexivity]. Defined.

(** ** C5 *)

(** The claim C5 fails: the two image blocks of [pictures] have a [url]
    and a [caption], and the output holds neither [![c]()], the line of
    the block whose [url] is empty, nor [![](u)], the line of the block
    whose [caption] is empty. *)
Lemma present_url_and_caption_do_not_suffice :
  valid_article pictures = true /\
  all_blocks pictures = [empty_url_block; empty_caption_block] /\
  formatArticleAsMarkdown pictures
  = Ok ("# Untitled Article" ++ nl2 ++ "![Image](u)" ++ nl2) /\
  ~ contains "![c]()" ("# Untitled Article" ++ nl2 ++ "![Image](u)" ++ nl2) /\
  ~ contains "![](u)" ("# Untitled Article" ++ nl2 ++ "![Image](u)" ++ nl2).
Proof.
  split; [reflexivity |]. split; [reflexivity |]. split; [reflexivity |].
  split; intros C; apply occurs_spec in C; discriminate C.
Qed.

Lemma image_blocks_emitted_witness :
  valid_article gallery = true /\
  exists out, formatArticleAsMarkdown gallery = Ok out /\
    forall b u, In b (all_blocks gallery) -> is_image b = true ->
      prop "url" b = VStr u -> u <> "" ->
      (forall c, prop "caption" b = VStr c -> c <> "" ->
         contains (nl ++ ("![" ++ c ++ "](" ++ u ++ ")") ++ nl) out) /\
      (absent (prop "caption" b) = true \/ prop "caption" b = VStr "" ->
         contains (nl ++ ("![Image](" ++ u ++ ")") ++ nl) out).
Proof. split; [reflexivity | apply (image_blocks_emitted gallery); reflexivity]. Defined.

(** ** C7 *)

(** The claim C7 fails.  [fake_heading] has no FAQ, and its output has the
    line [## Frequently Asked Questions]; [fake_question] has one FAQ
    entry, and its output has two lines with [**Q:**]. *)
Lemma faq_markers_are_not_reserved :
  (valid_article fake_heading = true /\
   faq_of fake_heading = [] /\
   formatArticleAsMarkdown fake_heading
   = Ok ("# Untitled Article" ++ nl2 ++ "## Frequently Asked Questions" ++ nl2) /\
   In "## Frequently Asked Questions"
      (split_lines ("# Untitled Article" ++ nl2 ++
                    "## Frequently Asked Questions" ++ nl2))) /\
  (valid_article fake_question = true /\
   List.length (faq_of fake_question) = 1 /\
   exists out, formatArticleAsMarkdown fake_question = Ok out /\
               count_lines_with "**Q:**" out = 2).
Proof.
  split.
  - repeat split; try reflexivity. cbn. tauto.
  - repeat split; try reflexivity. eexists. split; reflexivity.
Qed.

Lemma faq_section_emitted_witness :
  valid_article with_faq = true /\
  exists front,
    formatArticleAsMarkdown (without_faq_and_conclusion with_faq) = Ok front /\
    (faq_of with_faq = [] ->
     formatArticleAsMarkdown with_faq = Ok (front ++ conclusion_text with_faq)) /\
    (faq_of with_faq <> [] ->
     formatArticleAsMarkdown with_faq
     = Ok (front ++
           ("## Frequently Asked Questions" ++ nl2 ++
            cat (map (fun e => "* **Q:** " ++ str_of (prop "question" e) ++ nl ++
                               "  **A:** " ++ str_of (prop "answer" e) ++ nl2)
                     (faq_of with_faq))) ++
           conclusion_text with_faq)).
Proof. split; [reflexivity | apply (faq_section_emitted with_faq); reflexivity]. Defined.

(** ** C8 *)

Ltac by_key k :=
  cbn [lookup];
  repeat match goal with
         | |- context [String.eqb k ?lit] =>
             destruct (String.eqb_spec k lit) as [-> | ?]; cbn
         end.

Ltac same_json_tac :=
  lazymatch goal with
  | |- same_json (VObj _) (VObj _) =>
      apply same_obj;
      [ let k := fresh "k" in
        intros k; by_key k; split; intros E; try discriminate E; reflexivity
      | let k := fresh "k" in
        let E1 := fresh "E" in
        let E2 := fresh "E" in
        intros k ? ?; by_key k; intros E1 E2;
        try discriminate E1; try discriminate E2;
        injection E1 as <-; injection E2 as <-; same_json_tac ]
  | |- same_json (VArr _) (VArr _) =>
      apply same_arr; repeat (apply Forall2_cons; [same_json_tac |]);
      apply Forall2_nil
  | |- same_json _ _ => constructor
  end.

Lemma mars_reordered_same : same_json mars mars_reordered.
Proof. unfold mars, mars_reordered. same_json_tac. Defined.

Lemma formatArticleAsMarkdown_pure_witness :
  same_json mars mars_reordered /\
  exists outcome : result string,
    outcome = formatArticleAsMarkdown mars /\
    call_formatArticleAsMarkdown mars quiet = (outcome, quiet) /\
    call_formatArticleAsMarkdown mars busy = (outcome, busy) /\
    call_formatArticleAsMarkdown mars_reordered busy = (outcome, busy).
Proof.
  split; [exact mars_reordered_same |].
  destruct (formatArticleAsMarkdown_pure mars quiet busy) as [outcome [E [H1 [H2 H3]]]].
  exists outcome. split; [exact E |]. split; [exact H1 |]. split; [exact H2 |].
  apply H3. exact mars_reordered_same.
Defined.

(** The call, evaluated: on [mars], on a value that makes it throw, and
    on the reordered [mars]. *)
Example call_on_mars :
  call_formatArticleAsMarkdown mars busy
  = (Ok ("# Mars" ++ nl2 ++ "### Intro" ++ nl2 ++ "Mars is red." ++ nl2), busy).
Proof. reflexivity. Qed.

Example call_that_throws :
  call_formatArticleAsMarkdown no_content busy = (Throw, busy).
Proof. reflexivity. Qed.

Example call_on_mars_reordered :
  call_formatArticleAsMarkdown mars_reordered quiet
  = call_formatArticleAsMarkdown mars quiet.
Proof. reflexivity. Qed.

(** The handler that calls the serializer does change the world: the
    requests of the download are its own. *)
Example download_changes_the_world :
  handleDownloadArticle_code quiet
  = (Ok tt,
     {| component := showing mars;
        performed :=
          [Download (CreateObjectURL
                       ("# Mars" ++ nl2 ++ "### Intro" ++ nl2 ++ "Mars is red." ++ nl2));
           Download AppendLink; Download (ClickLink "mars.md");
           Download RemoveLink; Download RevokeObjectURL] |}).
Proof. reflexivity. Qed.

(** ** C9 *)

(** The claim C9 fails: the title of [empty_title] is present, and empty;
    by the claim the file would be [.md], and it is [article.md]. *)
Lemma empty_title_falls_back :
  prop "title" empty_title = VStr "" /\
  file_name_absent_fallback (prop "title" empty_title) = ".md" /\
  download_name empty_title = Ok "article.md" /\
  download_name empty_title
  <> Ok (file_name_absent_fallback (prop "title" empty_title)).
Proof. repeat split; try reflexivity. discriminate. Qed.


Lemma download_file_name_witness :
  valid_article (article showing_mars) = true /\
  exists markdownContent base,
    formatArticleAsMarkdown (article showing_mars) = Ok markdownContent /\
    handleDownloadArticle showing_mars
    = (showing_mars,
       [CreateObjectURL markdownContent; AppendLink; ClickLink (base ++ ".md");
        RemoveLink; RevokeObjectURL],
       Ok tt) /\
    base ++ ".md" = file_name (prop "title" (article showing_mars)) /\
    plain_name base = true /\
    (absent (prop "title" (article showing_mars)) = true \/
     prop "title" (article showing_mars) = VStr "" ->
     base = "article") /\
    (forall t, prop "title" (article showing_mars) = VStr t -> t <> "" ->
     base = string_map sanitize t /\ String.length base = String.length t).
Proof. split; [reflexivity | apply (download_file_name showing_mars); reflexivity]. Defined.

(** ** C10 *)

Lemma output_shape_witness :
  (valid_article untitled = true /\
   exists out, formatArticleAsMarkdown untitled = Ok out) /\
  (prop "sections" untitled = VArr [] /\
   formatArticleAsMarkdown untitled = Ok ("# Untitled Article" ++ nl2) /\
   "# Untitled Article" ++ nl2 <> "" /\
   starts_with "# " ("# Untitled Article" ++ nl2) /\
   ends_with nl2 ("# Untitled Article" ++ nl2)).
Proof.
  split.
  - split; [reflexivity |]. apply (proj1 (output_shape untitled)); reflexivity.
  - split; [reflexivity |]. split; [reflexivity |].
    apply (proj2 (output_shape untitled) []); reflexivity.
Defined.

(** ** Beyond the claims *)

Example sloppy_markdown :
  formatArticleAsMarkdown sloppy
  = Ok ("# Untitled Article" ++ nl2 ++ "undefined" ++ nl2 ++
        "## Frequently Asked Questions" ++ nl2 ++
        "* **Q:** Why?" ++ nl ++ "  **A:** undefined" ++ nl2).
Proof. reflexivity. Qed.

Lemma formatArticleAsMarkdown_returns_iff_witness :
  truthy sloppy = true /\
  ((exists out, formatArticleAsMarkdown sloppy = Ok out) <-> serializable sloppy = true) /\
  (formatArticleAsMarkdown sloppy = Throw <-> serializable sloppy = false) /\
  (forall out, formatArticleAsMarkdown sloppy = Ok out -> out = markdown_of sloppy).
Proof.
  split; [reflexivity | apply (formatArticleAsMarkdown_returns_iff sloppy); reflexivity].
Defined.

Lemma faults_of_structure_witness :
  truthy no_content = true /\
  In (VObj []) (sections_of no_content) /\
  is_array (prop "content" (VObj [])) = false /\
  formatArticleAsMarkdown no_content = Throw.
Proof.
  split; [reflexivity |]. split; [now left |]. split; [reflexivity |].
  apply (faults_of_structure no_content); [reflexivity |].
  right. exists (VObj []). split; [now left |]. right. left. reflexivity.
Defined.

Lemma odd_faq_section_witness :
  (field "faq_section" faq_as_text = VStr "None" /\ "None" <> "" /\
   formatArticleAsMarkdown (VObj faq_as_text) = Throw) /\
  (faq_wanted (field "faq_section" [("sections", VArr []); ("faq_section", VBool true)])
   = Ok false /\
   formatArticleAsMarkdown
     (VObj (remove "faq_section" [("sections", VArr []); ("faq_section", VBool true)]))
   = formatArticleAsMarkdown
       (VObj [("sections", VArr []); ("faq_section", VBool true)])).
Proof.
  split.
  - split; [reflexivity |]. split; [discriminate |].
    apply (proj1 (odd_faq_section faq_as_text) "None"); [reflexivity | discriminate].
  - split; [reflexivity |].
    apply (proj2 (odd_faq_section [("sections", VArr []); ("faq_section", VBool true)])).
    reflexivity.
Defined.

Lemma missing_values_written_out_witness :
  let out := "# Untitled Article" ++ nl2 ++ "undefined" ++ nl2 ++
             "## Frequently Asked Questions" ++ nl2 ++
             "* **Q:** Why?" ++ nl ++ "  **A:** undefined" ++ nl2 in
  truthy sloppy = true /\ formatArticleAsMarkdown sloppy = Ok out /\
  (forall b, In b (all_blocks sloppy) -> is_text b = true ->
     (prop "value" b = VUndef -> contains (nl ++ "undefined" ++ nl2) out) /\
     (prop "value" b = VNull -> contains (nl ++ "null" ++ nl2) out)) /\
  (forall e, In e (faq_of sloppy) ->
     (prop "question" e = VUndef -> contains ("* **Q:** undefined" ++ nl) out) /\
     (prop "answer" e = VUndef -> contains ("  **A:** undefined" ++ nl2) out)).
Proof.
  cbv zeta. split; [reflexivity |]. split; [reflexivity |].
  apply (missing_values_written_out sloppy); reflexivity.
Defined.

Lemma other_properties_ignored_witness :
  ~ In "author" article_keys /\
  formatArticleAsMarkdown
    (VObj (update "author" (VStr "A. Clarke") [("title", VStr "Mars"); ("sections", VArr [])]))
  = formatArticleAsMarkdown (VObj [("title", VStr "Mars"); ("sections", VArr [])]).
Proof.
  assert (Hk : ~ In "author" article_keys).
  { cbn. intros [E | [E | [E | [E | [E | [E | []]]]]]]; discriminate E. }
  split; [exact Hk |].
  apply (other_properties_ignored [("title", VStr "Mars"); ("sections", VArr [])]
           "author" (VStr "A. Clarke") Hk).
Defined.

Lemma headings_in_order_witness :
  valid_article complete = true /\
  exists out, formatArticleAsMarkdown complete = Ok out /\
    emitted_in_order (map heading_line (filter has_heading (sections_of complete))) out /\
    (forall x h, In x (sections_of complete) -> prop "heading" x = VStr h -> h <> "" ->
       contains (nl ++ ("### " ++ h) ++ nl2 ++ cat (map block_text (blocks_of x))) out).
Proof. split; [reflexivity | apply (headings_in_order complete); reflexivity]. Defined.

Lemma subtitle_introduction_conclusion_witness :
  valid_article complete = true /\
  exists out, formatArticleAsMarkdown complete = Ok out /\
    (forall s, prop "subtitle" complete = VStr s -> s <> "" ->
       starts_with ("# " ++ title_text complete ++ nl2 ++ "## " ++ s ++ nl2) out) /\
    (forall i, prop "introduction" complete = VStr i -> i <> "" ->
       starts_with ("# " ++ title_text complete ++ nl2 ++
                    opt_line "## " (prop "subtitle" complete) ++ i ++ nl2) out) /\
    (forall c, prop "conclusion" complete = VStr c -> c <> "" ->
       ends_with ("## Conclusion" ++ nl2 ++ c ++ nl2) out).
Proof.
  split; [reflexivity | apply (subtitle_introduction_conclusion complete); reflexivity].
Defined.

Lemma blank_topic_refused_witness :
  (blank (topic (typing "  ")) = true /\
   handleGenerateArticle plain_engine (typing "  ") (FetchRejected "offline")
   = (None, setError "Please enter a topic to generate an article." (typing "  "),
      [PreventDefault])) /\
  (blank (topic (typing " Mars ")) = false /\
   exists pending final rest,
     handleGenerateArticle plain_engine (typing " Mars ") (FetchRejected "offline")
     = (Some pending, final,
        PreventDefault :: PostTopic (topic (typing " Mars ")) :: rest)).
Proof.
  split.
  - split; [reflexivity |].
    apply (proj1 (blank_topic_refused plain_engine (typing "  ") (FetchRejected "offline"))).
    reflexivity.
  - split; [reflexivity |].
    apply (proj2 (blank_topic_refused plain_engine (typing " Mars ") (FetchRejected "offline"))).
    reflexivity.
Defined.


Lemma http_error_message_witness :
  blank (topic (typing "Mars")) = false /\
  field "error" [("error", VStr "Quota exceeded")] = VStr "Quota exceeded" /\
  "Quota exceeded" <> "" /\
  error (snd (fst (handleGenerateArticle plain_engine (typing "Mars")
                     (FetchResolved false status_429
                        (JsonResolved (VObj [("error", VStr "Quota exceeded")]))))))
  = Some (failure_text "Quota exceeded").
Proof.
  split; [reflexivity |]. split; [reflexivity |]. split; [discriminate |].
  apply (proj1 (http_error_message plain_engine (typing "Mars") status_429
                  (JsonResolved (VObj [("error", VStr "Quota exceeded")])) eq_refl)
           [("error", VStr "Quota exceeded")] "Quota exceeded");
    [reflexivity | reflexivity | discriminate].
Defined.

Lemma export_handlers_frame_witness :
  (truthy (article (typing "Mars")) = false /\
   handleDownloadArticle (typing "Mars")
   = (setError "No article to download." (typing "Mars"), [], Ok tt) /\
   handleCopyArticle (typing "Mars") ClipboardWritten
   = (setError "No article to copy." (typing "Mars"), [], Ok tt)) /\
  (truthy (article (showing mars)) = true /\
   fst (fst (handleDownloadArticle (showing mars))) = showing mars /\
   error (fst (fst (handleCopyArticle (showing mars) ClipboardRejected)))
   = error (showing mars)).
Proof.
  split.
  - split; [reflexivity |].
    apply (proj1 (proj2 (proj2 (export_handlers_frame (typing "Mars") ClipboardWritten)))).
    reflexivity.
  - split; [reflexivity |].
    apply (proj2 (proj2 (proj2 (export_handlers_frame (showing mars) ClipboardRejected)))).
    reflexivity.
Defined.

Lemma copy_and_download_same_text_witness :
  let md := "# Mars" ++ nl2 ++ "### Intro" ++ nl2 ++ "Mars is red." ++ nl2 in
  truthy (article (showing mars)) = true /\
  formatArticleAsMarkdown (article (showing mars)) = Ok md /\
  In (CreateObjectURL md) (snd (fst (handleDownloadArticle (showing mars)))) /\
  In (WriteText md) (snd (fst (handleCopyArticle (showing mars) ClipboardWritten))).
Proof.
  cbv zeta. split; [reflexivity |]. split; [reflexivity |]. split.
  - apply (proj1 (copy_and_download_same_text (showing mars) _)). now split.
  - apply (proj2 (copy_and_download_same_text (showing mars) _)). now split.
Defined.

Lemma download_completes_or_leaks_witness :
  truthy (article (showing odd_title)) = true /\
  formatArticleAsMarkdown (article (showing odd_title)) = Ok ("# true" ++ nl2) /\
  truthy (prop "title" (article (showing odd_title))) = true /\
  is_str (prop "title" (article (showing odd_title))) = false /\
  handleDownloadArticle (showing odd_title)
  = (showing odd_title, [CreateObjectURL ("# true" ++ nl2)], Throw).
Proof.
  split; [reflexivity |]. split; [reflexivity |]. split; [reflexivity |].
  split; [reflexivity |].
  apply (proj2 (proj2 (download_completes_or_leaks (showing odd_title) eq_refl)
                  ("# true" ++ nl2) eq_refl));
    reflexivity.
Defined.

Lemma generated_article_exports_witness :
  blank (topic (typing "Mars")) = false /\
  valid_article mars = true /\
  exists pending final effects,
    handleGenerateArticle plain_engine (typing "Mars")
      (FetchResolved true status_200 (JsonResolved mars))
    = (Some pending, final, effects) /\
    handleDownloadArticle final
    = (final,
       [CreateObjectURL (render mars); AppendLink;
        ClickLink (file_name (prop "title" mars)); RemoveLink; RevokeObjectURL],
       Ok tt) /\
    handleCopyArticle final ClipboardWritten
    = (setCopySuccess "Article copied to clipboard!" final,
       [WriteText (render mars); SetTimeout 3000], Ok tt).
Proof.
  split; [reflexivity |]. split; [reflexivity |].
  apply (generated_article_exports plain_engine (typing "Mars") status_200 mars);
    reflexivity.
Defined.

Lemma page_breaks_with_the_export_witness :
  truthy no_content = true /\
  In (VObj []) (sections_of no_content) /\
  is_array (prop "content" (VObj [])) = false /\
  article_panel no_content "" = Throw.
Proof.
  split; [reflexivity |]. split; [now left |]. split; [reflexivity |].
  apply (page_breaks_with_the_export no_content ""); [reflexivity |].
  right. exists (VObj []). split; [now left |]. right. left. reflexivity.
Defined.

Lemma exported_article_builds_a_panel_witness :
  (truthy complete = true /\
   (exists out, formatArticleAsMarkdown complete = Ok out) /\
   valid_article complete = true /\
   exists n, article_panel complete "" = Ok n /\
             forallb plain_child (child_values n) = true) /\
  (truthy object_title = true /\
   formatArticleAsMarkdown object_title = Ok ("# [object Object]" ++ nl2) /\
   exists n, article_panel object_title "" = Ok n /\
             In (VObj [("a", VStr "1")]) (child_values n)).
Proof.
  split.
  - split; [reflexivity |].
    assert (Hout : exists out, formatArticleAsMarkdown complete = Ok out)
      by (eexists; reflexivity).
    split; [exact Hout |]. split; [reflexivity |].
    destruct (exported_article_builds_a_panel complete "" eq_refl Hout)
      as [n [Hn [Hplain _]]].
    exists n. split; [exact Hn | exact (Hplain eq_refl)].
  - split; [reflexivity |]. split; [reflexivity |].
    assert (Hout : exists out, formatArticleAsMarkdown object_title = Ok out)
      by (eexists; reflexivity).
    destruct (exported_article_builds_a_panel object_title "" eq_refl Hout)
      as [n [Hn [_ Htitle]]].
    exists n. split; [exact Hn | exact (Htitle _ eq_refl)].
Defined.

Lemma every_image_block_is_shown_witness :
  truthy gallery = true /\
  exists n, article_panel gallery "" = Ok n /\
    images n = flat_map (section_images gallery) (sections_of gallery) /\
    List.length (images n) = List.length (filter is_image (all_blocks gallery)) /\
    images n
    = [[("src", VStr "u"); ("alt", VStr "c")];
       [("src", VStr "w"); ("alt", VStr "Image for Mars")];
       [("src", VUndef); ("alt", VStr "d")]].
Proof.
  split; [reflexivity |]. eexists. split; [reflexivity |].
  split; [| split; [| reflexivity]];
    apply (every_image_block_is_shown gallery "" _ eq_refl eq_refl).
Defined.

Lemma older_handler_agrees_witness :
  occurs "YOUR_CLOUDFLARE_WORKER_URL" API_ENDPOINT = false /\
  snd (handleGenerateArticle_old API_ENDPOINT plain_engine (typing "Mars")
         (FetchRejected "offline"))
  = snd (handleGenerateArticle plain_engine (typing "Mars") (FetchRejected "offline")).
Proof.
  split; [reflexivity |].
  apply (proj1 (older_handler_agrees API_ENDPOINT plain_engine (typing "Mars")
                  (FetchRejected "offline"))).
  reflexivity.
Defined.

Lemma base_name_fixed_point_witness :
  truthy mars = true /\ prop "title" mars = VStr "Mars" /\ "Mars" <> "" /\
  exists base,
    download_name mars = Ok (base ++ ".md") /\
    (plain_name "Mars" = true -> base = "Mars") /\
    toLowerCase (replace_non_alnum base) = base /\
    forall a', truthy a' = true -> prop "title" a' = VStr base ->
               download_name a' = Ok (base ++ ".md").
Proof.
  split; [reflexivity |]. split; [reflexivity |]. split; [discriminate |].
  apply (base_name_fixed_point mars "Mars"); [reflexivity | reflexivity | discriminate].
Defined.


Lemma page_invariants_witness :
  let st := request_starts (setTopic "Mars" initial_state) in
  reachable plain_engine st /\
  (loading st = true -> article st = VNull /\ error st = None) /\
  error st <> Some "No article to download." /\
  error st <> Some "No article to copy.".
Proof.
  cbv zeta.
  assert (Hr : reachable plain_engine (request_starts (setTopic "Mars" initial_state))).
  { apply (reachable_step plain_engine (setTopic "Mars" initial_state) Submitted).
    - apply (reachable_step plain_engine initial_state (Typed "Mars")).
      + apply reachable_initial.
      + now apply step_typed.
    - now apply step_submit. }
  split; [exact Hr |].
  apply (page_invariants plain_engine _ Hr).
Defined.
